(** * suggest_commit_message.py: change classification and message synthesis

    A shallow embedding of [skills/git-commit-auto/scripts/suggest_commit_message.py].

    Python values are modelled as follows.
    - [str] is a list of Unicode code points ([N]); [len] is [length].
    - [bytes] is a list of [Byte.byte].
    - A [dict] whose iteration order is observed ([max] over [items()]) is an
      association list in insertion order.
    - Exceptions are an error monad; [print] is a writer log.
    - The [git] subprocess and [os.getcwd] are read-only oracles collected in
      the record [World]. *)

From Stdlib Require Import String Strings.Byte List NArith ZArith Lia Bool.
From Stdlib Require Import Ascii DecimalString.
From Equations Require Import Equations.
Import ListNotations.

Set Implicit Arguments.

Abbreviation char := N (only parsing).
Abbreviation str := (list N) (only parsing).
Abbreviation bytes := (list byte) (only parsing).

(** ** Exceptions *)

Inductive exn : Type :=
| IndexError
| RuntimeError (msg : str)
| CalledProcessError (returncode : Z) (output : bytes)
| UnicodeEncodeError
| SystemExit (code : Z).

Inductive result (A : Type) : Type :=
| Ok (a : A)
| Raise (e : exn).
Arguments Ok {A} a.
Arguments Raise {A} e.

Declare Scope result_scope.
Delimit Scope result_scope with result.
Notation "'let?' x ':=' r 'in' k" :=
  (match r with Ok x => k | Raise e => Raise e end)
  (at level 10, x pattern, r at level 100, k at level 200) : result_scope.
Open Scope result_scope.

(** ** Python sequence operations *)

Module Py.

Local Open Scope N_scope.

Section Seq.
Context {A : Type} (eqb : A -> A -> bool).

(** [s.startswith(prefix)] *)
Fixpoint startswith (s prefix : list A) : bool :=
  match prefix, s with
  | [], _ => true
  | _ :: _, [] => false
  | p :: prefix', c :: s' => eqb c p && startswith s' prefix'
  end.

(** [s.endswith(suffix)] *)
Definition endswith (s suffix : list A) : bool :=
  startswith (rev s) (rev suffix).

(** [needle in s] *)
Fixpoint contains (needle s : list A) : bool :=
  match s with
  | [] => startswith [] needle
  | _ :: s' => startswith s needle || contains needle s'
  end.

(** [s.split(sep)] for a separator [sep] of length one. *)
Fixpoint split (sep : A) (s : list A) : list (list A) :=
  match s with
  | [] => [[]]
  | c :: s' =>
      if eqb c sep then [] :: split sep s'
      else match split sep s' with
           | h :: t => (c :: h) :: t
           | [] => [[c]]
           end
  end.

(** [s.split(sep, 1)] for a separator [sep] of length one. *)
Fixpoint split1 (sep : A) (s : list A) : list (list A) :=
  match s with
  | [] => [[]]
  | c :: s' =>
      if eqb c sep then [[]; s']
      else match split1 sep s' with
           | h :: t => (c :: h) :: t
           | [] => [[c]]
           end
  end.

(** [sep.join(parts)] *)
Fixpoint join (sep : list A) (parts : list (list A)) : list A :=
  match parts with
  | [] => []
  | [p] => p
  | p :: rest => p ++ sep ++ join sep rest
  end.
End Seq.

(** [xs[i]]: raises [IndexError] out of range ([i] is never negative here). *)
Definition index {A} (xs : list A) (i : nat) : result A :=
  match nth_error xs i with
  | Some x => Ok x
  | None => Raise IndexError
  end.

(** [s[:k]], with Python's treatment of a negative bound. *)
Definition slice_to {A} (s : list A) (k : Z) : list A :=
  if (k <? 0)%Z then firstn (Z.to_nat (Z.of_nat (length s) + k)%Z) s
  else firstn (Z.to_nat k) s.

(** [s[:-1]] *)
Definition drop_last {A} (s : list A) : list A := removelast s.

Definition is_empty {A} (s : list A) : bool :=
  match s with [] => true | _ => false end.

(** [str.isspace] on one code point: the ASCII table of CPython
    ([_Py_ascii_whitespace]) and the Unicode White_Space / bidirectional
    WS, B, S code points of [_PyUnicode_IsWhitespace]. *)
Definition isspace (c : char) : bool :=
  ((0x09 <=? c) && (c <=? 0x0D)) || ((0x1C <=? c) && (c <=? 0x20))
  || (c =? 0x85) || (c =? 0xA0) || (c =? 0x1680)
  || ((0x2000 <=? c) && (c <=? 0x200A))
  || (c =? 0x2028) || (c =? 0x2029) || (c =? 0x202F) || (c =? 0x205F)
  || (c =? 0x3000).

Fixpoint lstrip (s : str) : str :=
  match s with
  | [] => []
  | c :: s' => if isspace c then lstrip s' else s
  end.

Definition rstrip (s : str) : str := rev (lstrip (rev s)).

(** [s.strip()] *)
Definition strip (s : str) : str := rstrip (lstrip s).

(** [s.replace(old, new)]: non-overlapping occurrences, left to right.
    With an empty [old] Python inserts [new] before every code point and
    at the end. *)
Equations? replace_from (old new : str) (s : str) : str by wf (length s) lt :=
  replace_from old new [] := [];
  replace_from old new (c :: s') with startswith N.eqb (c :: s') old => {
    | true := new ++ replace_from old new (skipn (length old - 1)%nat s');
    | false := c :: replace_from old new s' }.
Proof. all: simpl; try lia. pose proof (length_skipn (length old - 1)%nat s'). lia. Qed.

Definition replace (s old new : str) : str :=
  match old with
  | [] => new ++ flat_map (fun c => c :: new) s
  | _ => replace_from old new s
  end.

(** Code points of the decimal digits of a non-negative [int]. *)
Definition str_of_nat (n : nat) : str :=
  map (fun a => N_of_ascii a)
      (list_ascii_of_string (NilZero.string_of_uint (Nat.to_uint n))).

(** ASCII part of [str.lower]. *)
Definition ascii_lower_char (c : char) : char :=
  if (0x41 <=? c) && (c <=? 0x5A) then c + 0x20 else c.

Definition ascii_lower (s : str) : str := map ascii_lower_char s.

Definition is_ascii (s : str) : bool := forallb (fun c => c <? 0x80) s.

End Py.

Definition str_eq_dec : forall a b : str, {a = b} + {a <> b} :=
  list_eq_dec N.eq_dec.

Definition str_eqb (a b : str) : bool :=
  if str_eq_dec a b then true else false.

(** ** The UTF-8 codec with [errors="replace"]

    [data.decode("utf-8", errors="replace")] as CPython's decoder does it:
    every maximal ill-formed subsequence becomes one U+FFFD. *)

Module Utf8.

Local Open Scope N_scope.

Definition REPLACEMENT : char := 0xFFFD.

Definition is_cont (b : N) : bool := (0x80 <=? b) && (b <=? 0xBF).

(** Second byte admissible after the lead byte [b] of a three-byte form. *)
Definition ok2_of_3 (b b2 : N) : bool :=
  is_cont b2 && negb ((b =? 0xE0) && (b2 <? 0xA0))
             && negb ((b =? 0xED) && (0xA0 <=? b2)).

(** Second byte admissible after the lead byte [b] of a four-byte form. *)
Definition ok2_of_4 (b b2 : N) : bool :=
  is_cont b2 && negb ((b =? 0xF0) && (b2 <? 0x90))
             && negb ((b =? 0xF4) && (0x90 <=? b2)).

Fixpoint decode (data : bytes) : str :=
  match data with
  | [] => []
  | x :: rest =>
      let b := Byte.to_N x in
      if b <? 0x80 then b :: decode rest
      else if b <? 0xC2 then REPLACEMENT :: decode rest
      else if b <? 0xE0 then
        match rest with
        | [] => [REPLACEMENT]
        | x2 :: rest2 =>
            let b2 := Byte.to_N x2 in
            if is_cont b2
            then ((b - 0xC0) * 64 + (b2 - 0x80)) :: decode rest2
            else REPLACEMENT :: decode rest
        end
      else if b <? 0xF0 then
        match rest with
        | [] => [REPLACEMENT]
        | x2 :: rest2 =>
            let b2 := Byte.to_N x2 in
            if ok2_of_3 b b2 then
              match rest2 with
              | [] => [REPLACEMENT]
              | x3 :: rest3 =>
                  let b3 := Byte.to_N x3 in
                  if is_cont b3
                  then ((b - 0xE0) * 4096 + (b2 - 0x80) * 64 + (b3 - 0x80))
                         :: decode rest3
                  else REPLACEMENT :: decode rest2
              end
            else REPLACEMENT :: decode rest
        end
      else if b <? 0xF5 then
        match rest with
        | [] => [REPLACEMENT]
        | x2 :: rest2 =>
            let b2 := Byte.to_N x2 in
            if ok2_of_4 b b2 then
              match rest2 with
              | [] => [REPLACEMENT]
              | x3 :: rest3 =>
                  let b3 := Byte.to_N x3 in
                  if is_cont b3 then
                    match rest3 with
                    | [] => [REPLACEMENT]
                    | x4 :: rest4 =>
                        let b4 := Byte.to_N x4 in
                        if is_cont b4
                        then ((b - 0xF0) * 262144 + (b2 - 0x80) * 4096
                              + (b3 - 0x80) * 64 + (b4 - 0x80))
                               :: decode rest4
                        else REPLACEMENT :: decode rest3
                    end
                  else REPLACEMENT :: decode rest2
              end
            else REPLACEMENT :: decode rest
        end
      else REPLACEMENT :: decode rest
  end.

End Utf8.

(** A string literal of the (UTF-8 encoded) source file. *)
Definition lit (s : string) : str := Utf8.decode (list_byte_of_string s).

(** A bytes literal. *)
Definition blit (s : string) : bytes := list_byte_of_string s.

Definition NUL : byte := x00.
Definition SLASH : char := 0x2F%N.
Definition NEWLINE : char := 0x0A%N.

(** ** The environment of the script

    [git w repo_root args] is the child process [git -C repo_root args...]:
    its exit status and the output that the call captures. *)

Record World : Type := {
  getcwd : str;
  git : str -> list str -> Z * bytes
}.

(** [subprocess.check_output(["git", "-C", repo_root, *args])] *)
Definition check_output (w : World) (repo_root : str) (args : list str)
  : result bytes :=
  let (returncode, out) := git w repo_root args in
  if (returncode =? 0)%Z then Ok out
  else Raise (CalledProcessError returncode out).

Definition _run_git (w : World) (repo_root : str) (args : list str)
  : result str :=
  let? out := check_output w repo_root args in
  Ok (Utf8.decode out).

Definition _git_try (w : World) (repo_root : str) (args : list str)
  : Z * str :=
  match check_output w repo_root args with
  | Ok out => (0%Z, Utf8.decode out)
  | Raise (CalledProcessError returncode output) =>
      (returncode, Utf8.decode output)
  | Raise _ => (1%Z, [])
  end.

(** ** Output *)

(** What a [print] call writes: a string, [str(e)] of a caught exception, or
    [json.dumps({"subject": ..., "body": ...}, ensure_ascii=False)]. *)
Inductive printed : Type :=
| Text (s : str)
| StrOfExn (e : exn)
| JsonDumps (subject body : str).

Inductive event : Type :=
| Stdout (p : printed)
| Stderr (p : printed).

(** A computation that prints and then returns or raises. *)
Definition io (A : Type) : Type := (list event * result A)%type.

Definition ret {A} (a : A) : io A := ([], Ok a).
Definition raise {A} (e : exn) : io A := ([], Raise e).

(** [print(...)] writes to [sys.stdout], which encodes the text with its own
    codec and raises [UnicodeEncodeError], having written nothing, when the
    codec cannot encode it; [encodes] tells whether it can. *)
Definition print (encodes : printed -> bool) (p : printed) : io unit :=
  if encodes p then ([Stdout p], Ok tt) else raise UnicodeEncodeError.

(** [print(..., file=sys.stderr)]: [sys.stderr] escapes what its codec cannot
    encode. *)
Definition eprint (p : printed) : io unit := ([Stderr p], Ok tt).

(** The code points of a print that [sys.stdout] has to encode: those of the
    string, or those of the two strings of the JSON object, whose other
    characters are ASCII. No exception is printed to [sys.stdout]. *)
Definition to_encode (p : printed) : str :=
  match p with
  | Text s => s
  | JsonDumps subject body => subject ++ body
  | StrOfExn _ => []
  end.

Definition is_surrogate (c : char) : bool :=
  ((0xD800 <=? c) && (c <=? 0xDFFF))%N.

(** A [sys.stdout] in UTF-8, which encodes everything but surrogates, and
    one in ASCII. *)
Definition utf8_stdout (p : printed) : bool :=
  forallb (fun c => negb (is_surrogate c)) (to_encode p).

Definition ascii_stdout (p : printed) : bool :=
  forallb (fun c => (c <? 0x80)%N) (to_encode p).

Definition iobind {A B} (m : io A) (k : A -> io B) : io B :=
  match m with
  | (log, Ok a) => let (log', r) := k a in (log ++ log', r)
  | (log, Raise e) => (log, Raise e)
  end.

Declare Scope io_scope.
Delimit Scope io_scope with io.
Notation "x <- m ;; k" := (iobind m (fun x => k))
  (at level 61, m at next level, right associativity) : io_scope.
Notation "m ;; k" := (iobind m (fun _ => k))
  (at level 61, right associativity) : io_scope.

Definition _get_repo_root (w : World) : io str :=
  let (code, out) := _git_try w (getcwd w) [lit "rev-parse"; lit "--show-toplevel"] in
  if negb (code =? 0)%Z then
    (eprint (Text (lit "not a git repo")) ;; raise (SystemExit 2))%io
  else ret (Py.strip out).

(** ** Change Set Reader *)

Definition _parse_z_pairs (data : bytes) : list str :=
  if Py.is_empty data then []
  else
    let parts := Py.split Byte.eqb NUL data in
    let parts :=
      match parts with
      | [] => parts
      | p0 :: ps => if Py.is_empty (last ps p0) then Py.drop_last parts else parts
      end in
    map Utf8.decode parts.

Record ChangedFile : Type := {
  status : str;
  path : str
}.

Definition is_rename_or_copy (status : str) : bool :=
  Py.startswith N.eqb status (lit "R") || Py.startswith N.eqb status (lit "C").

(** The [while i < len(parts)] loop of [_list_changed_files]. *)
Equations? changed_loop (parts : list str) (i : nat) (changed : list ChangedFile)
  : result (list ChangedFile) by wf (length parts - i) lt :=
  changed_loop parts i changed with lt_dec i (length parts) => {
    | right _ := Ok changed;
    | left _ :=
        let? status := Py.index parts i in
        if Py.is_empty status then changed_loop parts (i + 1) changed
        else if is_rename_or_copy status then
          if length parts <=? i + 2 then Ok changed
          else
            let? new_path := Py.index parts (i + 2) in
            changed_loop parts (i + 3)
              (changed ++ [{| status := Py.slice_to status 1; path := new_path |}])
        else
          if length parts <=? i + 1 then Ok changed
          else
            let? p := Py.index parts (i + 1) in
            changed_loop parts (i + 2)
              (changed ++ [{| status := Py.slice_to status 1; path := p |}]) }.
Proof. all: lia. Qed.

Definition diff_args (flags : list str) (cached : bool) : list str :=
  if cached then lit "diff" :: lit "--cached" :: flags
  else lit "diff" :: flags.

(** [_list_changed_files] from the captured output [raw] on. *)
Definition parse_changed (raw : bytes) : result (list ChangedFile) :=
  let parts := _parse_z_pairs raw in
  changed_loop parts 0 [].

Definition _list_changed_files (w : World) (repo_root : str) (cached : bool)
  : result (list ChangedFile) :=
  let args := diff_args [lit "--name-status"; lit "-z"] cached in
  let? raw := check_output w repo_root args in
  parse_changed raw.

Definition _list_untracked_files (w : World) (repo_root : str)
  : result (list ChangedFile) :=
  let? raw := check_output w repo_root
                [lit "ls-files"; lit "--others"; lit "--exclude-standard"; lit "-z"] in
  let paths := _parse_z_pairs raw in
  Ok (map (fun p => {| status := lit "A"; path := p |}) paths).

(** The ChangeSet of [build_message]: tracked changes, then untracked files
    when the working tree is summarized. *)
Definition read_changes (w : World) (repo_root : str) (cached : bool)
  : result (list ChangedFile) :=
  let? changed := _list_changed_files w repo_root cached in
  if negb cached then
    let? untracked := _list_untracked_files w repo_root in
    Ok (changed ++ untracked)
  else Ok changed.

(** ** Dictionaries in insertion order *)

Module Dict.

Fixpoint get {V} (d : list (str * V)) (k : str) (default : V) : V :=
  match d with
  | [] => default
  | (k', v) :: d' => if str_eqb k' k then v else get d' k default
  end.

(** [d[k] = v]: an existing key keeps its position, a new key goes last. *)
Fixpoint set {V} (d : list (str * V)) (k : str) (v : V) : list (str * V) :=
  match d with
  | [] => [(k, v)]
  | (k', v') :: d' =>
      if str_eqb k' k then (k', v) :: d' else (k', v') :: set d' k v
  end.

(** The scan of [max(items, key=lambda kv: kv[1])] after its first item:
    the running maximum is replaced only by a strictly greater value. *)
Fixpoint max_scan (best : str * Z) (items : list (str * Z)) : str * Z :=
  match items with
  | [] => best
  | it :: rest => max_scan (if (snd best <? snd it)%Z then it else best) rest
  end.

End Dict.

(** ** Classifiers that do not lower-case *)

Definition top_segment (p : str) : str :=
  if Py.contains N.eqb (lit "/") p
  then hd [] (Py.split1 N.eqb SLASH p)
  else p.

(** The tallying loop of [_dominant_area]. *)
Definition tally_tops (paths : list str) : list (str * Z) :=
  fold_left
    (fun counts p =>
       let top := top_segment p in
       Dict.set counts top (Dict.get counts top 0 + 1)%Z)
    paths [].

Definition area_mapping : list (str * str) :=
  [ (lit "mobile-app", lit "移动端");
    (lit "backend", lit "后端");
    (lit "docs", lit "文档") ].

Definition _dominant_area (paths : list str) : str :=
  match tally_tops paths with
  | [] => lit "项目"
  | first :: rest =>
      let top := fst (Dict.max_scan first rest) in
      Dict.get area_mapping top (lit "项目")
  end.

Definition _infer_action (statuses : list str) : str :=
  if existsb (fun s => str_eqb s (lit "A")) statuses then lit "新增"
  else if existsb (fun s => str_eqb s (lit "D")) statuses then lit "移除"
  else lit "更新".

Definition _compact_subject (prefix summary : str) (limit : Z) : str :=
  let subject := Py.strip (prefix ++ lit ": " ++ summary) in
  if (Z.of_nat (length subject) <=? limit)%Z then subject
  else
    let summary2 :=
      Py.replace (Py.replace summary (lit "功能") (lit "")) (lit "页面") (lit "") in
    let subject2 := Py.strip (prefix ++ lit ": " ++ summary2) in
    if (Z.of_nat (length subject2) <=? limit)%Z then subject2
    else Py.slice_to subject limit.

(** The default of the [limit] parameter. *)
Definition default_limit : Z := 50.

Definition _shortstat (w : World) (repo_root : str) (cached : bool)
  : result str :=
  let args := diff_args [lit "--shortstat"] cached in
  let? out := _run_git w repo_root args in
  Ok (Py.strip out).

(** ** Regular expressions of [_is_test_only] *)

Module Re.

(** [$] without [re.MULTILINE]: the end of the string, or the position
    before a newline that ends the string. *)
Definition at_dollar (rest : str) : bool :=
  Py.is_empty rest || str_eqb rest [NEWLINE].

(** [word] then [$], matched at the head of [s]. *)
Definition word_dollar (word s : str) : bool :=
  Py.startswith N.eqb s word && at_dollar (skipn (length word) s).

(** [word(/|$)], matched at the head of [s]. *)
Definition word_sep (word s : str) : bool :=
  Py.startswith N.eqb s word
  && (let rest := skipn (length word) s in
      Py.startswith N.eqb rest (lit "/") || at_dollar rest).

(** [(^|/)] then [m], matched at the head of [s]; [at_start] tells whether
    this position is the start of the subject string. *)
Definition after_sep (m : str -> bool) (at_start : bool) (s : str) : bool :=
  (at_start && m s)
  || match s with
     | c :: s' => (c =? SLASH)%N && m s'
     | [] => false
     end.

(** [pattern.search(s)]: a match at some position, leftmost first. *)
Fixpoint search_from (m : bool -> str -> bool) (at_start : bool) (s : str)
  : bool :=
  m at_start s
  || match s with
     | [] => false
     | _ :: s' => search_from m false s'
     end.

Definition search (m : bool -> str -> bool) (s : str) : bool :=
  search_from m true s.

(** [_test\.go$] *)
Definition go_test : bool -> str -> bool :=
  fun _ s => word_dollar (lit "_test.go") s.

(** [\.(spec|test)\.(ts|tsx|js|jsx)$] *)
Definition js_test : bool -> str -> bool :=
  fun _ s =>
    existsb
      (fun a =>
         existsb
           (fun b => word_dollar (lit "." ++ a ++ lit "." ++ b) s)
           [lit "ts"; lit "tsx"; lit "js"; lit "jsx"])
      [lit "spec"; lit "test"].

(** [(^|/)__tests__(/|$)] *)
Definition dunder_tests_dir : bool -> str -> bool :=
  after_sep (word_sep (lit "__tests__")).

(** [(^|/)tests?(/|$)] *)
Definition tests_dir : bool -> str -> bool :=
  after_sep (fun s => word_sep (lit "tests") s || word_sep (lit "test") s).

End Re.

Definition test_patterns : list (bool -> str -> bool) :=
  [Re.go_test; Re.js_test; Re.dunder_tests_dir; Re.tests_dir].

Definition _is_test_only (paths : list str) : bool :=
  if Py.is_empty paths then false
  else forallb (fun p => existsb (fun r => Re.search r p) test_patterns) paths.

Definition chore_allow : list str :=
  [ lit "package.json"; lit "package-lock.json"; lit "yarn.lock";
    lit "pnpm-lock.yaml"; lit "go.mod"; lit "go.sum"; lit "tsconfig.json";
    lit "app.json"; lit "app.config.js"; lit "app.config.ts";
    lit ".gitignore"; lit ".gitattributes" ].

Definition _is_chore_only (paths : list str) : bool :=
  if Py.is_empty paths then false
  else
    forallb
      (fun p =>
         let parts := Py.split N.eqb SLASH p in
         let base := last parts [] in
         existsb (str_eqb base) chore_allow
         || Py.startswith N.eqb p (lit ".github/")
         || Py.startswith N.eqb p (lit ".vscode/")
         || ((Py.endswith N.eqb base (lit ".yml")
              || Py.endswith N.eqb base (lit ".yaml"))
             && (Py.contains N.eqb (lit "eslint") base
                 || Py.contains N.eqb (lit "prettier") base)))
      paths.

Definition fix_keywords : list str :=
  [lit "修复"; lit "bug"; lit "崩溃"; lit "异常"; lit "错误"].

(** Truth value of an [Optional[str]]. *)
Definition truthy (o : option str) : bool :=
  match o with
  | Some s => negb (Py.is_empty s)
  | None => false
  end.

Definition hint_says_fix (user_hint : option str) : bool :=
  match user_hint with
  | Some h =>
      negb (Py.is_empty h)
      && existsb (fun k => Py.contains N.eqb k h) fix_keywords
  | None => false
  end.

Definition object_keywords : list (str * str) :=
  [ (lit "about", lit "关于我们");
    (lit "privacy", lit "隐私政策");
    (lit "register", lit "注册");
    (lit "signup", lit "注册");
    (lit "login", lit "登录");
    (lit "auth", lit "认证");
    (lit "profile", lit "个人中心");
    (lit "account", lit "账号");
    (lit "search", lit "搜索");
    (lit "player", lit "播放器");
    (lit "history", lit "历史");
    (lit "download", lit "下载");
    (lit "cache", lit "缓存");
    (lit "toast", lit "Toast");
    (lit "supabase", lit "Supabase");
    (lit "api", lit "接口");
    (lit "route", lit "路由");
    (lit "layout", lit "布局") ].

(** [weight = 3 if status == "A" else 1] *)
Definition weight (status : str) : Z :=
  if str_eqb status (lit "A") then 3%Z else 1%Z.

(** The [argparse] namespace that [main] reads. *)
Record Args : Type := {
  cached : bool;
  worktree : bool;
  hint : option str;
  json : bool
}.

(** The status with which the interpreter leaves
    [raise SystemExit(main())]: the returned code, the code of a
    [SystemExit] raised on the way, or 1 for an exception nobody caught. *)
Definition exit_status (r : io Z) : Z :=
  match snd r with
  | Ok code => code
  | Raise (SystemExit code) => code
  | Raise _ => 1%Z
  end.

Definition stdout_of (r : io Z) : list printed :=
  flat_map (fun ev => match ev with Stdout p => [p] | Stderr _ => [] end) (fst r).

Definition stderr_of (r : io Z) : list printed :=
  flat_map (fun ev => match ev with Stderr p => [p] | Stdout _ => [] end) (fst r).

(** [f"- {c.status} {c.path}"] *)
Definition file_line (c : ChangedFile) : str :=
  lit "- " ++ status c ++ lit " " ++ path c.

(** ** Classifiers and renderer that lower-case

    [str.lower] follows the Unicode case tables of the interpreter; the
    development takes it as a parameter, and so the codec of [sys.stdout]. *)

Section Lowercase.

Variable str_lower : str -> str.
Variable stdout_encodes : printed -> bool.

Definition _is_docs_only (paths : list str) : bool :=
  if Py.is_empty paths then false
  else
    forallb
      (fun p =>
         Py.startswith N.eqb p (lit "docs/")
         || Py.endswith N.eqb (str_lower p) (lit ".md"))
      paths.

Definition _infer_type (paths : list str) (user_hint : option str) : str :=
  if hint_says_fix user_hint then lit "fix"
  else if _is_docs_only paths then lit "docs"
  else if _is_test_only paths then lit "test"
  else if _is_chore_only paths then lit "chore"
  else lit "feat".

(** The first loop of [_infer_object]. *)
Fixpoint priority_scan (changed : list ChangedFile) : option str :=
  match changed with
  | [] => None
  | c :: rest =>
      let p := str_lower (path c) in
      if str_eqb (status c) (lit "A") && Py.contains N.eqb (lit "about") p
      then Some (lit "关于我们")
      else if str_eqb (status c) (lit "A") && Py.contains N.eqb (lit "privacy") p
      then Some (lit "隐私政策")
      else priority_scan rest
  end.

(** The scoring loops of [_infer_object]. *)
Definition keyword_scores (changed : list ChangedFile) : list (str * Z) :=
  let lower_items := map (fun c => (str_lower (path c), status c)) changed in
  fold_left
    (fun score (kw : str * str) =>
       let (needle, zh) := kw in
       fold_left
         (fun score (item : str * str) =>
            let (path, status) := item in
            if Py.contains N.eqb needle path
            then Dict.set score zh (Dict.get score zh 0 + weight status)%Z
            else score)
         lower_items score)
    object_keywords [].

Definition _infer_object (changed : list ChangedFile) : option str :=
  match priority_scan changed with
  | Some label => Some label
  | None =>
      match keyword_scores changed with
      | [] => None
      | first :: rest => Some (fst (Dict.max_scan first rest))
      end
  end.

(** The [summary] of [build_message]. *)
Definition summary_of (paths : list str) (user_hint : option str)
  (commit_type area : str) (obj : option str) (action : str) : str :=
  if truthy user_hint then
    match user_hint with Some h => Py.strip h | None => [] end
  else if truthy obj then
    let obj := match obj with Some o => o | None => [] end in
    if str_eqb commit_type (lit "docs") then action ++ obj ++ lit "文档"
    else if existsb (str_eqb obj) [lit "关于我们"; lit "隐私政策"]
            && existsb (fun p => Py.contains N.eqb (lit "about") (str_lower p)) paths
    then action ++ obj ++ lit "页面"
    else if Py.contains N.eqb (lit "页面") obj || Py.endswith N.eqb obj (lit "页")
    then action ++ obj
    else action ++ obj ++ lit "功能"
  else action ++ area ++ lit "变更".

Definition max_files : nat := 12.

(** The [lines] of [build_message]. *)
Definition body_lines (stat : str) (changed : list ChangedFile) : list str :=
  (if Py.is_empty stat then [] else [lit "- 统计：" ++ stat])
  ++ map file_line (firstn max_files changed)
  ++ (if max_files <? length changed
      then [lit "- ... 以及另外 " ++ Py.str_of_nat (length changed - max_files)
            ++ lit " 个文件"]
      else []).

Definition build_message (w : World) (repo_root : str) (cached : bool)
  (user_hint : option str) : result (str * str) :=
  let? changed := read_changes w repo_root cached in
  let paths := map path changed in
  let statuses := map status changed in
  if Py.is_empty paths then Raise (RuntimeError (lit "no changes to summarize"))
  else
    let commit_type := _infer_type paths user_hint in
    let area := _dominant_area paths in
    let obj := _infer_object changed in
    let action := _infer_action statuses in
    let summary := summary_of paths user_hint commit_type area obj action in
    let subject := _compact_subject commit_type summary default_limit in
    let? stat := _shortstat w repo_root cached in
    let lines := body_lines stat changed in
    let body := Py.strip (Py.join [NEWLINE] lines) in
    Ok (subject, body).

(** [main], after [parser.parse_args()] has produced [args]. *)
Definition main (w : World) (args : Args) : io Z :=
  (if cached args && worktree args then
     eprint (Text (lit "choose one of --cached or --worktree")) ;; ret 2%Z
   else
     let cached := negb (worktree args) in
     repo_root <- _get_repo_root w ;;
     match build_message w repo_root cached (hint args) with
     | Raise (SystemExit code) => raise (SystemExit code)
     | Raise e => eprint (StrOfExn e) ;; ret 3%Z
     | Ok (subject, body) =>
         if json args then
           print stdout_encodes (JsonDumps subject body) ;; ret 0%Z
         else
           print stdout_encodes (Text (lit "subject: " ++ subject)) ;;
           (if negb (Py.is_empty body)
            then print stdout_encodes (Text (lit "body:")) ;;
                 print stdout_encodes (Text body)
            else ret tt) ;;
           ret 0%Z
     end)%io.

End Lowercase.

(** What [main] prints of a message, in order. *)
Definition message_prints (json : bool) (subject body : str) : list printed :=
  if json then [JsonDumps subject body]
  else Text (lit "subject: " ++ subject)
       :: (if Py.is_empty body then [] else [Text (lit "body:"); Text body]).

(** The prints written before the first one that the codec refuses. *)
Fixpoint written (encodes : printed -> bool) (ps : list printed)
  : list printed :=
  match ps with
  | [] => []
  | p :: ps' => if encodes p then p :: written encodes ps' else []
  end.

(** ** Record streams of [git diff --name-status -z]

    The vocabulary in which the properties of the reader are stated: a
    stream is a sequence of records, every field followed by a NUL byte. *)

Inductive record : Type :=
| Ordinary (status path : bytes)
| RenameCopy (status old_path new_path : bytes).

Definition fields (r : record) : list bytes :=
  match r with
  | Ordinary st p => [st; p]
  | RenameCopy st old new => [st; old; new]
  end.

Definition nul_terminated (fs : list bytes) : bytes :=
  flat_map (fun f => f ++ [NUL]) fs.

Definition stream (rs : list record) : bytes :=
  nul_terminated (flat_map fields rs).

Definition nul_free (f : bytes) : bool :=
  forallb (fun b => negb (Byte.eqb b NUL)) f.

(** The first byte of a status code is an ASCII letter; [R] and [C] announce
    two paths. *)
Definition first_is_ascii (st : bytes) : bool :=
  match st with
  | b :: _ => (Byte.to_N b <? 0x80)%N
  | [] => false
  end.

Definition first_is_RC (st : bytes) : bool :=
  match st with
  | b :: _ => Byte.eqb b "R"%byte || Byte.eqb b "C"%byte
  | [] => false
  end.

Definition well_formed (r : record) : bool :=
  match r with
  | Ordinary st p =>
      first_is_ascii st && negb (first_is_RC st) && nul_free st && nul_free p
  | RenameCopy st old new =>
      first_is_ascii st && first_is_RC st
      && nul_free st && nul_free old && nul_free new
  end.

Definition first_letter (st : bytes) : str :=
  match st with
  | b :: _ => [Byte.to_N b]
  | [] => []
  end.

(** The [ChangedFile] a record stands for. *)
Definition changed_file_of (r : record) : ChangedFile :=
  match r with
  | Ordinary st p => {| status := first_letter st; path := Utf8.decode p |}
  | RenameCopy st _ new => {| status := first_letter st; path := Utf8.decode new |}
  end.

(** A record cut short by the end of the stream. *)
Inductive partial_record : Type :=
| StatusOnly (status : bytes)
| StatusAndOld (status old_path : bytes).

Definition partial_fields (t : partial_record) : list bytes :=
  match t with
  | StatusOnly st => [st]
  | StatusAndOld st old => [st; old]
  end.

Definition partial_ok (t : partial_record) : bool :=
  match t with
  | StatusOnly st => first_is_ascii st && nul_free st
  | StatusAndOld st old =>
      first_is_ascii st && first_is_RC st && nul_free st && nul_free old
  end.

(** The bytes of a cut record: its fields separated by NUL, the last one
    with or without its terminator. *)
Definition partial_bytes (t : partial_record) (terminated : bool) : bytes :=
  Py.join [NUL] (partial_fields t) ++ (if terminated then [NUL] else []).

(** ** Further vocabulary of the statements *)

(** Dropping the empty piece that [split] leaves after a final NUL. *)
Definition drop_empty_tail (parts : list bytes) : list bytes :=
  match parts with
  | [] => parts
  | p0 :: ps => if Py.is_empty (last ps p0) then Py.drop_last parts else parts
  end.

(** The dictionary that maps every key of [ks] to [f k], in the order of [ks]. *)
Definition tabulate {V} (f : str -> V) (ks : list str) : list (str * V) :=
  map (fun k => (k, f k)) ks.

(** Number of occurrences of [k] in [l]. *)
Definition count (k : str) (l : list str) : Z :=
  Z.of_nat (count_occ str_eq_dec l k).

(** The distinct elements of [l] in the order of their first occurrence. *)
Definition firsts (l : list str) : list str :=
  fold_left (fun acc s => if in_dec str_eq_dec s acc then acc else acc ++ [s]) l [].

(** [top] has the greatest count in [segs], and everything that occurs
    before the first [top] has a strictly smaller one. *)
Definition plurality_first (top : str) (segs : list str) : Prop :=
  exists pre post,
    segs = pre ++ top :: post
    /\ ~ In top pre
    /\ (forall s, In s pre -> (count s segs < count top segs)%Z)
    /\ (forall s, (count s segs <= count top segs)%Z).

(** The part of [p] before its first [sep], all of [p] if it has none. *)
Fixpoint before_first (sep : char) (p : str) : str :=
  match p with
  | [] => []
  | c :: p' => if (c =? sep)%N then [] else c :: before_first sep p'
  end.

Definition display_name (segment : str) : str :=
  Dict.get area_mapping segment (lit "项目").

Definition bump (counts : list (str * Z)) (top : str) : list (str * Z) :=
  Dict.set counts top (Dict.get counts top 0 + 1)%Z.

Definition sample_records : list record :=
  [ Ordinary (blit "M") (blit "src/app.py");
    RenameCopy (blit "R100") (blit "old/name.txt") (blit "new/name.txt");
    Ordinary (blit "D") (blit "gone.txt") ].

Definition sample_paths : list str :=
  [ lit "docs/guide.md"; lit "backend/api.go"; lit "README";
    lit "backend/db.go"; lit "docs/faq.md" ].

Definition has_arg (a : str) (args : list str) : bool :=
  existsb (str_eqb a) args.

(** A repository at [/work/repo] in which git answers the queries of the
    script with the given outputs. *)
Definition repo_world (name_status untracked shortstat : bytes) : World :=
  {| getcwd := lit "/work/repo/src";
     git := fun _ args =>
       if has_arg (lit "rev-parse") args then (0%Z, blit "/work/repo" ++ [x0a])
       else if has_arg (lit "--name-status") args then (0%Z, name_status)
       else if has_arg (lit "ls-files") args then (0%Z, untracked)
       else if has_arg (lit "--shortstat") args then (0%Z, shortstat)
       else (1%Z, []) |}.

(** A directory outside every repository: git exits with status 128. *)
Definition no_repo_world : World :=
  {| getcwd := lit "/tmp";
     git := fun _ _ =>
       (128%Z, blit "fatal: not a git repository (or any of the parent directories): .git"
               ++ [x0a]) |}.

Definition plain_args : Args :=
  {| cached := false; worktree := false; hint := None; json := false |}.

(** [str.lower] agrees with the ASCII mapping on ASCII strings. *)
Definition lower_on_ascii (str_lower : str -> str) : Prop :=
  forall s, Py.is_ascii s = true -> str_lower s = Py.ascii_lower s.

(** Scenario: fifteen modified files under [backend/]. *)
Definition backend_file (n : nat) : bytes :=
  blit "backend/handler_"
  ++ list_byte_of_string (NilZero.string_of_uint (Nat.to_uint n))
  ++ blit ".go".

Definition fifteen_records : list record :=
  map (fun n => Ordinary (blit "M") (backend_file n)) (seq 1 15).

Definition fifteen_modified : list ChangedFile :=
  map (fun n => {| status := lit "M"; path := Utf8.decode (backend_file n) |})
      (seq 1 15).

Definition fifteen_world : World :=
  repo_world (stream fifteen_records) []
    (blit " 15 files changed, 40 insertions(+), 7 deletions(-)" ++ [x0a]).

Definition empty_world : World := repo_world [] [] [].

(** Scenario: one added file [mobile-app/auth/login.tsx]. *)
Definition login_path : str := lit "mobile-app/auth/login.tsx".

Definition login_added : list ChangedFile :=
  [{| status := lit "A"; path := login_path |}].

Definition login_world : World :=
  repo_world (stream [Ordinary (blit "A") (blit "mobile-app/auth/login.tsx")])
    [] (blit " 1 file changed, 42 insertions(+)" ++ [x0a]).

(** Scenario: one file renamed from [auth/signin.ts] to [auth/login.ts]. *)
Definition rename_record : record :=
  RenameCopy (blit "R100") (blit "auth/signin.ts") (blit "auth/login.ts").

(** ** Vocabulary of the further properties *)

(** A record preceded by a number of empty fields. *)
Definition padded_fields (pr : nat * record) : list bytes :=
  repeat [] (fst pr) ++ fields (snd pr).

(** A stream in which stray NUL bytes precede the records and follow the
    last one. *)
Definition padded_stream (padded : list (nat * record)) (trailing : nat)
  : bytes :=
  flat_map (fun pr => repeat NUL (fst pr) ++ nul_terminated (fields (snd pr)))
           padded
  ++ repeat NUL trailing.

Definition added_file (p : bytes) : ChangedFile :=
  {| status := lit "A"; path := Utf8.decode p |}.

(** The arguments of the [git ls-files] call of [_list_untracked_files]. *)
Definition ls_files_args : list str :=
  [lit "ls-files"; lit "--others"; lit "--exclude-standard"; lit "-z"].

(** Scenario: two staged changes and two untracked files, one of which is
    also the target of the staged rename. *)
Definition worktree_world : World :=
  repo_world
    (stream [Ordinary (blit "M") (blit "README.md"); rename_record])
    (nul_terminated [blit "auth/login.ts"; blit "notes.txt"])
    (blit " 2 files changed, 3 insertions(+)" ++ [x0a]).

(** The same repository with other untracked files. *)
Definition worktree_world_other_untracked : World :=
  repo_world
    (stream [Ordinary (blit "M") (blit "README.md"); rename_record])
    (nul_terminated [blit "scratch/about.md"])
    (blit " 2 files changed, 3 insertions(+)" ++ [x0a]).

(** A repository in which [git diff] fails. *)
Definition broken_diff_world : World :=
  {| getcwd := lit "/work/repo";
     git := fun _ args =>
       if has_arg (lit "rev-parse") args then (0%Z, blit "/work/repo" ++ [x0a])
       else (129%Z, blit "error: unknown option") |}.

Definition json_args : Args :=
  {| cached := true; worktree := false; hint := None; json := true |}.

(** The arguments of the [git rev-parse] call of [_get_repo_root]. *)
Definition rev_parse_args : list str :=
  [lit "rev-parse"; lit "--show-toplevel"].

Definition commit_types : list str :=
  [lit "fix"; lit "docs"; lit "test"; lit "chore"; lit "feat"].

(** The statistics line of the body, when there is one. *)
Definition stat_lines (stat : str) : list str :=
  if Py.is_empty stat then [] else [lit "- 统计：" ++ stat].

(** Scenario: thirteen modified files, a hint of blanks. *)
Definition thirteen_world : World :=
  repo_world
    (stream (map (fun n => Ordinary (blit "M") (backend_file n)) (seq 1 13)))
    [] [].

Definition blank_hint_args : Args :=
  {| cached := true; worktree := false; hint := Some (lit "   "); json := false |}.

(** The inner scoring loop of [_infer_object], for one keyword. *)
Definition score_items (needle zh : str) (items : list (str * str))
  (score : list (str * Z)) : list (str * Z) :=
  fold_left
    (fun score (item : str * str) =>
       let (path, status) := item in
       if Py.contains N.eqb needle path
       then Dict.set score zh (Dict.get score zh 0 + weight status)%Z
       else score)
    items score.

(** The outer scoring loop of [_infer_object]. *)
Definition score_keywords (kws : list (str * str)) (items : list (str * str))
  (score : list (str * Z)) : list (str * Z) :=
  fold_left
    (fun score (kw : str * str) =>
       let (needle, zh) := kw in score_items needle zh items score)
    kws score.

(** Scenario: a new "about" page next to many modified player files. *)
Definition about_changes : list ChangedFile :=
  [ {| status := lit "M"; path := lit "app/player/controls.tsx" |};
    {| status := lit "M"; path := lit "app/player/queue.tsx" |};
    {| status := lit "A"; path := lit "app/pages/About.tsx" |};
    {| status := lit "M"; path := lit "app/player/index.tsx" |} ].

(** Directory names and file-name endings that [_is_test_only] looks for. *)
Definition test_dir_names : list str :=
  [lit "test"; lit "tests"; lit "__tests__"].

Definition js_test_suffixes : list str :=
  [ lit ".spec.ts"; lit ".spec.tsx"; lit ".spec.js"; lit ".spec.jsx";
    lit ".test.ts"; lit ".test.tsx"; lit ".test.js"; lit ".test.jsx" ].

(** [p] counts as a test file by its location or by its name. *)
Definition looks_like_test (p : str) : Prop :=
  (exists name, In name test_dir_names /\ In name (Py.split N.eqb SLASH p))
  \/ Py.endswith N.eqb p (lit "_test.go") = true
  \/ (exists suffix, In suffix js_test_suffixes
                     /\ Py.endswith N.eqb p suffix = true).

(** [p] is a file of the allow-list, at the top or in any directory, or
    lies under [.github/] or [.vscode/]. *)
Definition looks_like_chore (p : str) : Prop :=
  (exists name, In name chore_allow
                /\ (p = name \/ exists dir, p = dir ++ SLASH :: name))
  \/ Py.startswith N.eqb p (lit ".github/") = true
  \/ Py.startswith N.eqb p (lit ".vscode/") = true.

(** * auto_commit.py: stage, suggest, commit

    A shallow embedding of [skills/git-commit-auto/scripts/auto_commit.py],
    the caller of the suggestion script. Its child processes change the
    repository, so the machine state is threaded through: [exec] runs one
    child process in a state and leaves a state, and the run records the
    argument vectors it executed. *)

Module AutoCommit.

(** What the script can raise: [CalledProcessError] of [check_output] and
    [check_call], [SystemExit], whatever [json.loads] or the lookup of
    ["subject"] raise on the output of the suggestion script, and
    [UnicodeEncodeError] of a [print] to [sys.stdout]. *)
Inductive raised : Type :=
| CalledProcess (returncode : Z) (cmd : list str)
| Exit (code : Z)
| BadSuggestion (out : str)
| UnicodeEncode.

Inductive outcome (A : Type) : Type :=
| Done (a : A)
| Raised (r : raised).
Arguments Done {A} a.
Arguments Raised {A} r.

(** [--stage], restricted by [argparse] to its three choices. *)
Inductive Stage : Type := StageAuto | StageAll | StageNone.

Record Args : Type := {
  stage : Stage;
  hint : option str;
  dry_run : bool;
  yes : bool
}.

Section Script.

(** The state of the file system and the repository. *)
Variable Sys : Type.

(** [exec s cwd argv] runs the child process [argv] (in directory [cwd] when
    given): its exit status, the output a capturing call receives, and the
    state it leaves. *)
Variable exec : Sys -> option str -> list str -> Z * bytes * Sys.

(** [os.getcwd()] *)
Variable getcwd : Sys -> str.

(** [os.path.join(os.path.dirname(__file__), "suggest_commit_message.py")] *)
Variable script_path : str.

(** [json.loads(out)] followed by [data["subject"], data.get("body", "") or ""];
    [None] when one of them raises. *)
Variable json_suggestion : str -> option (str * str).

(** Whether the codec of [sys.stdout] can encode the text of a print. *)
Variable stdout_encodes : printed -> bool.

(** A run: the current state, the argument vectors executed so far and what
    was printed. *)
Record Run : Type := {
  sys : Sys;
  trace : list (list str);
  output : list event
}.

Definition M (A : Type) : Type := Run -> outcome A * Run.

Definition ret {A} (a : A) : M A := fun r => (Done a, r).

Definition throw {A} (e : raised) : M A := fun r => (Raised e, r).

Definition bind {A B} (m : M A) (k : A -> M B) : M B :=
  fun r =>
    match m r with
    | (Done a, r') => k a r'
    | (Raised e, r') => (Raised e, r')
    end.

Definition emit (ev : event) : M unit :=
  fun r => (Done tt, {| sys := sys r; trace := trace r;
                        output := output r ++ [ev] |}).

(** [print(s)] writes nothing and raises when [sys.stdout] cannot encode
    [s]; [sys.stderr] escapes what it cannot encode. *)
Definition print (s : str) : M unit :=
  if stdout_encodes (Text s) then emit (Stdout (Text s))
  else throw UnicodeEncode.

Definition eprint (s : str) : M unit := emit (Stderr (Text s)).

(** One child process. *)
Definition spawn (cwd : option str) (argv : list str) : M (Z * bytes) :=
  fun r =>
    let '(code, out, s') := exec (sys r) cwd argv in
    (Done (code, out),
     {| sys := s'; trace := trace r ++ [argv]; output := output r |}).

(** [subprocess.check_output(argv, cwd=cwd)] *)
Definition check_output (cwd : option str) (argv : list str) : M bytes :=
  bind (spawn cwd argv)
       (fun res => if (fst res =? 0)%Z then ret (snd res)
                   else throw (CalledProcess (fst res) argv)).

(** [subprocess.check_call(argv)] *)
Definition check_call (argv : list str) : M unit :=
  bind (spawn None argv)
       (fun res => if (fst res =? 0)%Z then ret tt
                   else throw (CalledProcess (fst res) argv)).

Definition _git (repo_root : str) (args : list str) : M str :=
  bind (check_output None ([lit "git"; lit "-C"; repo_root] ++ args))
       (fun out => ret (Py.strip (Utf8.decode out))).

(** [except Exception]: every exception of the script but [SystemExit]. *)
Definition _repo_root : M str :=
  fun r =>
    match _git (getcwd (sys r)) [lit "rev-parse"; lit "--show-toplevel"] r with
    | (Raised (Exit code), r') => (Raised (Exit code), r')
    | (Raised _, r') =>
        bind (eprint (lit "not a git repo")) (fun _ => throw (Exit 2)) r'
    | (Done root, r') => (Done root, r')
    end.

Definition _has_staged (repo_root : str) : M bool :=
  bind (_git repo_root [lit "diff"; lit "--cached"; lit "--name-only"])
       (fun out => ret (negb (Py.is_empty (Py.strip out)))).

Definition suggest_cmd (hint : option str) : list str :=
  [lit "python3"; script_path; lit "--cached"; lit "--json"]
  ++ (if truthy hint
      then [lit "--hint"; match hint with Some h => h | None => [] end]
      else []).

Definition _suggest (repo_root : str) (hint : option str) : M (str * str) :=
  bind (check_output (Some repo_root) (suggest_cmd hint))
       (fun out =>
          let text := Utf8.decode out in
          match json_suggestion text with
          | Some data => ret data
          | None => throw (BadSuggestion text)
          end).

Definition add_cmd (repo_root : str) : list str :=
  [lit "git"; lit "-C"; repo_root; lit "add"; lit "-A"].

Definition commit_cmd (repo_root subject body : str) : list str :=
  [lit "git"; lit "-C"; repo_root; lit "commit"; lit "-m"; subject]
  ++ (if Py.is_empty body then [] else [lit "-m"; body]).

Definition main (args : Args) : M Z :=
  bind _repo_root (fun repo_root =>
  bind (_has_staged repo_root) (fun staged =>
  match staged, stage args with
  | false, StageNone =>
      bind (eprint (lit "no staged changes; pass --stage all/auto or stage manually"))
           (fun _ => ret 3%Z)
  | _, _ =>
      bind (if staged then ret tt else check_call (add_cmd repo_root)) (fun _ =>
      bind (_has_staged repo_root) (fun staged' =>
      if negb staged' then
        bind (eprint (lit "nothing to commit")) (fun _ => ret 4%Z)
      else
        bind (_suggest repo_root (hint args)) (fun suggestion =>
        let (subject, body) := suggestion in
        bind (print (lit "subject: " ++ subject)) (fun _ =>
        bind (if Py.is_empty body then ret tt
              else bind (print (lit "body:")) (fun _ => print body)) (fun _ =>
        if dry_run args then ret 0%Z
        else if negb (yes args) then
          bind (eprint ([NEWLINE] ++ lit "pass --yes to execute git commit"))
               (fun _ => ret 5%Z)
        else
          bind (check_call (commit_cmd repo_root subject body))
               (fun _ => ret 0%Z))))))
  end)).

(** The script from a fresh start. *)
Definition script (args : Args) (s : Sys) : outcome Z * Run :=
  main args {| sys := s; trace := []; output := [] |}.

(** ** The shapes of a run *)

(** The run after the child process [argv] has left the state [s']. *)
Definition ran (r : Run) (s' : Sys) (argv : list str) : Run :=
  {| sys := s'; trace := trace r ++ [argv]; output := output r |}.

(** The run after [ev] was printed. *)
Definition said (r : Run) (ev : event) : Run :=
  {| sys := sys r; trace := trace r; output := output r ++ [ev] |}.

Definition rev_parse_cmd (cwd : str) : list str :=
  [lit "git"; lit "-C"; cwd; lit "rev-parse"; lit "--show-toplevel"].

Definition diff_cmd (repo_root : str) : list str :=
  [lit "git"; lit "-C"; repo_root; lit "diff"; lit "--cached"; lit "--name-only"].

(** What the script prints of a suggestion. *)
Definition shown (subject body : str) : list event :=
  Stdout (Text (lit "subject: " ++ subject))
  :: (if Py.is_empty body then []
      else [Stdout (Text (lit "body:")); Stdout (Text body)]).

(** The prints of a suggestion, in order. *)
Definition to_print (subject body : str) : list printed :=
  Text (lit "subject: " ++ subject)
  :: (if Py.is_empty body then [] else [Text (lit "body:"); Text body]).

(** The commands up to the second look at the index: the first look found
    staged changes, or found none and [git add -A] was run. *)
Inductive staging (args : Args) (cwd repo_root : str)
  : list (list str) -> Prop :=
| AlreadyStaged :
    staging args cwd repo_root [rev_parse_cmd cwd; diff_cmd repo_root]
| StagedNow :
    stage args <> StageNone ->
    staging args cwd repo_root
      [rev_parse_cmd cwd; diff_cmd repo_root; add_cmd repo_root].

(** Outcome, executed commands and output of a run. *)
Inductive shape (args : Args)
  : outcome Z -> list (list str) -> list event -> Prop :=
| NotARepo cwd :
    shape args (Raised (Exit 2)) [rev_parse_cmd cwd]
      [Stderr (Text (lit "not a git repo"))]
| FirstDiffFails cwd root code :
    code <> 0%Z ->
    shape args (Raised (CalledProcess code (diff_cmd root)))
      [rev_parse_cmd cwd; diff_cmd root] []
| NothingStaged cwd root :
    stage args = StageNone ->
    shape args (Done 3%Z) [rev_parse_cmd cwd; diff_cmd root]
      [Stderr (Text (lit "no staged changes; pass --stage all/auto or stage manually"))]
| AddFails cwd root code :
    stage args <> StageNone -> code <> 0%Z ->
    shape args (Raised (CalledProcess code (add_cmd root)))
      [rev_parse_cmd cwd; diff_cmd root; add_cmd root] []
| SecondDiffFails cwd root pre code :
    staging args cwd root pre -> code <> 0%Z ->
    shape args (Raised (CalledProcess code (diff_cmd root)))
      (pre ++ [diff_cmd root]) []
| NothingToCommit cwd root pre :
    staging args cwd root pre ->
    shape args (Done 4%Z) (pre ++ [diff_cmd root])
      [Stderr (Text (lit "nothing to commit"))]
| SuggestFails cwd root pre code :
    staging args cwd root pre -> code <> 0%Z ->
    shape args (Raised (CalledProcess code (suggest_cmd (hint args))))
      (pre ++ [diff_cmd root; suggest_cmd (hint args)]) []
| SuggestionUnreadable cwd root pre text :
    staging args cwd root pre ->
    json_suggestion text = None ->
    shape args (Raised (BadSuggestion text))
      (pre ++ [diff_cmd root; suggest_cmd (hint args)]) []
| PrintFails cwd root pre text subject body :
    staging args cwd root pre ->
    json_suggestion text = Some (subject, body) ->
    forallb stdout_encodes (to_print subject body) = false ->
    shape args (Raised UnicodeEncode)
      (pre ++ [diff_cmd root; suggest_cmd (hint args)])
      (map Stdout (written stdout_encodes (to_print subject body)))
| DryRun cwd root pre text subject body :
    staging args cwd root pre ->
    json_suggestion text = Some (subject, body) ->
    forallb stdout_encodes (to_print subject body) = true ->
    dry_run args = true ->
    shape args (Done 0%Z)
      (pre ++ [diff_cmd root; suggest_cmd (hint args)]) (shown subject body)
| Unconfirmed cwd root pre text subject body :
    staging args cwd root pre ->
    json_suggestion text = Some (subject, body) ->
    forallb stdout_encodes (to_print subject body) = true ->
    dry_run args = false -> yes args = false ->
    shape args (Done 5%Z)
      (pre ++ [diff_cmd root; suggest_cmd (hint args)])
      (shown subject body
       ++ [Stderr (Text ([NEWLINE] ++ lit "pass --yes to execute git commit"))])
| Committed cwd root pre text subject body :
    staging args cwd root pre ->
    json_suggestion text = Some (subject, body) ->
    forallb stdout_encodes (to_print subject body) = true ->
    dry_run args = false -> yes args = true ->
    shape args (Done 0%Z)
      (pre ++ [diff_cmd root; suggest_cmd (hint args);
               commit_cmd root subject body])
      (shown subject body)
| CommitFails cwd root pre text subject body code :
    staging args cwd root pre ->
    json_suggestion text = Some (subject, body) ->
    forallb stdout_encodes (to_print subject body) = true ->
    dry_run args = false -> yes args = true -> code <> 0%Z ->
    shape args (Raised (CalledProcess code (commit_cmd root subject body)))
      (pre ++ [diff_cmd root; suggest_cmd (hint args);
               commit_cmd root subject body])
      (shown subject body).

End Script.

(** [argv] is a [git -C <root> commit ...] command. *)
Definition is_commit (argv : list str) : bool :=
  match argv with
  | g :: _ :: _ :: sub :: _ => str_eqb g (lit "git") && str_eqb sub (lit "commit")
  | _ => false
  end.

(** [argv] is a [git -C <root> add ...] command. *)
Definition is_add (argv : list str) : bool :=
  match argv with
  | g :: _ :: _ :: sub :: _ => str_eqb g (lit "git") && str_eqb sub (lit "add")
  | _ => false
  end.

(** The status with which the interpreter leaves [raise SystemExit(main())]. *)
Definition exit_status (o : outcome Z) : Z :=
  match o with
  | Done code => code
  | Raised (Exit code) => code
  | Raised _ => 1%Z
  end.

(** A small repository for the examples: whether something is staged,
    whether the working tree has changes, and the commits made. *)
Record Repo : Type := {
  staged : bool;
  dirty : bool;
  commits : list (list str)
}.

Definition quoted (s : bytes) : bytes := [x22] ++ s ++ [x22].

(** What the suggester prints for the example repository. *)
Definition suggestion_json : bytes :=
  blit "{" ++ quoted (blit "subject") ++ blit ": "
  ++ quoted (blit "feat: update app") ++ blit ", "
  ++ quoted (blit "body") ++ blit ": "
  ++ quoted (blit "- M src/app.py") ++ blit "}".

Definition repo_exec (s : Repo) (cwd : option str) (argv : list str)
  : Z * bytes * Repo :=
  if has_arg (lit "rev-parse") argv then (0%Z, blit "/work/repo" ++ [x0a], s)
  else if has_arg (lit "--name-only") argv then
    (0%Z, if staged s then blit "src/app.py" ++ [x0a] else [], s)
  else if is_add argv then
    (0%Z, [], {| staged := staged s || dirty s; dirty := false;
                 commits := commits s |})
  else if has_arg (lit "--json") argv then
    (0%Z, suggestion_json ++ [x0a], s)
  else if is_commit argv then
    (0%Z, [], {| staged := false; dirty := dirty s;
                 commits := commits s ++ [argv] |})
  else (1%Z, [], s).

(** [json.loads] and the two field reads, on the one text of the examples. *)
Definition repo_suggestion (out : str) : option (str * str) :=
  if str_eqb out (Utf8.decode (suggestion_json ++ [x0a]))
  then Some (lit "feat: update app", lit "- M src/app.py")
  else None.

Definition dirty_repo : Repo :=
  {| staged := false; dirty := true; commits := [] |}.

(** The script in the example repository, started in a subdirectory. *)
Definition demo (args : Args) : outcome Z * Run Repo :=
  script repo_exec (fun _ => lit "/work/repo/src")
    (lit "/skills/suggest_commit_message.py") repo_suggestion utf8_stdout
    args dirty_repo.

Definition confirmed_args : Args :=
  {| stage := StageAuto; hint := None; dry_run := false; yes := true |}.

Definition stage_none_args : Args :=
  {| stage := StageNone; hint := None; dry_run := false; yes := true |}.

End AutoCommit.

(** * Properties *)

(** Replaces the string literals of the goal by their code points. *)
Ltac eval_lits :=
  repeat match goal with
         | |- context [lit ?s] =>
             let v := eval vm_compute in (lit s) in
             change (lit s) with v
         end.

(** ** The model on small inputs *)

Example decode_chinese : lit "修复" = [0x4FEE; 0x590D]%N.
Proof. vm_compute. reflexivity. Qed.

Example decode_invalid_start :
  Utf8.decode (blit "a" ++ [xff] ++ blit "b") = [0x61; 0xFFFD; 0x62]%N.
Proof. vm_compute. reflexivity. Qed.

Example decode_cut_sequence :
  Utf8.decode [xe4; xbf] = [0xFFFD]%N
  /\ Utf8.decode ([xe4; xbf] ++ blit "A") = [0xFFFD; 0x41]%N.
Proof. split; vm_compute; reflexivity. Qed.

Example split_slashes :
  Py.split N.eqb SLASH (lit "a/b//c") = [lit "a"; lit "b"; lit ""; lit "c"]
  /\ Py.split1 N.eqb SLASH (lit "a/b//c") = [lit "a"; lit "b//c"]
  /\ Py.split1 N.eqb SLASH (lit "abc") = [lit "abc"]
  /\ Py.split N.eqb SLASH (lit "") = [lit ""].
Proof. repeat (split; [vm_compute; reflexivity |]). vm_compute. reflexivity. Qed.

Example replace_words :
  Py.replace (lit "新增登录功能") (lit "功能") (lit "") = lit "新增登录"
  /\ Py.replace (lit "aaa") (lit "aa") (lit "x") = lit "xa".
Proof. split; vm_compute; reflexivity. Qed.

Example strip_blanks : Py.strip (lit "  fix the bug ") = lit "fix the bug".
Proof. vm_compute. reflexivity. Qed.

Example parse_z_pairs_sample :
  _parse_z_pairs (nul_terminated [blit "M"; blit "a.txt"])
  = [lit "M"; lit "a.txt"]
  /\ _parse_z_pairs (blit "M" ++ [NUL] ++ blit "a.txt") = [lit "M"; lit "a.txt"]
  /\ _parse_z_pairs [] = [].
Proof. repeat (split; [vm_compute; reflexivity |]). vm_compute. reflexivity. Qed.

Example test_only_paths :
  _is_test_only [lit "src/tests/a.py"; lit "pkg/a_test.go"; lit "ui/x.spec.tsx";
                 lit "__tests__/y.js"; lit "test"] = true
  /\ _is_test_only [lit "src/contest/a.py"] = false
  /\ _is_test_only [lit "latest/x"] = false
  /\ _is_test_only [lit "a/testsuite/x"] = false
  /\ _is_test_only [] = false.
Proof. repeat (split; [vm_compute; reflexivity |]). vm_compute. reflexivity. Qed.

Example chore_only_paths :
  _is_chore_only [lit "web/package.json"; lit ".github/workflows/ci.yml";
                  lit "cfg/.eslintrc.yaml"] = true
  /\ _is_chore_only [lit "cfg/deploy.yaml"] = false.
Proof. split; vm_compute; reflexivity. Qed.

Example action_precedence :
  _infer_action [lit "M"; lit "D"; lit "A"] = lit "新增"
  /\ _infer_action [lit "M"; lit "D"] = lit "移除"
  /\ _infer_action [lit "M"] = lit "更新".
Proof. repeat (split; [vm_compute; reflexivity |]). vm_compute. reflexivity. Qed.

Example main_on_login_world :
  main Py.ascii_lower utf8_stdout login_world plain_args
  = ([ Stdout (Text (lit "subject: feat: 新增登录功能"));
       Stdout (Text (lit "body:"));
       Stdout (Text (lit "- 统计：1 file changed, 42 insertions(+)"
                     ++ [NEWLINE] ++ lit "- A mobile-app/auth/login.tsx")) ],
     Ok 0%Z).
Proof. vm_compute. reflexivity. Qed.

(** ** Generic list facts *)

Lemma last_cons_default {A} (l : list A) (x d : A) :
  last (x :: l) d = last l x.
Proof.
  revert x d; induction l as [| y l IH]; intros x d; [reflexivity |].
  change (last (x :: y :: l) d) with (last (y :: l) d).
  rewrite IH. symmetry. apply IH.
Qed.

Lemma nth_error_middle {A} (pre : list A) (x : A) (post : list A) :
  nth_error (pre ++ x :: post) (length pre) = Some x.
Proof. induction pre; simpl; auto. Qed.

Lemma index_middle {A} (pre : list A) (x : A) (post : list A) :
  Py.index (pre ++ x :: post) (length pre) = Ok x.
Proof. unfold Py.index. rewrite nth_error_middle. reflexivity. Qed.

Lemma index_in_range {A} (xs : list A) (i : nat) :
  i < length xs -> exists x, Py.index xs i = Ok x /\ In x xs.
Proof.
  intros Hi. unfold Py.index.
  destruct (nth_error xs i) as [x |] eqn:E.
  - exists x. split; [reflexivity | eapply nth_error_In; eassumption].
  - apply nth_error_None in E. lia.
Qed.

(** ** The reader: splitting the stream *)

Lemma split_nul_field (f rest : bytes) :
  nul_free f = true ->
  Py.split Byte.eqb NUL (f ++ NUL :: rest) = f :: Py.split Byte.eqb NUL rest.
Proof.
  induction f as [| b f IH]; simpl; intros Hf.
  - reflexivity.
  - apply andb_prop in Hf. destruct Hf as [Hb Hf].
    apply negb_true_iff in Hb. rewrite Hb, (IH Hf). reflexivity.
Qed.

Lemma split_nul_none (f : bytes) :
  nul_free f = true -> Py.split Byte.eqb NUL f = [f].
Proof.
  induction f as [| b f IH]; simpl; intros Hf.
  - reflexivity.
  - apply andb_prop in Hf. destruct Hf as [Hb Hf].
    apply negb_true_iff in Hb. rewrite Hb, (IH Hf). reflexivity.
Qed.

Lemma split_nul_terminated (fs : list bytes) (rest : bytes) :
  forallb nul_free fs = true ->
  Py.split Byte.eqb NUL (nul_terminated fs ++ rest)
  = fs ++ Py.split Byte.eqb NUL rest.
Proof.
  induction fs as [| f fs IH]; simpl; intros H.
  - reflexivity.
  - apply andb_prop in H. destruct H as [Hf Hfs].
    rewrite <- !app_assoc. simpl.
    rewrite (split_nul_field _ _ Hf). fold (nul_terminated fs).
    rewrite (IH Hfs). reflexivity.
Qed.

Lemma nul_terminated_nil_inv (fs : list bytes) :
  nul_terminated fs = [] -> fs = [].
Proof.
  destruct fs as [| f fs]; [reflexivity |].
  simpl. destruct f; discriminate.
Qed.

Lemma parse_z_pairs_eq (data : bytes) :
  data <> [] ->
  _parse_z_pairs data
  = map Utf8.decode (drop_empty_tail (Py.split Byte.eqb NUL data)).
Proof.
  intros Hne. unfold _parse_z_pairs, drop_empty_tail.
  destruct data; [congruence | reflexivity].
Qed.

Lemma drop_empty_tail_snoc_nil (fs : list bytes) :
  drop_empty_tail (fs ++ [[]]) = fs.
Proof.
  unfold drop_empty_tail.
  destruct (fs ++ [[]]) as [| p0 ps] eqn:E.
  - destruct fs; discriminate.
  - rewrite <- (last_cons_default ps p0 []), <- E, last_last. simpl.
    apply removelast_last.
Qed.

Lemma drop_empty_tail_snoc_full (fs : list bytes) (f : bytes) :
  f <> [] -> drop_empty_tail (fs ++ [f]) = fs ++ [f].
Proof.
  intros Hf. unfold drop_empty_tail.
  destruct (fs ++ [f]) as [| p0 ps] eqn:E.
  - reflexivity.
  - rewrite <- (last_cons_default ps p0 []), <- E, last_last.
    destruct f; [congruence | reflexivity].
Qed.

Lemma parse_z_pairs_stream (fs : list bytes) :
  forallb nul_free fs = true ->
  _parse_z_pairs (nul_terminated fs) = map Utf8.decode fs.
Proof.
  intros Hfs.
  destruct fs as [| f fs'] eqn:Efs; [reflexivity |]. rewrite <- Efs in *.
  rewrite parse_z_pairs_eq.
  - rewrite <- (app_nil_r (nul_terminated fs)).
    rewrite split_nul_terminated by assumption. simpl.
    rewrite drop_empty_tail_snoc_nil. reflexivity.
  - intros E. apply nul_terminated_nil_inv in E. congruence.
Qed.

(** ** The reader: the field cursor *)

Lemma changed_loop_body (parts : list str) (i : nat) (changed : list ChangedFile) :
  changed_loop parts i changed =
  if i <? length parts then
    let? status := Py.index parts i in
    if Py.is_empty status then changed_loop parts (i + 1) changed
    else if is_rename_or_copy status then
      if length parts <=? i + 2 then Ok changed
      else
        let? new_path := Py.index parts (i + 2) in
        changed_loop parts (i + 3)
          (changed ++ [{| status := Py.slice_to status 1; path := new_path |}])
    else
      if length parts <=? i + 1 then Ok changed
      else
        let? p := Py.index parts (i + 1) in
        changed_loop parts (i + 2)
          (changed ++ [{| status := Py.slice_to status 1; path := p |}])
  else Ok changed.
Proof.
  rewrite changed_loop_equation_1.
  destruct (lt_dec i (length parts)) as [Hlt | Hge]; cbn [changed_loop_unfold_clause_1].
  - apply Nat.ltb_lt in Hlt. rewrite Hlt. reflexivity.
  - apply Nat.ltb_nlt in Hge. rewrite Hge. reflexivity.
Qed.

Lemma changed_loop_done (parts : list str) (changed : list ChangedFile) :
  changed_loop parts (length parts) changed = Ok changed.
Proof. rewrite changed_loop_body, Nat.ltb_irrefl. reflexivity. Qed.

Lemma index_app_r {A} (pre l : list A) (k : nat) :
  Py.index (pre ++ l) (length pre + k) = Py.index l k.
Proof.
  unfold Py.index. rewrite nth_error_app2 by lia.
  replace (length pre + k - length pre) with k by lia. reflexivity.
Qed.

Lemma decode_first_ascii (st : bytes) :
  first_is_ascii st = true ->
  exists b rest, st = b :: rest
                 /\ Utf8.decode st = Byte.to_N b :: Utf8.decode rest.
Proof.
  destruct st as [| b rest]; simpl; [discriminate |].
  intros H. exists b, rest. rewrite H. split; reflexivity.
Qed.

Lemma byte_is_R (b : byte) : (Byte.to_N b =? 0x52)%N = Byte.eqb b "R"%byte.
Proof. destruct b; reflexivity. Qed.

Lemma byte_is_C (b : byte) : (Byte.to_N b =? 0x43)%N = Byte.eqb b "C"%byte.
Proof. destruct b; reflexivity. Qed.

Lemma is_rename_or_copy_cons (c : char) (s : str) :
  is_rename_or_copy (c :: s) = ((c =? 0x52)%N || (c =? 0x43)%N).
Proof.
  unfold is_rename_or_copy. cbn. destruct s; cbn; rewrite !andb_true_r; reflexivity.
Qed.

(** What the loop sees of a status field whose first byte is ASCII. *)
Lemma status_view (st : bytes) :
  first_is_ascii st = true ->
  Py.is_empty (Utf8.decode st) = false
  /\ is_rename_or_copy (Utf8.decode st) = first_is_RC st
  /\ Py.slice_to (Utf8.decode st) 1 = first_letter st.
Proof.
  intros H. destruct (decode_first_ascii st H) as (b & rest & -> & ->).
  split; [reflexivity |]. split.
  - rewrite is_rename_or_copy_cons, byte_is_R, byte_is_C. reflexivity.
  - reflexivity.
Qed.

(** One complete record moves the cursor by the number of its fields and
    appends its [ChangedFile]. *)
Lemma changed_loop_record (pre : list str) (r : record) (post : list str)
  (changed : list ChangedFile) :
  well_formed r = true ->
  changed_loop (pre ++ map Utf8.decode (fields r) ++ post) (length pre) changed
  = changed_loop (pre ++ map Utf8.decode (fields r) ++ post)
      (length pre + length (fields r)) (changed ++ [changed_file_of r]).
Proof.
  intros Hwf.
  etransitivity; [apply changed_loop_body |].
  destruct r as [st p | st old new]; simpl in Hwf |- *;
    repeat (apply andb_prop in Hwf; destruct Hwf as [Hwf ?]).
  - apply negb_true_iff in H1.
    destruct (status_view st Hwf) as (Hne & Hrc & Hsl).
    rewrite !length_app. simpl length.
    replace (length pre <? _) with true by (symmetry; apply Nat.ltb_lt; lia).
    rewrite index_middle. cbv beta iota. rewrite Hne, Hrc, H1, Hsl.
    replace (_ <=? _) with false by (symmetry; apply Nat.leb_gt; lia).
    rewrite index_app_r. reflexivity.
  - destruct (status_view st Hwf) as (Hne & Hrc & Hsl).
    rewrite !length_app. simpl length.
    replace (length pre <? _) with true by (symmetry; apply Nat.ltb_lt; lia).
    rewrite index_middle. cbv beta iota. rewrite Hne, Hrc, H2, Hsl.
    replace (_ <=? _) with false by (symmetry; apply Nat.leb_gt; lia).
    rewrite index_app_r. reflexivity.
Qed.

Lemma changed_loop_records (rs : list record) :
  forall (pre post : list str) (changed : list ChangedFile),
  forallb well_formed rs = true ->
  changed_loop (pre ++ map Utf8.decode (flat_map fields rs) ++ post)
    (length pre) changed
  = changed_loop (pre ++ map Utf8.decode (flat_map fields rs) ++ post)
      (length pre + length (flat_map fields rs))
      (changed ++ map changed_file_of rs).
Proof.
  induction rs as [| r rs IH]; intros pre post changed Hwf.
  - simpl. rewrite Nat.add_0_r, app_nil_r. reflexivity.
  - simpl in Hwf. apply andb_prop in Hwf. destruct Hwf as [Hr Hrs].
    cbn [flat_map map]. rewrite map_app, <- app_assoc.
    rewrite (changed_loop_record pre r _ changed Hr).
    specialize (IH (pre ++ map Utf8.decode (fields r)) post
                  (changed ++ [changed_file_of r]) Hrs).
    rewrite <- !app_assoc in IH. rewrite length_app, length_map in IH.
    rewrite IH, length_app, Nat.add_assoc. reflexivity.
Qed.

(** The loop returns from every cursor position, and every path it reports
    is one of the fields. *)
Lemma changed_loop_total (n : nat) :
  forall (parts : list str) (i : nat) (changed : list ChangedFile),
  length parts - i <= n ->
  exists out, changed_loop parts i changed = Ok out
              /\ forall c, In c out -> In c changed \/ In (path c) parts.
Proof.
  induction n as [| n IH]; intros parts i changed Hn;
    rewrite changed_loop_body.
  - replace (i <? length parts) with false by (symmetry; apply Nat.ltb_ge; lia).
    exists changed. split; [reflexivity | tauto].
  - destruct (Nat.ltb_spec i (length parts)) as [Hi | Hi];
      [| exists changed; split; [reflexivity | tauto]].
    destruct (index_in_range parts Hi) as (st & -> & _).
    destruct (Py.is_empty st).
    { apply IH. lia. }
    destruct (is_rename_or_copy st).
    + destruct (Nat.leb_spec (length parts) (i + 2)) as [H2 | H2];
        [exists changed; split; [reflexivity | tauto] |].
      destruct (index_in_range parts H2) as (p & -> & Hp).
      destruct (IH parts (i + 3)
                  (changed ++ [{| status := Py.slice_to st 1; path := p |}]))
        as (out & -> & Hout); [lia |].
      exists out. split; [reflexivity |].
      intros c Hc. destruct (Hout c Hc) as [Hin | Hin]; [| tauto].
      apply in_app_or in Hin. destruct Hin as [Hin | [<- | []]]; tauto.
    + destruct (Nat.leb_spec (length parts) (i + 1)) as [H1 | H1];
        [exists changed; split; [reflexivity | tauto] |].
      destruct (index_in_range parts H1) as (p & -> & Hp).
      destruct (IH parts (i + 2)
                  (changed ++ [{| status := Py.slice_to st 1; path := p |}]))
        as (out & -> & Hout); [lia |].
      exists out. split; [reflexivity |].
      intros c Hc. destruct (Hout c Hc) as [Hin | Hin]; [| tauto].
      apply in_app_or in Hin. destruct Hin as [Hin | [<- | []]]; tauto.
Qed.

Lemma well_formed_fields (rs : list record) :
  forallb well_formed rs = true ->
  forallb nul_free (flat_map fields rs) = true.
Proof.
  induction rs as [| r rs IH]; simpl; intros H; [reflexivity |].
  apply andb_prop in H. destruct H as [Hr Hrs].
  rewrite forallb_app, (IH Hrs), andb_true_r.
  destruct r; simpl in *;
    repeat (apply andb_prop in Hr; destruct Hr as [Hr ?]);
    repeat (apply andb_true_intro; split); auto.
Qed.

Lemma parse_changed_stream (rs : list record) :
  forallb well_formed rs = true ->
  parse_changed (stream rs) = Ok (map changed_file_of rs).
Proof.
  intros Hwf. unfold parse_changed, stream.
  rewrite parse_z_pairs_stream by (apply well_formed_fields; assumption).
  pose proof (changed_loop_records rs [] [] [] Hwf) as H.
  simpl in H. rewrite app_nil_r in H. rewrite H.
  rewrite <- (length_map Utf8.decode). apply changed_loop_done.
Qed.

(** A cut record leaves the complete fields and then its status, or its
    status and old path. *)
Lemma parse_z_pairs_cut (fs : list bytes) (t : partial_record) (terminated : bool) :
  forallb nul_free fs = true ->
  partial_ok t = true ->
  exists tl,
    _parse_z_pairs (nul_terminated fs ++ partial_bytes t terminated)
    = map Utf8.decode (fs ++ tl)
    /\ ((exists st, tl = [st] /\ first_is_ascii st = true)
        \/ (exists st old, tl = [st; old] /\ first_is_ascii st = true
                           /\ first_is_RC st = true)).
Proof.
  intros Hfs Hok.
  assert (Hsnoc : forall (a b : bytes), fs ++ [a; b] = (fs ++ [a]) ++ [b])
    by (intros; rewrite <- app_assoc; reflexivity).
  assert (Hsnoc3 : forall (a b c : bytes), fs ++ [a; b; c] = (fs ++ [a; b]) ++ [c])
    by (intros; rewrite <- app_assoc; reflexivity).
  rewrite parse_z_pairs_eq.
  2:{ intros E. apply app_eq_nil in E. destruct E as [_ E].
      unfold partial_bytes in E. apply app_eq_nil in E. destruct E as [E _].
      destruct t as [st | st old]; simpl in Hok, E;
        destruct st; simpl in *; discriminate. }
  rewrite split_nul_terminated by assumption.
  destruct t as [st | st old]; simpl in Hok;
    repeat (apply andb_prop in Hok; destruct Hok as [Hok ?]).
  - assert (Hne : st <> []) by (destruct st; [discriminate | congruence]).
    exists [st]. split; [| left; exists st; auto].
    f_equal. unfold partial_bytes. cbn [partial_fields Py.join].
    destruct terminated.
    + rewrite (split_nul_field st [] H). cbn [Py.split].
      rewrite Hsnoc. apply drop_empty_tail_snoc_nil.
    + rewrite app_nil_r, (split_nul_none st H).
      apply drop_empty_tail_snoc_full. assumption.
  - assert (Hne : st <> []) by (destruct st; [discriminate | congruence]).
    unfold partial_bytes. cbn [partial_fields Py.join].
    destruct terminated.
    + exists [st; old]. split; [| right; exists st, old; auto].
      f_equal. rewrite <- !app_assoc. cbn [app].
      rewrite (split_nul_field st _ H0), (split_nul_field old [] H).
      cbn [Py.split]. rewrite Hsnoc3. apply drop_empty_tail_snoc_nil.
    + rewrite app_nil_r. cbn [app].
      rewrite (split_nul_field st _ H0), (split_nul_none old H).
      destruct old as [| b old].
      * exists [st]. split; [| left; exists st; auto].
        f_equal. rewrite Hsnoc. apply drop_empty_tail_snoc_nil.
      * exists [st; b :: old]. split; [| right; exists st, (b :: old); auto].
        f_equal. rewrite Hsnoc. apply drop_empty_tail_snoc_full. discriminate.
Qed.

Lemma parse_changed_cut (rs : list record) (t : partial_record)
  (terminated : bool) :
  forallb well_formed rs = true ->
  partial_ok t = true ->
  parse_changed (stream rs ++ partial_bytes t terminated)
  = Ok (map changed_file_of rs).
Proof.
  intros Hwf Hok. unfold parse_changed, stream.
  destruct (parse_z_pairs_cut (flat_map fields rs) t terminated
              (well_formed_fields rs Hwf) Hok) as (tl & -> & Htl).
  rewrite map_app.
  pose proof (changed_loop_records rs [] (map Utf8.decode tl) [] Hwf) as H.
  simpl in H. rewrite H. clear H.
  rewrite changed_loop_body, length_app, !length_map.
  destruct Htl as [(st & -> & Ha) | (st & old & -> & Ha & Hrc)];
    destruct (status_view st Ha) as (Hne & Hrc' & _); simpl length.
  - replace (_ <? _) with true by (symmetry; apply Nat.ltb_lt; lia).
    rewrite <- (length_map Utf8.decode (flat_map fields rs)).
    rewrite <- (Nat.add_0_r (length (map _ _))) at 1.
    rewrite index_app_r. cbn [map Py.index nth_error].
    rewrite Hne. rewrite length_map.
    destruct (is_rename_or_copy (Utf8.decode st)).
    + replace (_ <=? _) with true by (symmetry; apply Nat.leb_le; lia).
      reflexivity.
    + replace (_ <=? _) with true by (symmetry; apply Nat.leb_le; lia).
      reflexivity.
  - replace (_ <? _) with true by (symmetry; apply Nat.ltb_lt; lia).
    rewrite <- (length_map Utf8.decode (flat_map fields rs)).
    rewrite <- (Nat.add_0_r (length (map _ _))) at 1.
    rewrite index_app_r. cbn [map Py.index nth_error].
    rewrite Hne, Hrc', Hrc. rewrite length_map.
    replace (_ <=? _) with true by (symmetry; apply Nat.leb_le; lia).
    reflexivity.
Qed.

(** ** Dictionaries *)

Lemma str_eqb_eq (a b : str) : str_eqb a b = true <-> a = b.
Proof.
  unfold str_eqb. destruct (str_eq_dec a b); split; congruence.
Qed.

Lemma str_eqb_neq (a b : str) : str_eqb a b = false <-> a <> b.
Proof.
  unfold str_eqb. destruct (str_eq_dec a b); split; congruence.
Qed.

Lemma tabulate_keys {V} (f : str -> V) (ks : list str) :
  map fst (tabulate f ks) = ks.
Proof.
  unfold tabulate. rewrite map_map. simpl. apply map_id.
Qed.

Lemma tabulate_in {V} (f : str -> V) (ks : list str) (k : str) (v : V) :
  In (k, v) (tabulate f ks) <-> In k ks /\ v = f k.
Proof.
  unfold tabulate. rewrite in_map_iff. split.
  - intros (k' & E & Hin). inversion E; subst. auto.
  - intros (Hin & ->). exists k. auto.
Qed.

Lemma get_other {V} (k s : str) (v d : V) (rest : list (str * V)) :
  k <> s -> Dict.get ((k, v) :: rest) s d = Dict.get rest s d.
Proof. intros H. simpl. apply str_eqb_neq in H. rewrite H. reflexivity. Qed.

Lemma get_tabulate_in {V} (f : str -> V) (ks : list str) (s : str) (d : V) :
  In s ks -> Dict.get (tabulate f ks) s d = f s.
Proof.
  induction ks as [| k ks IH]; simpl; intros Hin; [tauto |].
  destruct (str_eqb k s) eqn:E.
  - apply str_eqb_eq in E. congruence.
  - apply str_eqb_neq in E. apply IH. destruct Hin; congruence.
Qed.

Lemma get_tabulate_notin {V} (f : str -> V) (ks : list str) (s : str) (d : V) :
  ~ In s ks -> Dict.get (tabulate f ks) s d = d.
Proof.
  induction ks as [| k ks IH]; simpl; intros Hin; [reflexivity |].
  destruct (str_eqb k s) eqn:E.
  - apply str_eqb_eq in E. tauto.
  - apply IH. tauto.
Qed.

Lemma set_tabulate_in {V} (f g : str -> V) (ks : list str) (s : str) (v : V) :
  NoDup ks -> In s ks ->
  g s = v -> (forall k, In k ks -> k <> s -> g k = f k) ->
  Dict.set (tabulate f ks) s v = tabulate g ks.
Proof.
  induction ks as [| k ks IH]; simpl; intros Hnd Hin Hs Hother; [tauto |].
  inversion Hnd as [| ? ? Hk Hnd']; subst.
  destruct (str_eqb k s) eqn:E.
  - apply str_eqb_eq in E. subst k. f_equal.
    apply map_ext_in. intros k Hin'. f_equal. symmetry.
    apply Hother; [auto | congruence].
  - apply str_eqb_neq in E. f_equal.
    + f_equal. symmetry. apply Hother; auto.
    + apply IH; auto. destruct Hin; congruence.
Qed.

Lemma set_tabulate_notin {V} (f : str -> V) (ks : list str) (s : str) (v : V) :
  ~ In s ks -> Dict.set (tabulate f ks) s v = tabulate f ks ++ [(s, v)].
Proof.
  induction ks as [| k ks IH]; simpl; intros Hin; [reflexivity |].
  destruct (str_eqb k s) eqn:E.
  - apply str_eqb_eq in E. tauto.
  - f_equal. apply IH. tauto.
Qed.

(** [max] keeps the first of the greatest items. *)
Lemma max_scan_first (items : list (str * Z)) :
  forall best0 : str * Z,
  let best := Dict.max_scan best0 items in
  (best = best0 /\ forall x, In x items -> (snd x <= snd best0)%Z)
  \/ (exists a b, items = a ++ best :: b
                  /\ (snd best0 < snd best)%Z
                  /\ (forall x, In x a -> (snd x < snd best)%Z)
                  /\ (forall x, In x b -> (snd x <= snd best)%Z)).
Proof.
  induction items as [| it rest IH]; intros best0; simpl.
  - left. split; [reflexivity | tauto].
  - destruct (Z.ltb_spec (snd best0) (snd it)) as [Hlt | Hge].
    + right. destruct (IH it) as [[E Hle] | (a & b & E & Hlt' & Ha & Hb)].
      * exists [], rest. rewrite E. simpl. repeat split; auto; tauto.
      * exists (it :: a), b. rewrite E at 1. simpl.
        repeat split; [lia | | auto].
        intros x [<- | Hx]; [lia | auto].
    + destruct (IH best0) as [[E Hle] | (a & b & E & Hlt' & Ha & Hb)].
      * left. split; [assumption |]. intros x [<- | Hx]; [lia | auto].
      * right. exists (it :: a), b. rewrite E at 1. simpl.
        repeat split; [lia | | auto].
        intros x [<- | Hx]; [lia | auto].
Qed.

Lemma max_scan_split (first : str * Z) (rest : list (str * Z)) :
  let best := Dict.max_scan first rest in
  exists a b, first :: rest = a ++ best :: b
              /\ (forall x, In x a -> (snd x < snd best)%Z)
              /\ (forall x, In x b -> (snd x <= snd best)%Z).
Proof.
  simpl. destruct (max_scan_first rest first)
    as [[E Hle] | (a & b & E & Hlt & Ha & Hb)].
  - exists [], rest. rewrite E. simpl. repeat split; auto; tauto.
  - exists (first :: a), b. rewrite E at 1. simpl. repeat split; auto.
    intros x [<- | Hx]; auto.
Qed.

(** ** The dominant area *)

Lemma tally_tops_bump (paths : list str) :
  tally_tops paths = fold_left bump (map top_segment paths) [].
Proof.
  unfold tally_tops. generalize (@nil (str * Z)).
  induction paths as [| p paths IH]; intros acc; simpl; [reflexivity |].
  apply IH.
Qed.

Lemma firsts_snoc (l : list str) (s : str) :
  firsts (l ++ [s])
  = if in_dec str_eq_dec s (firsts l) then firsts l else firsts l ++ [s].
Proof. unfold firsts. rewrite fold_left_app. reflexivity. Qed.

Lemma firsts_in (l : list str) (k : str) : In k (firsts l) <-> In k l.
Proof.
  induction l as [| s l IH] using rev_ind; [reflexivity |].
  rewrite firsts_snoc, in_app_iff. simpl.
  destruct (in_dec str_eq_dec s (firsts l)) as [Hin | Hnin].
  - rewrite IH. split; [tauto |]. intros [H | [<- | []]]; [tauto |].
    apply IH. assumption.
  - rewrite in_app_iff, IH. simpl. tauto.
Qed.

Lemma firsts_nodup (l : list str) : NoDup (firsts l).
Proof.
  induction l as [| s l IH] using rev_ind; [constructor |].
  rewrite firsts_snoc.
  destruct (in_dec str_eq_dec s (firsts l)) as [Hin | Hnin]; [assumption |].
  apply NoDup_app; [assumption | repeat constructor; simpl; tauto |].
  intros x Hx [<- | []]. tauto.
Qed.

(** Whatever occurs before the first occurrence of a key is an earlier key. *)
Lemma firsts_order (l : list str) :
  forall a k b, firsts l = a ++ k :: b ->
  exists pre post, l = pre ++ k :: post /\ ~ In k pre
                   /\ forall x, In x pre -> In x a.
Proof.
  induction l as [| s l IH] using rev_ind; intros a k b E.
  - destruct a; discriminate.
  - rewrite firsts_snoc in E.
    destruct (in_dec str_eq_dec s (firsts l)) as [Hin | Hnin].
    + destruct (IH a k b E) as (pre & post & -> & Hk & Hpre).
      exists pre, (post ++ [s]). rewrite <- app_assoc. auto.
    + destruct b as [| y b _] using rev_ind.
      * apply app_inj_tail in E. destruct E as [<- <-].
        exists l, []. repeat split; auto.
        -- intros H. apply Hnin, firsts_in. assumption.
        -- intros x Hx. apply firsts_in. assumption.
      * change (a ++ k :: b ++ [y]) with (a ++ (k :: b) ++ [y]) in E.
        rewrite app_assoc in E. apply app_inj_tail in E. destruct E as [E <-].
        destruct (IH a k b E) as (pre & post & -> & Hk & Hpre).
        exists pre, (post ++ [s]). rewrite <- app_assoc. auto.
Qed.

Lemma count_snoc (k s : str) (l : list str) :
  count k (l ++ [s]) = (count k l + (if str_eq_dec s k then 1 else 0))%Z.
Proof.
  unfold count. rewrite count_occ_app. simpl.
  destruct (str_eq_dec s k); lia.
Qed.

Lemma count_zero (k : str) (l : list str) : ~ In k l -> count k l = 0%Z.
Proof.
  intros H. unfold count.
  apply (count_occ_not_In str_eq_dec) in H. rewrite H. reflexivity.
Qed.

Lemma count_nonneg (k : str) (l : list str) : (0 <= count k l)%Z.
Proof. unfold count. lia. Qed.

(** The tally holds, in first-occurrence order, the count of every segment. *)
Lemma tally_tabulate (segs : list str) :
  fold_left bump segs [] = tabulate (fun k => count k segs) (firsts segs).
Proof.
  induction segs as [| s l IH] using rev_ind; [reflexivity |].
  rewrite fold_left_app, firsts_snoc. simpl. rewrite IH. unfold bump.
  destruct (in_dec str_eq_dec s (firsts l)) as [Hin | Hnin].
  - rewrite get_tabulate_in by assumption.
    apply set_tabulate_in; auto using firsts_nodup.
    + rewrite count_snoc. destruct (str_eq_dec s s); [reflexivity | congruence].
    + intros k _ Hk. rewrite count_snoc.
      destruct (str_eq_dec s k); [congruence | lia].
  - rewrite get_tabulate_notin by assumption.
    rewrite set_tabulate_notin by assumption.
    unfold tabulate. rewrite map_app. simpl. f_equal.
    + apply map_ext_in. intros k Hk. f_equal. rewrite count_snoc.
      destruct (str_eq_dec s k); [subst; tauto | lia].
    + rewrite count_snoc, count_zero.
      * destruct (str_eq_dec s s); [reflexivity | congruence].
      * intros H. apply Hnin, firsts_in. assumption.
Qed.

Lemma tally_max_is_plurality (segs : list str) (first : str * Z)
  (rest : list (str * Z)) :
  fold_left bump segs [] = first :: rest ->
  plurality_first (fst (Dict.max_scan first rest)) segs.
Proof.
  intros E. rewrite tally_tabulate in E.
  destruct (max_scan_split first rest) as (a & b & Esplit & Ha & Hb).
  remember (Dict.max_scan first rest) as best eqn:Ebest. clear Ebest.
  destruct best as [top v]. simpl in *.
  rewrite <- E in Esplit.
  assert (Hkeys : firsts segs = map fst a ++ top :: map fst b).
  { rewrite <- (tabulate_keys (fun k => count k segs) (firsts segs)), Esplit.
    rewrite map_app. reflexivity. }
  assert (Hval : forall k w, In (k, w) (a ++ (top, v) :: b) ->
                             In k segs /\ w = count k segs).
  { intros k w H. rewrite <- Esplit in H. apply tabulate_in in H.
    rewrite firsts_in in H. assumption. }
  assert (Hv : v = count top segs).
  { apply (Hval top v). apply in_elt. }
  destruct (firsts_order segs _ _ _ Hkeys) as (pre & post & Esegs & Htop & Hpre).
  exists pre, post. repeat split; auto.
  - intros s Hs. apply Hpre in Hs. apply in_map_iff in Hs.
    destruct Hs as ([k w] & <- & Hin). simpl.
    specialize (Ha _ Hin). simpl in Ha.
    destruct (Hval k w) as [_ ->]; [apply in_or_app; auto | lia].
  - intros s. destruct (in_dec str_eq_dec s segs) as [Hin | Hnin].
    + apply firsts_in in Hin.
      assert (Hi : In (s, count s segs) (a ++ (top, v) :: b)).
      { rewrite <- Esplit. apply tabulate_in. auto. }
      apply in_app_or in Hi. destruct Hi as [Hi | [Hi | Hi]].
      * specialize (Ha _ Hi). simpl in Ha. lia.
      * inversion Hi; subst. lia.
      * specialize (Hb _ Hi). simpl in Hb. lia.
    + rewrite (count_zero _ _ Hnin). rewrite <- Hv.
      subst v. apply count_nonneg.
Qed.

Lemma contains_slash (p : str) :
  Py.contains N.eqb (lit "/") p = existsb (fun c => (c =? SLASH)%N) p.
Proof.
  induction p as [| c p IH]; [reflexivity |].
  cbn [Py.contains existsb]. rewrite IH. f_equal.
  change (lit "/") with [SLASH]. cbn [Py.startswith].
  destruct p; cbn; apply andb_true_r.
Qed.

Lemma top_segment_spec (p : str) : top_segment p = before_first SLASH p.
Proof.
  unfold top_segment. rewrite contains_slash.
  induction p as [| c p IH]; [reflexivity |].
  cbn [existsb Py.split1 before_first].
  destruct (c =? SLASH)%N eqn:Ec; [reflexivity |]. cbn [orb].
  destruct (existsb _ p) eqn:Ex.
  - rewrite <- IH. destruct (Py.split1 N.eqb SLASH p) eqn:Es; [| reflexivity].
    destruct p; simpl in Es; [discriminate |].
    destruct (_ =? _)%N; [discriminate |].
    destruct (Py.split1 N.eqb SLASH p); discriminate.
  - rewrite <- IH. reflexivity.
Qed.

(** ** The subject line *)

Lemma slice_to_length {A} (s : list A) (k : Z) :
  (0 <= k)%Z -> (Z.of_nat (length (Py.slice_to s k)) <= k)%Z.
Proof.
  intros Hk. unfold Py.slice_to.
  destruct (Z.ltb_spec k 0) as [Hneg | _]; [lia |].
  pose proof (firstn_le_length (Z.to_nat k) s). lia.
Qed.

Lemma compact_subject_length (prefix summary : str) (limit : Z) :
  (0 <= limit)%Z ->
  (Z.of_nat (length (_compact_subject prefix summary limit)) <= limit)%Z.
Proof.
  intros Hl. unfold _compact_subject.
  destruct (Z.leb_spec (Z.of_nat (length (Py.strip (prefix ++ lit ": " ++ summary))))
              limit) as [H | H]; [assumption |].
  match goal with |- context [(Z.of_nat (length ?s2) <=? limit)%Z] =>
    destruct (Z.leb_spec (Z.of_nat (length s2)) limit) as [H2 | H2]
  end; [assumption |].
  apply slice_to_length. assumption.
Qed.

Lemma build_message_subject (str_lower : str -> str) (w : World)
  (repo_root : str) (cached : bool) (user_hint : option str)
  (subject body : str) :
  build_message str_lower w repo_root cached user_hint = Ok (subject, body) ->
  exists commit_type summary,
    subject = _compact_subject commit_type summary default_limit.
Proof.
  unfold build_message. intros H.
  destruct (read_changes w repo_root cached) as [changed | e]; [| discriminate].
  destruct (Py.is_empty (map path changed)); [discriminate |].
  destruct (_shortstat w repo_root cached) as [stat | e]; [| discriminate].
  inversion H; subst. eauto.
Qed.

(** * Claims *)

(** C9. In a well-formed record stream the reader consumes three fields
    (status, old path, new path) for a rename or copy record, keeping the
    new path, and two fields (status, path) for any other record: from the
    offset where a record starts the loop continues at the offset where
    the next one starts, and the whole stream yields one [ChangedFile] per
    record, in order. *)
Theorem reader_field_cursor (rs : list record) :
  forallb well_formed rs = true ->
  parse_changed (stream rs) = Ok (map changed_file_of rs)
  /\ forall rs1 r rs2 changed,
       rs = rs1 ++ r :: rs2 ->
       let parts := _parse_z_pairs (stream rs) in
       let i := length (flat_map fields rs1) in
       let consumed :=
         match r with Ordinary _ _ => 2 | RenameCopy _ _ _ => 3 end in
       changed_loop parts i changed
       = changed_loop parts (i + consumed) (changed ++ [changed_file_of r]).
Proof.
  intros Hwf. split; [apply parse_changed_stream; assumption |].
  intros rs1 r rs2 changed E. cbv zeta. unfold stream.
  rewrite parse_z_pairs_stream by (apply well_formed_fields; assumption).
  subst rs. rewrite flat_map_app, map_app. cbn [flat_map]. rewrite map_app.
  rewrite forallb_app in Hwf. apply andb_prop in Hwf. destruct Hwf as [_ Hwf].
  simpl in Hwf. apply andb_prop in Hwf. destruct Hwf as [Hr _].
  rewrite <- (length_map Utf8.decode (flat_map fields rs1)).
  rewrite (changed_loop_record _ r _ changed Hr).
  destruct r; reflexivity.
Qed.

Lemma reader_field_cursor_witness :
  forallb well_formed sample_records = true
  /\ parse_changed (stream sample_records)
     = Ok [ {| status := lit "M"; path := lit "src/app.py" |};
            {| status := lit "R"; path := lit "new/name.txt" |};
            {| status := lit "D"; path := lit "gone.txt" |} ].
Proof.
  assert (Hwf : forallb well_formed sample_records = true)
    by (vm_compute; reflexivity).
  split; [exact Hwf |].
  rewrite (proj1 (reader_field_cursor sample_records Hwf)).
  vm_compute. reflexivity.
Defined.

(** C10. The reader never raises and every [ChangedFile] it returns carries
    a field of the stream as its path; when the stream ends inside a record
    (after a status, or after the status and the old path of a rename or
    copy), that record is dropped and the complete records before it are
    returned. *)
Theorem reader_drops_cut_record :
  (forall raw : bytes,
     exists changed,
       parse_changed raw = Ok changed
       /\ forall c, In c changed -> In (path c) (_parse_z_pairs raw))
  /\ (forall (rs : list record) (t : partial_record) (terminated : bool),
        forallb well_formed rs = true ->
        partial_ok t = true ->
        parse_changed (stream rs ++ partial_bytes t terminated)
        = Ok (map changed_file_of rs)).
Proof.
  split.
  - intros raw. unfold parse_changed.
    destruct (changed_loop_total (n := length (_parse_z_pairs raw))
                (_parse_z_pairs raw) 0 []) as (out & E & Hout); [lia |].
    exists out. split; [assumption |].
    intros c Hc. destruct (Hout c Hc) as [[] | H]. assumption.
  - intros rs t terminated. apply parse_changed_cut.
Qed.

Lemma reader_drops_cut_record_witness :
  forallb well_formed sample_records = true
  /\ partial_ok (StatusAndOld (blit "R090") (blit "old/other.txt")) = true
  /\ parse_changed
       (stream sample_records
        ++ partial_bytes (StatusAndOld (blit "R090") (blit "old/other.txt")) true)
     = Ok [ {| status := lit "M"; path := lit "src/app.py" |};
            {| status := lit "R"; path := lit "new/name.txt" |};
            {| status := lit "D"; path := lit "gone.txt" |} ].
Proof.
  assert (Hwf : forallb well_formed sample_records = true)
    by (vm_compute; reflexivity).
  assert (Hok : partial_ok (StatusAndOld (blit "R090") (blit "old/other.txt"))
                = true) by (vm_compute; reflexivity).
  split; [exact Hwf |]. split; [exact Hok |].
  rewrite (proj2 reader_drops_cut_record sample_records _ true Hwf Hok).
  vm_compute. reflexivity.
Defined.

(** C7. [_dominant_area] takes of every path the part before its first
    slash (the whole path without one), counts these segments, and returns
    the display name of a segment whose count is greatest and strictly
    greater than that of every segment first met before it; a segment
    outside the table gets the fallback label, and so does empty input. *)
Theorem dominant_area_plurality :
  (forall p, top_segment p = before_first SLASH p)
  /\ _dominant_area [] = lit "项目"
  /\ (forall paths, paths <> [] ->
        exists top,
          _dominant_area paths = display_name top
          /\ plurality_first top (map top_segment paths))
  /\ display_name (lit "mobile-app") = lit "移动端"
  /\ display_name (lit "backend") = lit "后端"
  /\ display_name (lit "docs") = lit "文档"
  /\ (forall segment,
        ~ In segment [lit "mobile-app"; lit "backend"; lit "docs"] ->
        display_name segment = lit "项目").
Proof.
  split; [exact top_segment_spec |]. split; [reflexivity |].
  split.
  - intros paths Hne. unfold _dominant_area. rewrite tally_tops_bump.
    destruct (fold_left bump (map top_segment paths) []) as [| first rest] eqn:E.
    + exfalso. rewrite tally_tabulate in E. unfold tabulate in E.
      apply map_eq_nil in E.
      destruct paths as [| p paths]; [congruence |].
      assert (H : In (top_segment p) (firsts (map top_segment (p :: paths))))
        by (apply firsts_in; left; reflexivity).
      rewrite E in H. destruct H.
    + exists (fst (Dict.max_scan first rest)).
      split; [unfold display_name; reflexivity |].
      apply tally_max_is_plurality. assumption.
  - repeat split; try reflexivity.
    intros segment Hnin. unfold display_name, area_mapping. cbn [In] in Hnin.
    rewrite !get_other by (intros E; apply Hnin; auto).
    reflexivity.
Qed.

Lemma dominant_area_plurality_witness :
  sample_paths <> []
  /\ _dominant_area sample_paths = lit "文档"
  /\ exists top,
       _dominant_area sample_paths = display_name top
       /\ plurality_first top (map top_segment sample_paths).
Proof.
  assert (Hne : sample_paths <> []) by discriminate.
  split; [exact Hne |]. split; [vm_compute; reflexivity |].
  exact (proj1 (proj2 (proj2 dominant_area_plurality)) sample_paths Hne).
Defined.

(** C5. For every commit type and summary the subject returned by
    [_compact_subject] under the default limit has at most 50 code points:
    it is the stripped ["{type}: {summary}"] when that fits; otherwise the
    same with the two suffix words removed from the summary when that fits;
    otherwise the first 50 code points of the original subject. The function
    is total, and every subject that [build_message] returns is such a
    subject, whatever the hint. *)
Theorem subject_within_cap :
  (forall prefix summary : str,
     let subject := Py.strip (prefix ++ lit ": " ++ summary) in
     let summary2 :=
       Py.replace (Py.replace summary (lit "功能") (lit "")) (lit "页面") (lit "") in
     let subject2 := Py.strip (prefix ++ lit ": " ++ summary2) in
     let rendered := _compact_subject prefix summary default_limit in
     length rendered <= 50
     /\ ((rendered = subject /\ length subject <= 50)
         \/ (rendered = subject2 /\ 50 < length subject /\ length subject2 <= 50)
         \/ (rendered = firstn 50 subject
             /\ 50 < length subject /\ 50 < length subject2)))
  /\ (forall (str_lower : str -> str) (w : World) (repo_root : str)
        (cached : bool) (user_hint : option str),
        match build_message str_lower w repo_root cached user_hint with
        | Ok (subject, _) => length subject <= 50
        | Raise _ => True
        end).
Proof.
  split.
  - intros prefix summary. cbv zeta.
    pose proof (compact_subject_length prefix summary (limit := default_limit))
      as Hlen.
    unfold default_limit in *. split; [lia |].
    unfold _compact_subject.
    destruct (Z.leb_spec
                (Z.of_nat (length (Py.strip (prefix ++ lit ": " ++ summary)))) 50)
      as [H | H]; [left; split; [reflexivity | lia] |].
    right.
    match goal with |- context [(Z.of_nat (length ?s2) <=? 50)%Z] =>
      destruct (Z.leb_spec (Z.of_nat (length s2)) 50) as [H2 | H2]
    end.
    + left. split; [reflexivity | lia].
    + right. split; [reflexivity | lia].
  - intros str_lower w repo_root cached user_hint.
    destruct (build_message str_lower w repo_root cached user_hint)
      as [[subject body] |] eqn:E; [| exact I].
    apply build_message_subject in E. destruct E as (ty & summary & ->).
    pose proof (compact_subject_length ty summary (limit := default_limit)).
    unfold default_limit in *. lia.
Qed.

(** C6. A hint that contains one of the five defect keywords makes
    [_infer_type] return [fix] for every list of paths: the hint is checked
    before the documentation-only rule, which for the same paths and no
    hint gives [docs]. *)
Theorem defect_hint_wins (str_lower : str -> str) (paths : list str)
  (hint : str) :
  (exists k, In k fix_keywords /\ Py.contains N.eqb k hint = true) ->
  _infer_type str_lower paths (Some hint) = lit "fix"
  /\ (_is_docs_only str_lower paths = true ->
      _infer_type str_lower paths None = lit "docs").
Proof.
  intros (k & Hk & Hin). split.
  - unfold _infer_type.
    assert (Hfix : hint_says_fix (Some hint) = true).
    { unfold hint_says_fix. apply andb_true_intro. split.
      - destruct hint as [| c hint]; [| reflexivity]. exfalso.
        unfold fix_keywords in Hk. simpl in Hk.
        repeat (destruct Hk as [<- | Hk]; [vm_compute in Hin; discriminate |]).
        destruct Hk.
      - apply existsb_exists. exists k. auto. }
    rewrite Hfix. reflexivity.
  - intros Hdocs. unfold _infer_type. simpl hint_says_fix. cbv iota.
    rewrite Hdocs. reflexivity.
Qed.

Lemma defect_hint_wins_witness :
  (exists k, In k fix_keywords
             /\ Py.contains N.eqb k (lit "修复文档中的错误链接") = true)
  /\ _is_docs_only Py.ascii_lower [lit "docs/guide.md"; lit "README.MD"] = true
  /\ _infer_type Py.ascii_lower [lit "docs/guide.md"; lit "README.MD"]
       (Some (lit "修复文档中的错误链接")) = lit "fix"
  /\ _infer_type Py.ascii_lower [lit "docs/guide.md"; lit "README.MD"] None
     = lit "docs".
Proof.
  assert (H : exists k, In k fix_keywords
                        /\ Py.contains N.eqb k (lit "修复文档中的错误链接") = true).
  { exists (lit "修复"). split; [left; reflexivity | vm_compute; reflexivity]. }
  assert (Hd : _is_docs_only Py.ascii_lower [lit "docs/guide.md"; lit "README.MD"]
               = true) by (vm_compute; reflexivity).
  destruct (@defect_hint_wins Py.ascii_lower
              [lit "docs/guide.md"; lit "README.MD"] _ H) as [Hfix Hdocs].
  split; [exact H |]. split; [exact Hd |].
  split; [exact Hfix | exact (Hdocs Hd)].
Defined.

(** ** The message *)

Lemma build_message_changes (str_lower : str -> str) (w : World)
  (repo_root : str) (cached : bool) (user_hint : option str)
  (changed : list ChangedFile) (stat : str) :
  read_changes w repo_root cached = Ok changed ->
  changed <> [] ->
  _shortstat w repo_root cached = Ok stat ->
  build_message str_lower w repo_root cached user_hint
  = Ok (_compact_subject
          (_infer_type str_lower (map path changed) user_hint)
          (summary_of str_lower (map path changed) user_hint
             (_infer_type str_lower (map path changed) user_hint)
             (_dominant_area (map path changed))
             (_infer_object str_lower changed)
             (_infer_action (map status changed)))
          default_limit,
        Py.strip (Py.join [NEWLINE] (body_lines stat changed))).
Proof.
  intros Hread Hne Hstat. unfold build_message. rewrite Hread.
  destruct changed as [| c changed']; [congruence |].
  cbn [map Py.is_empty]. rewrite Hstat. reflexivity.
Qed.

Lemma build_message_empty (str_lower : str -> str) (w : World)
  (repo_root : str) (cached : bool) (user_hint : option str) :
  read_changes w repo_root cached = Ok [] ->
  build_message str_lower w repo_root cached user_hint
  = Raise (RuntimeError (lit "no changes to summarize")).
Proof. intros Hread. unfold build_message. rewrite Hread. reflexivity. Qed.

Lemma lstrip_head (c : char) (s : str) :
  Py.isspace c = false -> Py.lstrip (c :: s) = c :: s.
Proof. intros H. simpl. rewrite H. reflexivity. Qed.

(** [strip] leaves a string alone that neither starts nor ends with space. *)
Lemma strip_inert (c z : char) (s t : str) :
  Py.isspace c = false -> Py.isspace z = false ->
  c :: s = t ++ [z] ->
  Py.strip (c :: s) = c :: s.
Proof.
  intros Hc Hz E. unfold Py.strip, Py.rstrip.
  rewrite (@lstrip_head c s Hc), E, rev_unit, (@lstrip_head z (rev t) Hz).
  rewrite <- (rev_unit t z). apply rev_involutive.
Qed.

Lemma join_snoc {A} (sep : list A) (ls : list (list A)) (l : list A) :
  ls <> [] -> Py.join sep (ls ++ [l]) = Py.join sep ls ++ sep ++ l.
Proof.
  induction ls as [| x ls IH]; intros Hne; [congruence |].
  destruct ls as [| y ls]; [reflexivity |].
  change (Py.join sep ((x :: y :: ls) ++ [l]))
    with (x ++ sep ++ Py.join sep ((y :: ls) ++ [l])).
  rewrite IH by discriminate.
  change (Py.join sep (x :: y :: ls)) with (x ++ sep ++ Py.join sep (y :: ls)).
  rewrite <- !app_assoc. reflexivity.
Qed.

Lemma strip_unchanged (u : str) :
  (exists c s, u = c :: s /\ Py.isspace c = false) ->
  (exists t z, u = t ++ [z] /\ Py.isspace z = false) ->
  Py.strip u = u.
Proof.
  intros (c & s & -> & Hc) (t & z & E & Hz).
  eapply strip_inert; eassumption.
Qed.

Lemma join_head {A} (sep x : list A) (rest : list (list A)) :
  exists more, Py.join sep (x :: rest) = x ++ more.
Proof.
  destruct rest as [| y rest].
  - exists []. simpl. symmetry. apply app_nil_r.
  - exists (sep ++ Py.join sep (y :: rest)). reflexivity.
Qed.

(** With files to list, the joined lines start with [-] and end with the
    last code point of the last line, so that [strip] removes nothing. *)
Lemma body_strip_unchanged (lines : list str) (x : str) (z : char) :
  lines <> [] ->
  (exists s, hd [] lines = 0x2D%N :: s) ->
  Py.isspace z = false ->
  Py.strip (Py.join [NEWLINE] (lines ++ [x ++ [z]]))
  = Py.join [NEWLINE] (lines ++ [x ++ [z]]).
Proof.
  intros Hne (s & Hhd) Hz. rewrite join_snoc by assumption.
  apply strip_unchanged.
  - destruct lines as [| l lines]; [congruence |]. simpl in Hhd. subst l.
    destruct (join_head [NEWLINE] (0x2D%N :: s) lines) as (more & ->).
    eexists _, _. split; [reflexivity | reflexivity].
  - exists (Py.join [NEWLINE] lines ++ [NEWLINE] ++ x), z.
    split; [| assumption]. rewrite <- !app_assoc. reflexivity.
Qed.

(** The body of a ChangeSet of 15 entries. *)
Lemma body_of_fifteen (str_lower : str -> str) (w : World)
  (repo_root : str) (cached : bool) (changed : list ChangedFile) (stat : str) :
  read_changes w repo_root cached = Ok changed ->
  length changed = 15 ->
  _shortstat w repo_root cached = Ok stat ->
  exists subject,
    build_message str_lower w repo_root cached None
    = Ok (subject,
          Py.join [NEWLINE]
            ((if Py.is_empty stat then [] else [lit "- 统计：" ++ stat])
             ++ map file_line (firstn 12 changed)
             ++ [lit "- ... 以及另外 3 个文件"]))
    /\ length (map file_line (firstn 12 changed)) = 12.
Proof.
  intros Hread Hlen Hstat.
  assert (Hne : changed <> []) by (destruct changed; [discriminate | congruence]).
  rewrite (@build_message_changes str_lower w repo_root cached None
             changed stat Hread Hne Hstat).
  eexists. split; [| rewrite length_map, length_firstn; lia].
  f_equal. f_equal. unfold body_lines, max_files. rewrite Hlen.
  change (12 <? 15) with true. cbv iota.
  change (lit "- ... 以及另外 " ++ Py.str_of_nat (15 - 12) ++ lit " 个文件")
    with (lit "- ... 以及另外 3 个文" ++ [0x4EF6%N]).
  change (lit "- ... 以及另外 3 个文件")
    with (lit "- ... 以及另外 3 个文" ++ [0x4EF6%N]).
  rewrite app_assoc. apply body_strip_unchanged.
  - destruct changed as [| c changed']; [discriminate |].
    destruct (Py.is_empty stat); discriminate.
  - destruct changed as [| c changed']; [discriminate |].
    destruct (Py.is_empty stat); cbn [firstn map app hd].
    + unfold file_line. eval_lits. cbn [app]. eexists. reflexivity.
    + eval_lits. cbn [app]. eexists. reflexivity.
  - vm_compute. reflexivity.
Qed.

(** C8, as the claim states it, fails: the file lines of the body are not
    ["{status} {path}"]; every line of the body, the file lines included,
    begins with a dash and a space. *)
Lemma file_lines_carry_a_dash_counterexample :
  read_changes fifteen_world (lit "/work/repo") true = Ok fifteen_modified
  /\ exists subject body,
       build_message Py.ascii_lower fifteen_world (lit "/work/repo") true None
       = Ok (subject, body)
       /\ Py.split N.eqb NEWLINE body
          = lit "- 统计：15 files changed, 40 insertions(+), 7 deletions(-)"
            :: map (fun n => lit "- M " ++ Utf8.decode (backend_file n))
                 (seq 1 12)
            ++ [lit "- ... 以及另外 3 个文件"]
       /\ nth 1 (Py.split N.eqb NEWLINE body) [] = lit "- M backend/handler_1.go"
       /\ nth 1 (Py.split N.eqb NEWLINE body) [] <> lit "M backend/handler_1.go"
       /\ forallb
            (fun c =>
               negb (existsb (str_eqb (status c ++ lit " " ++ path c))
                       (Py.split N.eqb NEWLINE body)))
            fifteen_modified = true.
Proof.
  split; [vm_compute; reflexivity |].
  destruct (build_message Py.ascii_lower fifteen_world (lit "/work/repo") true
              None) as [[subject body] | e] eqn:Hbuild;
    [| vm_compute in Hbuild; discriminate Hbuild].
  exists subject, body. split; [reflexivity |].
  vm_compute in Hbuild. inversion Hbuild; subst subject body.
  split; [vm_compute; reflexivity |].
  split; [vm_compute; reflexivity |].
  split; [vm_compute; discriminate | vm_compute; reflexivity].
Qed.

(** C8, amended. When the ChangeSet has 15 entries, the body is the optional
    statistics line, then for each of the first 12 entries, in ChangeSet
    order, the line made of a dash, a space, the status, a space and the
    path, then the one line ["- ... 以及另外 3 个文件"], joined by newlines. *)
Theorem body_lists_twelve_of_fifteen (str_lower : str -> str) (w : World)
  (repo_root : str) (cached : bool) (changed : list ChangedFile) (stat : str) :
  read_changes w repo_root cached = Ok changed ->
  length changed = 15 ->
  _shortstat w repo_root cached = Ok stat ->
  exists subject,
    build_message str_lower w repo_root cached None
    = Ok (subject,
          Py.join [NEWLINE]
            ((if Py.is_empty stat then [] else [lit "- 统计：" ++ stat])
             ++ map (fun c => lit "- " ++ status c ++ lit " " ++ path c)
                  (firstn 12 changed)
             ++ [lit "- ... 以及另外 3 个文件"]))
    /\ length (firstn 12 changed) = 12.
Proof.
  intros Hread Hlen Hstat.
  destruct (@body_of_fifteen str_lower w repo_root cached changed stat
              Hread Hlen Hstat) as (subject & Hbuild & _).
  exists subject. split; [| rewrite length_firstn; lia].
  rewrite Hbuild. unfold file_line. reflexivity.
Qed.

Lemma body_lists_twelve_of_fifteen_witness :
  read_changes fifteen_world (lit "/work/repo") true = Ok fifteen_modified
  /\ length fifteen_modified = 15
  /\ Forall (fun c => status c = lit "M"
                      /\ Py.startswith N.eqb (path c) (lit "backend/") = true)
       fifteen_modified
  /\ exists subject,
       build_message Py.ascii_lower fifteen_world (lit "/work/repo") true None
       = Ok (subject,
             Py.join [NEWLINE]
               ([lit "- 统计：15 files changed, 40 insertions(+), 7 deletions(-)"]
                ++ map (fun n => lit "- M " ++ Utf8.decode (backend_file n))
                     (seq 1 12)
                ++ [lit "- ... 以及另外 3 个文件"])).
Proof.
  assert (Hread : read_changes fifteen_world (lit "/work/repo") true
                  = Ok fifteen_modified) by (vm_compute; reflexivity).
  assert (Hlen : length fifteen_modified = 15) by reflexivity.
  assert (Hstat : _shortstat fifteen_world (lit "/work/repo") true
                  = Ok (lit "15 files changed, 40 insertions(+), 7 deletions(-)"))
    by (vm_compute; reflexivity).
  split; [exact Hread |]. split; [exact Hlen |].
  split; [vm_compute; repeat constructor |].
  destruct (@body_lists_twelve_of_fifteen Py.ascii_lower fifteen_world
              (lit "/work/repo") true fifteen_modified _ Hread Hlen Hstat)
    as (subject & Hbuild & _).
  exists subject. rewrite Hbuild. vm_compute. reflexivity.
Defined.

(** ** Exit codes *)

Lemma get_repo_root_failure (w : World) :
  (fst (git w (getcwd w) [lit "rev-parse"; lit "--show-toplevel"]) <> 0)%Z ->
  _get_repo_root w
  = ([Stderr (Text (lit "not a git repo"))], Raise (SystemExit 2)).
Proof.
  intros Hcode. unfold _get_repo_root, _git_try, check_output.
  destruct (git w (getcwd w) [lit "rev-parse"; lit "--show-toplevel"])
    as [code out].
  simpl in Hcode. apply Z.eqb_neq in Hcode. rewrite Hcode. cbv iota beta.
  rewrite Hcode. reflexivity.
Qed.

Lemma get_repo_root_success (w : World) :
  fst (git w (getcwd w) [lit "rev-parse"; lit "--show-toplevel"]) = 0%Z ->
  exists repo_root, _get_repo_root w = ([], Ok repo_root).
Proof.
  intros Hcode. unfold _get_repo_root, _git_try, check_output.
  destruct (git w (getcwd w) [lit "rev-parse"; lit "--show-toplevel"])
    as [code out].
  simpl in Hcode. subst code. eexists. reflexivity.
Qed.

(** C4. When the ChangeSet read for an invocation is empty, [build_message]
    raises "no changes to summarize" and [main] returns exit code 3, having
    printed that message to the error stream and nothing (no subject, no
    body) to the output stream. *)
Theorem empty_changeset_is_an_error (str_lower : str -> str)
  (encodes : printed -> bool) (w : World) (args : Args) (repo_root : str) :
  cached args && worktree args = false ->
  _get_repo_root w = ([], Ok repo_root) ->
  read_changes w repo_root (negb (worktree args)) = Ok [] ->
  build_message str_lower w repo_root (negb (worktree args)) (hint args)
  = Raise (RuntimeError (lit "no changes to summarize"))
  /\ main str_lower encodes w args
     = ([Stderr (StrOfExn (RuntimeError (lit "no changes to summarize")))],
        Ok 3%Z)
  /\ exit_status (main str_lower encodes w args) = 3%Z
  /\ stdout_of (main str_lower encodes w args) = [].
Proof.
  intros Hargs Hroot Hread.
  pose proof (@build_message_empty str_lower w repo_root
                (negb (worktree args)) (hint args) Hread) as Hbuild.
  assert (Hmain : main str_lower encodes w args
                  = ([Stderr (StrOfExn (RuntimeError (lit "no changes to summarize")))],
                     Ok 3%Z)).
  { unfold main. rewrite Hargs, Hroot. unfold iobind at 1.
    rewrite Hbuild. reflexivity. }
  split; [exact Hbuild |]. split; [exact Hmain |].
  rewrite Hmain. split; reflexivity.
Qed.

Lemma empty_changeset_is_an_error_witness :
  cached plain_args && worktree plain_args = false
  /\ _get_repo_root empty_world = ([], Ok (lit "/work/repo"))
  /\ read_changes empty_world (lit "/work/repo") true = Ok []
  /\ exit_status (main Py.ascii_lower utf8_stdout empty_world plain_args) = 3%Z
  /\ stdout_of (main Py.ascii_lower utf8_stdout empty_world plain_args) = [].
Proof.
  assert (Hargs : cached plain_args && worktree plain_args = false)
    by reflexivity.
  assert (Hroot : _get_repo_root empty_world = ([], Ok (lit "/work/repo")))
    by (vm_compute; reflexivity).
  assert (Hread : read_changes empty_world (lit "/work/repo")
                    (negb (worktree plain_args)) = Ok [])
    by (vm_compute; reflexivity).
  split; [exact Hargs |]. split; [exact Hroot |]. split; [exact Hread |].
  exact (proj2 (proj2 (@empty_changeset_is_an_error Py.ascii_lower utf8_stdout
                         empty_world
                         plain_args (lit "/work/repo") Hargs Hroot Hread))).
Defined.

(** C3, as the claim states it, fails: outside a repository the script
    exits with code 2, not 3. *)
Lemma not_a_repository_exit_code_counterexample :
  fst (git no_repo_world (getcwd no_repo_world)
         [lit "rev-parse"; lit "--show-toplevel"]) = 128%Z
  /\ cached plain_args && worktree plain_args = false
  /\ main Py.ascii_lower utf8_stdout no_repo_world plain_args
     = ([Stderr (Text (lit "not a git repo"))], Raise (SystemExit 2))
  /\ exit_status (main Py.ascii_lower utf8_stdout no_repo_world plain_args) = 2%Z
  /\ exit_status (main Py.ascii_lower utf8_stdout no_repo_world plain_args) <> 3%Z.
Proof.
  split; [reflexivity |]. split; [reflexivity |].
  split; [vm_compute; reflexivity |].
  split; [vm_compute; reflexivity | vm_compute; discriminate].
Qed.

(** C3, amended. When [git rev-parse --show-toplevel] fails in the current
    directory and the flags are compatible, the script prints "not a git
    repo" to the error stream and exits with code 2, the code it also uses
    for [--cached] together with [--worktree]; it exits with code 3 only
    after the repository root was found, when [build_message] raised. *)
Theorem not_a_repository_exits_2 (str_lower : str -> str)
  (encodes : printed -> bool) (w : World) (args : Args) :
  let r := main str_lower encodes w args in
  let rev_parse_status :=
    fst (git w (getcwd w) [lit "rev-parse"; lit "--show-toplevel"]) in
  (cached args && worktree args = false ->
   rev_parse_status <> 0%Z ->
   r = ([Stderr (Text (lit "not a git repo"))], Raise (SystemExit 2))
   /\ exit_status r = 2%Z)
  /\ (cached args && worktree args = true ->
      r = ([Stderr (Text (lit "choose one of --cached or --worktree"))], Ok 2%Z)
      /\ exit_status r = 2%Z)
  /\ (exit_status r = 3%Z ->
      cached args && worktree args = false
      /\ rev_parse_status = 0%Z
      /\ exists repo_root e,
           _get_repo_root w = ([], Ok repo_root)
           /\ build_message str_lower w repo_root (negb (worktree args))
                (hint args) = Raise e).
Proof.
  cbv zeta. split; [| split].
  - intros Hargs Hcode. unfold main. rewrite Hargs.
    rewrite (get_repo_root_failure w Hcode). split; reflexivity.
  - intros Hargs. unfold main. rewrite Hargs. split; reflexivity.
  - unfold main. destruct (cached args && worktree args) eqn:Hargs.
    { intros H. vm_compute in H. discriminate H. }
    destruct (Z.eq_dec
                (fst (git w (getcwd w) [lit "rev-parse"; lit "--show-toplevel"]))
                0) as [Hcode | Hcode].
    + destruct (get_repo_root_success w Hcode) as (repo_root & Hroot).
      rewrite Hroot. unfold iobind at 1.
      destruct (build_message str_lower w repo_root (negb (worktree args))
                  (hint args)) as [[subject body] | e] eqn:Hbuild.
      * unfold print.
        destruct (json args);
          [destruct (encodes _); intros H; vm_compute in H; discriminate H |].
        destruct (encodes (Text (lit "subject: " ++ subject)));
          [| intros H; vm_compute in H; discriminate H].
        destruct (Py.is_empty body); cbn [negb];
          [intros H; vm_compute in H; discriminate H |].
        destruct (encodes (Text (lit "body:")));
          [| intros H; vm_compute in H; discriminate H].
        destruct (encodes (Text body)); intros H; vm_compute in H;
          discriminate H.
      * intros _. split; [reflexivity |]. split; [assumption |].
        exists repo_root, e. split; [reflexivity | exact Hbuild].
    + rewrite (get_repo_root_failure w Hcode).
      intros H. vm_compute in H. discriminate H.
Qed.

Lemma not_a_repository_exits_2_witness :
  cached plain_args && worktree plain_args = false
  /\ fst (git no_repo_world (getcwd no_repo_world)
            [lit "rev-parse"; lit "--show-toplevel"]) <> 0%Z
  /\ exit_status (main Py.ascii_lower utf8_stdout no_repo_world plain_args) = 2%Z.
Proof.
  assert (Hargs : cached plain_args && worktree plain_args = false)
    by reflexivity.
  assert (Hcode : fst (git no_repo_world (getcwd no_repo_world)
                         [lit "rev-parse"; lit "--show-toplevel"]) <> 0%Z)
    by (vm_compute; discriminate).
  split; [exact Hargs |]. split; [exact Hcode |].
  exact (proj2 (proj1 (@not_a_repository_exits_2 Py.ascii_lower utf8_stdout
                         no_repo_world plain_args) Hargs Hcode)).
Defined.

(** ** Scenario: a new login screen *)

Lemma login_path_lower (str_lower : str -> str) :
  lower_on_ascii str_lower -> str_lower login_path = login_path.
Proof.
  intros H. rewrite H by (vm_compute; reflexivity).
  vm_compute. reflexivity.
Qed.

(** C2, as the claim states it, fails: the label inferred for the added file
    [mobile-app/auth/login.tsx] is the one of the keyword [login], not the
    one of the keyword [auth]. *)
Lemma login_object_counterexample :
  keyword_scores Py.ascii_lower login_added
  = [(lit "登录", 3%Z); (lit "认证", 3%Z)]
  /\ _infer_object Py.ascii_lower login_added = Some (lit "登录")
  /\ _infer_object Py.ascii_lower login_added <> Some (lit "认证").
Proof.
  split; [vm_compute; reflexivity |].
  split; [vm_compute; reflexivity | vm_compute; discriminate].
Qed.

Lemma login_type (str_lower : str -> str) :
  lower_on_ascii str_lower ->
  _infer_type str_lower [login_path] None = lit "feat".
Proof.
  intros H. unfold _infer_type, _is_docs_only.
  cbn [hint_says_fix Py.is_empty forallb].
  rewrite (login_path_lower H). vm_compute. reflexivity.
Qed.

Lemma login_scores (str_lower : str -> str) :
  lower_on_ascii str_lower ->
  keyword_scores str_lower login_added = [(lit "登录", 3%Z); (lit "认证", 3%Z)].
Proof.
  intros H. unfold keyword_scores, login_added. cbn [map path status].
  rewrite (login_path_lower H). vm_compute. reflexivity.
Qed.

Lemma login_object (str_lower : str -> str) :
  lower_on_ascii str_lower ->
  _infer_object str_lower login_added = Some (lit "登录").
Proof.
  intros H. unfold _infer_object. rewrite (login_scores H).
  unfold login_added, priority_scan. cbn [path status].
  rewrite (login_path_lower H). vm_compute. reflexivity.
Qed.

(** C2, amended. For the ChangeSet with the single entry
    (Added, [mobile-app/auth/login.tsx]) and no hint, [_infer_type] returns
    [feat], [_infer_object] returns the label of the keyword [login] (it ties
    with the label of [auth] at score 3 and comes first), the area is the
    display name mapped for [mobile-app], and the subject is
    ["feat: 新增登录功能"], which ends in the feature suffix. *)
Theorem login_scenario (str_lower : str -> str) :
  lower_on_ascii str_lower ->
  _infer_type str_lower (map path login_added) None = lit "feat"
  /\ keyword_scores str_lower login_added
     = [(lit "登录", 3%Z); (lit "认证", 3%Z)]
  /\ _infer_object str_lower login_added = Some (lit "登录")
  /\ _dominant_area (map path login_added) = display_name (lit "mobile-app")
  /\ display_name (lit "mobile-app") = lit "移动端"
  /\ (forall (w : World) (repo_root : str) (cached : bool) (stat : str),
        read_changes w repo_root cached = Ok login_added ->
        _shortstat w repo_root cached = Ok stat ->
        exists body,
          build_message str_lower w repo_root cached None
          = Ok (lit "feat: 新增登录功能", body))
  /\ Py.endswith N.eqb (lit "feat: 新增登录功能") (lit "功能") = true.
Proof.
  intros H. change (map path login_added) with [login_path].
  split; [exact (login_type H) |]. split; [exact (login_scores H) |].
  split; [exact (login_object H) |].
  split; [vm_compute; reflexivity |]. split; [vm_compute; reflexivity |].
  split; [| vm_compute; reflexivity].
  intros w repo_root cached stat Hread Hstat.
  assert (Hne : login_added <> []) by discriminate.
  rewrite (@build_message_changes str_lower w repo_root cached None
             login_added stat Hread Hne Hstat).
  eexists. f_equal. f_equal.
  change (map path login_added) with [login_path].
  rewrite (login_type H), (login_object H).
  vm_compute. reflexivity.
Qed.

Lemma login_scenario_witness :
  lower_on_ascii Py.ascii_lower
  /\ read_changes login_world (lit "/work/repo") true = Ok login_added
  /\ _infer_type Py.ascii_lower (map path login_added) None = lit "feat"
  /\ _infer_object Py.ascii_lower login_added = Some (lit "登录")
  /\ exists body,
       build_message Py.ascii_lower login_world (lit "/work/repo") true None
       = Ok (lit "feat: 新增登录功能", body).
Proof.
  assert (H : lower_on_ascii Py.ascii_lower) by (intros s _; reflexivity).
  assert (Hread : read_changes login_world (lit "/work/repo") true
                  = Ok login_added) by (vm_compute; reflexivity).
  assert (Hstat : _shortstat login_world (lit "/work/repo") true
                  = Ok (lit "1 file changed, 42 insertions(+)"))
    by (vm_compute; reflexivity).
  destruct (login_scenario H) as (Hty & _ & Hobj & _ & _ & Hbuild & _).
  split; [exact H |]. split; [exact Hread |].
  split; [exact Hty |]. split; [exact Hobj |].
  exact (Hbuild login_world (lit "/work/repo") true _ Hread Hstat).
Defined.

(** ** Renames and copies *)

Lemma first_letter_RC (st : bytes) :
  first_is_RC st = true ->
  first_letter st = lit "R" \/ first_letter st = lit "C".
Proof.
  destruct st as [| b rest]; simpl; [discriminate |].
  intros H. apply orb_prop in H.
  destruct H as [H | H]; apply Byte.byte_dec_bl in H; subst b; auto.
Qed.




(** * Further properties of the code *)

(** ** The action *)

Lemma existsb_str_eqb (a : str) (l : list str) :
  existsb (fun s => str_eqb s a) l = true <-> In a l.
Proof.
  rewrite existsb_exists. split.
  - intros (s & Hin & E). apply str_eqb_eq in E. subst. assumption.
  - intros Hin. exists a. split; [assumption | apply str_eqb_eq; reflexivity].
Qed.

Lemma existsb_str_eqb_false (a : str) (l : list str) :
  existsb (fun s => str_eqb s a) l = false <-> ~ In a l.
Proof.
  rewrite <- existsb_str_eqb. destruct (existsb _ l); split; congruence.
Qed.

(** X1. [_infer_action] answers "added" as soon as one status is [A],
    whatever else is there; without an [A] it answers "removed" as soon as
    one status is [D]; otherwise "updated". *)
Theorem infer_action_precedence (statuses : list str) :
  (In (lit "A") statuses -> _infer_action statuses = lit "新增")
  /\ (~ In (lit "A") statuses -> In (lit "D") statuses ->
      _infer_action statuses = lit "移除")
  /\ (~ In (lit "A") statuses -> ~ In (lit "D") statuses ->
      _infer_action statuses = lit "更新").
Proof.
  unfold _infer_action. split; [| split].
  - intros HA. apply existsb_str_eqb in HA. rewrite HA. reflexivity.
  - intros HA HD. apply existsb_str_eqb_false in HA. apply existsb_str_eqb in HD.
    rewrite HA, HD. reflexivity.
  - intros HA HD. apply existsb_str_eqb_false in HA.
    apply existsb_str_eqb_false in HD. rewrite HA, HD. reflexivity.
Qed.

Lemma infer_action_precedence_witness :
  In (lit "A") [lit "D"; lit "M"; lit "A"; lit "D"]
  /\ _infer_action [lit "D"; lit "M"; lit "A"; lit "D"] = lit "新增".
Proof.
  assert (H : In (lit "A") [lit "D"; lit "M"; lit "A"; lit "D"])
    by (right; right; left; reflexivity).
  split; [exact H |].
  exact (proj1 (infer_action_precedence [lit "D"; lit "M"; lit "A"; lit "D"]) H).
Defined.

(** ** More on the reader *)

Lemma changed_loop_invariant (P : ChangedFile -> Prop) (parts : list str) :
  (forall st p, In st parts -> Py.is_empty st = false -> In p parts ->
                P {| status := Py.slice_to st 1; path := p |}) ->
  forall (n i : nat) (changed out : list ChangedFile),
    length parts - i <= n ->
    Forall P changed ->
    changed_loop parts i changed = Ok out ->
    Forall P out.
Proof.
  intros Hstep. induction n as [| n IH]; intros i changed out Hn Hacc;
    rewrite changed_loop_body.
  - replace (i <? length parts) with false by (symmetry; apply Nat.ltb_ge; lia).
    intros E. inversion E; subst. assumption.
  - destruct (Nat.ltb_spec i (length parts)) as [Hi | Hi];
      [| intros E; inversion E; subst; assumption].
    destruct (index_in_range parts Hi) as (st & -> & Hst).
    destruct (Py.is_empty st) eqn:Est.
    { apply IH; [lia | assumption]. }
    destruct (is_rename_or_copy st).
    + destruct (Nat.leb_spec (length parts) (i + 2)) as [H2 | H2];
        [intros E; inversion E; subst; assumption |].
      destruct (index_in_range parts H2) as (p & -> & Hp).
      apply IH; [lia |]. apply Forall_app. split; [assumption |].
      constructor; [| constructor]. apply Hstep; assumption.
    + destruct (Nat.leb_spec (length parts) (i + 1)) as [H1 | H1];
        [intros E; inversion E; subst; assumption |].
      destruct (index_in_range parts H1) as (p & -> & Hp).
      apply IH; [lia |]. apply Forall_app. split; [assumption |].
      constructor; [| constructor]. apply Hstep; assumption.
Qed.

(** X2. Every [ChangedFile] that the reader returns has a status of exactly
    one code point, the first one of a non-empty field of the stream. *)
Theorem parsed_status_is_one_code_point (raw : bytes)
  (changed : list ChangedFile) :
  parse_changed raw = Ok changed ->
  Forall (fun c =>
            length (status c) = 1
            /\ exists field, In field (_parse_z_pairs raw)
                             /\ status c = firstn 1 field)
         changed.
Proof.
  unfold parse_changed. intros H.
  eapply (@changed_loop_invariant _ (_parse_z_pairs raw)); [| | | exact H].
  - intros st p Hst Hne _. simpl. destruct st as [| c st]; [discriminate |].
    split; [reflexivity |]. exists (c :: st). split; [assumption | reflexivity].
  - apply Nat.le_refl.
  - constructor.
Qed.

Lemma parsed_status_is_one_code_point_witness :
  parse_changed (stream sample_records)
  = Ok (map changed_file_of sample_records)
  /\ Forall (fun c => length (status c) = 1)
       (map changed_file_of sample_records).
Proof.
  assert (H : parse_changed (stream sample_records)
              = Ok (map changed_file_of sample_records))
    by (vm_compute; reflexivity).
  split; [exact H |].
  eapply Forall_impl; [| exact (parsed_status_is_one_code_point _ H)].
  intros c [Hlen _]. exact Hlen.
Defined.

Lemma changed_loop_skip_empty (k : nat) :
  forall (pre post : list str) (changed : list ChangedFile),
  changed_loop (pre ++ repeat [] k ++ post) (length pre) changed
  = changed_loop (pre ++ repeat [] k ++ post) (length pre + k) changed.
Proof.
  induction k as [| k IH]; intros pre post changed.
  - rewrite Nat.add_0_r. reflexivity.
  - etransitivity; [apply changed_loop_body |].
    cbn [repeat app]. rewrite index_middle. cbn [Py.is_empty].
    replace (length pre <? _) with true
      by (symmetry; apply Nat.ltb_lt; rewrite length_app; simpl; lia).
    specialize (IH (pre ++ [[]]) post changed).
    rewrite <- !app_assoc, length_app in IH. cbn [app length] in IH.
    rewrite IH. f_equal. lia.
Qed.

Lemma decode_repeat_empty (k : nat) :
  map Utf8.decode (repeat [] k) = repeat [] k.
Proof. induction k; simpl; congruence. Qed.

Lemma changed_loop_padded (padded : list (nat * record)) :
  forall (pre post : list str) (changed : list ChangedFile),
  forallb well_formed (map snd padded) = true ->
  changed_loop (pre ++ map Utf8.decode (flat_map padded_fields padded) ++ post)
    (length pre) changed
  = changed_loop (pre ++ map Utf8.decode (flat_map padded_fields padded) ++ post)
      (length pre + length (flat_map padded_fields padded))
      (changed ++ map changed_file_of (map snd padded)).
Proof.
  induction padded as [| [k r] padded IH]; intros pre post changed Hwf.
  - simpl. rewrite Nat.add_0_r, app_nil_r. reflexivity.
  - simpl in Hwf. apply andb_prop in Hwf. destruct Hwf as [Hr Hrs].
    cbn [flat_map map snd]. unfold padded_fields at 1 3 5. cbn [fst snd].
    rewrite !map_app, decode_repeat_empty, <- !app_assoc.
    rewrite changed_loop_skip_empty.
    pose proof (changed_loop_record (pre ++ repeat [] k) r
                  (map Utf8.decode (flat_map padded_fields padded) ++ post)
                  changed Hr) as Hrec.
    rewrite <- !app_assoc, length_app, repeat_length in Hrec. rewrite Hrec.
    specialize (IH (pre ++ repeat [] k ++ map Utf8.decode (fields r)) post
                  (changed ++ [changed_file_of r]) Hrs).
    rewrite <- !app_assoc in IH.
    rewrite !length_app, repeat_length, length_map in IH.
    rewrite !Nat.add_assoc in IH. rewrite IH.
    rewrite !length_app, repeat_length, !Nat.add_assoc. reflexivity.
Qed.

Lemma nul_terminated_app (a b : list bytes) :
  nul_terminated (a ++ b) = nul_terminated a ++ nul_terminated b.
Proof. unfold nul_terminated. apply flat_map_app. Qed.

Lemma nul_terminated_repeat (k : nat) :
  nul_terminated (repeat [] k) = repeat NUL k.
Proof. induction k; simpl; congruence. Qed.

Lemma padded_stream_fields (padded : list (nat * record)) (trailing : nat) :
  padded_stream padded trailing
  = nul_terminated (flat_map padded_fields padded ++ repeat [] trailing).
Proof.
  unfold padded_stream. rewrite nul_terminated_app, nul_terminated_repeat.
  f_equal. induction padded as [| [k r] padded IH]; [reflexivity |].
  cbn [flat_map]. rewrite nul_terminated_app, <- IH.
  unfold padded_fields. cbn [fst snd].
  rewrite nul_terminated_app, nul_terminated_repeat, <- app_assoc. reflexivity.
Qed.

Lemma nul_free_repeat_empty (k : nat) : forallb nul_free (repeat [] k) = true.
Proof. induction k; simpl; auto. Qed.

Lemma padded_fields_nul_free (padded : list (nat * record)) :
  forallb well_formed (map snd padded) = true ->
  forallb nul_free (flat_map padded_fields padded) = true.
Proof.
  induction padded as [| [k r] padded IH]; simpl; intros H; [reflexivity |].
  apply andb_prop in H. destruct H as [Hr Hrs].
  unfold padded_fields at 1. cbn [fst snd].
  rewrite !forallb_app, nul_free_repeat_empty, (IH Hrs), andb_true_r.
  pose proof (well_formed_fields [r]) as Hf. simpl in Hf.
  rewrite app_nil_r, Hr in Hf. apply Hf. reflexivity.
Qed.

(** X3. Empty fields (stray NUL bytes) before, between and after the
    records are skipped one at a time: the reader returns the same
    [ChangedFile]s as for the stream without them. *)
Theorem reader_skips_empty_fields (padded : list (nat * record))
  (trailing : nat) :
  forallb well_formed (map snd padded) = true ->
  parse_changed (padded_stream padded trailing)
  = Ok (map changed_file_of (map snd padded))
  /\ parse_changed (padded_stream padded trailing)
     = parse_changed (stream (map snd padded)).
Proof.
  intros Hwf.
  assert (H : parse_changed (padded_stream padded trailing)
              = Ok (map changed_file_of (map snd padded))).
  { unfold parse_changed. rewrite padded_stream_fields.
    rewrite parse_z_pairs_stream
      by (rewrite forallb_app, nul_free_repeat_empty, andb_true_r;
          apply padded_fields_nul_free; assumption).
    rewrite map_app, decode_repeat_empty.
    pose proof (changed_loop_padded padded [] (repeat [] trailing) [] Hwf) as Hp.
    simpl in Hp. rewrite Hp. clear Hp.
    pose proof (changed_loop_skip_empty trailing
                  (map Utf8.decode (flat_map padded_fields padded)) []
                  (map changed_file_of (map snd padded))) as Hs.
    rewrite app_nil_r in Hs. rewrite length_map in Hs. rewrite Hs.
    replace (length (flat_map padded_fields padded) + trailing)
      with (length (map Utf8.decode (flat_map padded_fields padded)
                    ++ repeat [] trailing))
      by (rewrite length_app, length_map, repeat_length; reflexivity).
    apply changed_loop_done. }
  split; [exact H |].
  rewrite H. symmetry. apply parse_changed_stream. assumption.
Qed.

Lemma reader_skips_empty_fields_witness :
  forallb well_formed
    (map snd [(2, Ordinary (blit "M") (blit "a.txt")); (1, rename_record)])
  = true
  /\ padded_stream [(2, Ordinary (blit "M") (blit "a.txt")); (1, rename_record)] 3
     = [NUL; NUL] ++ blit "M" ++ [NUL] ++ blit "a.txt" ++ [NUL]
       ++ [NUL] ++ blit "R100" ++ [NUL] ++ blit "auth/signin.ts" ++ [NUL]
       ++ blit "auth/login.ts" ++ [NUL] ++ [NUL; NUL; NUL]
  /\ parse_changed
       (padded_stream [(2, Ordinary (blit "M") (blit "a.txt")); (1, rename_record)] 3)
     = Ok (map changed_file_of
             (map snd [(2, Ordinary (blit "M") (blit "a.txt")); (1, rename_record)])).
Proof.
  assert (Hwf : forallb well_formed
                  (map snd [(2, Ordinary (blit "M") (blit "a.txt"));
                            (1, rename_record)]) = true)
    by (vm_compute; reflexivity).
  split; [exact Hwf |]. split; [vm_compute; reflexivity |].
  exact (proj1 (@reader_skips_empty_fields
                  [(2, Ordinary (blit "M") (blit "a.txt")); (1, rename_record)]
                  3 Hwf)).
Defined.

Lemma join_nul_last (fs : list bytes) :
  fs <> [] ->
  Py.join [NUL] fs = nul_terminated (removelast fs) ++ last fs [].
Proof.
  induction fs as [| f fs IH]; intros Hne; [congruence |].
  destruct fs as [| g fs]; [reflexivity |].
  change (Py.join [NUL] (f :: g :: fs))
    with (f ++ [NUL] ++ Py.join [NUL] (g :: fs)).
  rewrite IH by discriminate.
  change (removelast (f :: g :: fs)) with (f :: removelast (g :: fs)).
  change (last (f :: g :: fs) []) with (last (g :: fs) []).
  cbn [nul_terminated flat_map]. rewrite <- !app_assoc. reflexivity.
Qed.

(** X4. The NUL after the last field is optional: for fields without NUL
    bytes, the last one not empty, [_parse_z_pairs] returns the decoded
    fields whether the fields are NUL-separated or NUL-terminated. *)
Theorem final_nul_is_optional (fs : list bytes) :
  forallb nul_free fs = true ->
  last fs [] <> [] ->
  _parse_z_pairs (Py.join [NUL] fs) = map Utf8.decode fs
  /\ _parse_z_pairs (nul_terminated fs) = map Utf8.decode fs.
Proof.
  intros Hfs Hlast. split; [| apply parse_z_pairs_stream; assumption].
  assert (Hne : fs <> []) by (intros ->; apply Hlast; reflexivity).
  rewrite (join_nul_last Hne).
  rewrite (app_removelast_last [] Hne) in Hfs.
  rewrite forallb_app in Hfs. apply andb_prop in Hfs. destruct Hfs as [Hinit Hl].
  simpl in Hl. rewrite andb_true_r in Hl.
  rewrite parse_z_pairs_eq.
  - rewrite (split_nul_terminated _ _ Hinit), (split_nul_none _ Hl).
    rewrite (drop_empty_tail_snoc_full _ Hlast).
    rewrite <- (app_removelast_last [] Hne). reflexivity.
  - intros E. apply app_eq_nil in E. destruct E as [_ E]. congruence.
Qed.

Lemma final_nul_is_optional_witness :
  forallb nul_free [blit "M"; blit "a.txt"; blit "D"; blit "b.txt"] = true
  /\ last [blit "M"; blit "a.txt"; blit "D"; blit "b.txt"] [] <> []
  /\ _parse_z_pairs
       (blit "M" ++ [NUL] ++ blit "a.txt" ++ [NUL] ++ blit "D" ++ [NUL]
        ++ blit "b.txt")
     = map Utf8.decode [blit "M"; blit "a.txt"; blit "D"; blit "b.txt"].
Proof.
  assert (H1 : forallb nul_free [blit "M"; blit "a.txt"; blit "D"; blit "b.txt"]
               = true) by (vm_compute; reflexivity).
  assert (H2 : last [blit "M"; blit "a.txt"; blit "D"; blit "b.txt"] [] <> [])
    by (vm_compute; discriminate).
  split; [exact H1 |]. split; [exact H2 |].
  exact (proj1 (final_nul_is_optional _ H1 H2)).
Defined.

(** ** The ChangeSet *)

Lemma check_output_ok (w : World) (repo_root : str) (args : list str)
  (out : bytes) :
  git w repo_root args = (0%Z, out) -> check_output w repo_root args = Ok out.
Proof. intros H. unfold check_output. rewrite H. reflexivity. Qed.

Lemma check_output_fails (w : World) (repo_root : str) (args : list str)
  (code : Z) (out : bytes) :
  git w repo_root args = (code, out) -> code <> 0%Z ->
  check_output w repo_root args = Raise (CalledProcessError code out).
Proof.
  intros H Hc. unfold check_output. rewrite H.
  apply Z.eqb_neq in Hc. rewrite Hc. reflexivity.
Qed.

Lemma check_output_raises (w : World) (repo_root : str) (args : list str)
  (e : exn) :
  check_output w repo_root args = Raise e ->
  exists code out, code <> 0%Z /\ e = CalledProcessError code out.
Proof.
  unfold check_output. destruct (git w repo_root args) as [code out].
  destruct (Z.eqb_spec code 0); [discriminate |].
  intros E. inversion E. eauto.
Qed.

Lemma list_untracked_files_ok (w : World) (repo_root : str) (ps : list bytes) :
  forallb nul_free ps = true ->
  git w repo_root ls_files_args = (0%Z, nul_terminated ps) ->
  _list_untracked_files w repo_root = Ok (map added_file ps).
Proof.
  intros Hps Hgit. unfold _list_untracked_files. fold ls_files_args.
  rewrite (check_output_ok _ _ _ Hgit).
  rewrite (parse_z_pairs_stream _ Hps), map_map. reflexivity.
Qed.

(** X5. [_list_untracked_files] reports every path that [git ls-files]
    lists, in order, with status [A]; it reports nothing but [A] entries,
    and a failing git call surfaces as [CalledProcessError] with the status
    and output of git. *)
Theorem untracked_files_are_added (w : World) (repo_root : str) :
  (forall ps : list bytes,
     forallb nul_free ps = true ->
     git w repo_root ls_files_args = (0%Z, nul_terminated ps) ->
     _list_untracked_files w repo_root = Ok (map added_file ps))
  /\ (forall files,
        _list_untracked_files w repo_root = Ok files ->
        Forall (fun c => status c = lit "A") files)
  /\ (forall code out,
        git w repo_root ls_files_args = (code, out) -> code <> 0%Z ->
        _list_untracked_files w repo_root
        = Raise (CalledProcessError code out)).
Proof.
  split; [intros ps; apply list_untracked_files_ok |].
  unfold _list_untracked_files. fold ls_files_args. split.
  - intros files.
    destruct (check_output w repo_root ls_files_args); [| discriminate].
    intros E. inversion E. apply Forall_forall.
    intros c Hc. apply in_map_iff in Hc. destruct Hc as (p & <- & _).
    reflexivity.
  - intros code out Hgit Hc. rewrite (check_output_fails _ _ _ Hgit Hc).
    reflexivity.
Qed.

Lemma untracked_files_are_added_witness :
  forallb nul_free [blit "auth/login.ts"; blit "notes.txt"] = true
  /\ git worktree_world (lit "/work/repo") ls_files_args
     = (0%Z, nul_terminated [blit "auth/login.ts"; blit "notes.txt"])
  /\ _list_untracked_files worktree_world (lit "/work/repo")
     = Ok (map added_file [blit "auth/login.ts"; blit "notes.txt"]).
Proof.
  assert (H1 : forallb nul_free [blit "auth/login.ts"; blit "notes.txt"] = true)
    by (vm_compute; reflexivity).
  assert (H2 : git worktree_world (lit "/work/repo") ls_files_args
               = (0%Z, nul_terminated [blit "auth/login.ts"; blit "notes.txt"]))
    by (vm_compute; reflexivity).
  split; [exact H1 |]. split; [exact H2 |].
  exact (proj1 (untracked_files_are_added worktree_world (lit "/work/repo"))
           _ H1 H2).
Defined.

(** X6. In working-tree mode the ChangeSet is the tracked changes in the
    order of [git diff], followed by the untracked files in the order of
    [git ls-files]; nothing is merged or removed, so a path reported by
    both appears twice. *)
Theorem worktree_changes_are_appended (w : World) (repo_root : str)
  (rs : list record) (ps : list bytes) :
  forallb well_formed rs = true ->
  forallb nul_free ps = true ->
  git w repo_root (diff_args [lit "--name-status"; lit "-z"] false)
  = (0%Z, stream rs) ->
  git w repo_root ls_files_args = (0%Z, nul_terminated ps) ->
  read_changes w repo_root false
  = Ok (map changed_file_of rs ++ map added_file ps)
  /\ length (map changed_file_of rs ++ map added_file ps)
     = length rs + length ps.
Proof.
  intros Hrs Hps Hdiff Hls. split.
  - unfold read_changes, _list_changed_files.
    rewrite (check_output_ok _ _ _ Hdiff), (parse_changed_stream _ Hrs).
    cbn [negb].
    rewrite (list_untracked_files_ok _ _ _ Hps Hls).
    reflexivity.
  - rewrite length_app, !length_map. reflexivity.
Qed.

Lemma worktree_changes_are_appended_witness :
  forallb well_formed [Ordinary (blit "M") (blit "README.md"); rename_record]
  = true
  /\ forallb nul_free [blit "auth/login.ts"; blit "notes.txt"] = true
  /\ read_changes worktree_world (lit "/work/repo") false
     = Ok [ {| status := lit "M"; path := lit "README.md" |};
            {| status := lit "R"; path := lit "auth/login.ts" |};
            {| status := lit "A"; path := lit "auth/login.ts" |};
            {| status := lit "A"; path := lit "notes.txt" |} ].
Proof.
  assert (H1 : forallb well_formed
                 [Ordinary (blit "M") (blit "README.md"); rename_record] = true)
    by (vm_compute; reflexivity).
  assert (H2 : forallb nul_free [blit "auth/login.ts"; blit "notes.txt"] = true)
    by (vm_compute; reflexivity).
  split; [exact H1 |]. split; [exact H2 |].
  rewrite (proj1 (@worktree_changes_are_appended worktree_world
                    (lit "/work/repo") _ _ H1 H2 eq_refl eq_refl)).
  vm_compute. reflexivity.
Defined.

Lemma check_output_agree (w w' : World) (repo_root : str) (args : list str) :
  git w repo_root args = git w' repo_root args ->
  check_output w repo_root args = check_output w' repo_root args.
Proof. intros H. unfold check_output. rewrite H. reflexivity. Qed.

(** X7. Unless [--worktree] is given, [git ls-files] is never consulted:
    two environments that answer [git rev-parse] and the two [git diff
    --cached] queries alike make [main] print and return the same, however
    their untracked files differ. *)
Theorem cached_mode_ignores_untracked (str_lower : str -> str)
  (encodes : printed -> bool) (w w' : World) (args : Args) :
  worktree args = false ->
  getcwd w = getcwd w' ->
  (forall repo_root a,
     In a [ rev_parse_args;
            diff_args [lit "--name-status"; lit "-z"] true;
            diff_args [lit "--shortstat"] true ] ->
     git w repo_root a = git w' repo_root a) ->
  main str_lower encodes w args = main str_lower encodes w' args.
Proof.
  intros Hwt Hcwd Hgit.
  assert (Hroot : _get_repo_root w = _get_repo_root w').
  { unfold _get_repo_root, _git_try. fold rev_parse_args. rewrite <- Hcwd.
    rewrite (@check_output_agree w w' (getcwd w) rev_parse_args)
      by (apply Hgit; left; reflexivity).
    reflexivity. }
  assert (Hbuild : forall repo_root,
             build_message str_lower w repo_root true (hint args)
             = build_message str_lower w' repo_root true (hint args)).
  { intros repo_root.
    unfold build_message, read_changes, _list_changed_files, _shortstat, _run_git.
    rewrite (@check_output_agree w w' repo_root
               (diff_args [lit "--name-status"; lit "-z"] true))
      by (apply Hgit; right; left; reflexivity).
    rewrite (@check_output_agree w w' repo_root
               (diff_args [lit "--shortstat"] true))
      by (apply Hgit; right; right; left; reflexivity).
    reflexivity. }
  unfold main. rewrite Hwt, Hroot. cbn [negb].
  destruct (cached args && false); [reflexivity |].
  destruct (_get_repo_root w') as [log [repo_root | e]]; [| reflexivity].
  unfold iobind at 1 3. rewrite Hbuild. reflexivity.
Qed.

Lemma cached_mode_ignores_untracked_witness :
  worktree plain_args = false
  /\ git worktree_world (lit "/work/repo") ls_files_args
     <> git worktree_world_other_untracked (lit "/work/repo") ls_files_args
  /\ main Py.ascii_lower utf8_stdout worktree_world plain_args
     = main Py.ascii_lower utf8_stdout worktree_world_other_untracked plain_args.
Proof.
  assert (Hwt : worktree plain_args = false) by reflexivity.
  assert (Hcwd : getcwd worktree_world = getcwd worktree_world_other_untracked)
    by (vm_compute; reflexivity).
  assert (Hgit : forall repo_root a,
             In a [ rev_parse_args;
                    diff_args [lit "--name-status"; lit "-z"] true;
                    diff_args [lit "--shortstat"] true ] ->
             git worktree_world repo_root a
             = git worktree_world_other_untracked repo_root a)
    by (intros repo_root a [<- | [<- | [<- | []]]]; vm_compute; reflexivity).
  split; [exact Hwt |]. split; [vm_compute; discriminate |].
  exact (@cached_mode_ignores_untracked Py.ascii_lower utf8_stdout
           worktree_world worktree_world_other_untracked plain_args
           Hwt Hcwd Hgit).
Defined.

(** ** Failures *)

Lemma parse_changed_returns (raw : bytes) :
  exists changed, parse_changed raw = Ok changed.
Proof.
  unfold parse_changed.
  destruct (changed_loop_total (n := length (_parse_z_pairs raw))
              (_parse_z_pairs raw) 0 []) as (out & E & _); [lia |].
  exists out. exact E.
Qed.

Lemma read_changes_raises (w : World) (repo_root : str) (cached : bool)
  (e : exn) :
  read_changes w repo_root cached = Raise e ->
  exists code out, code <> 0%Z /\ e = CalledProcessError code out.
Proof.
  unfold read_changes, _list_changed_files, _list_untracked_files.
  destruct (check_output w repo_root _) as [raw | e1] eqn:E1;
    [| intros E; inversion E; subst; eapply check_output_raises; eassumption].
  destruct (parse_changed_returns raw) as (changed & ->).
  destruct (negb cached); [| discriminate].
  fold ls_files_args.
  destruct (check_output w repo_root ls_files_args) as [raw2 | e2] eqn:E2;
    [discriminate |].
  intros E; inversion E; subst. eapply check_output_raises; eassumption.
Qed.

Lemma build_message_raises (str_lower : str -> str) (w : World)
  (repo_root : str) (cached : bool) (user_hint : option str) (e : exn) :
  build_message str_lower w repo_root cached user_hint = Raise e ->
  (e = RuntimeError (lit "no changes to summarize")
   /\ read_changes w repo_root cached = Ok [])
  \/ exists code out, code <> 0%Z /\ e = CalledProcessError code out.
Proof.
  unfold build_message.
  destruct (read_changes w repo_root cached) as [changed | e1] eqn:E1.
  - destruct changed as [| c changed].
    + intros E. inversion E. left. split; reflexivity.
    + cbn [map Py.is_empty]. unfold _shortstat, _run_git.
      destruct (check_output w repo_root _) as [out | e2] eqn:E2; [discriminate |].
      intros E. inversion E; subst. right.
      eapply check_output_raises; eassumption.
  - intros E. inversion E; subst. right.
    eapply read_changes_raises; eassumption.
Qed.

(** X8. [build_message] fails in two ways only: with the [RuntimeError]
    "no changes to summarize", exactly when the ChangeSet was read and is
    empty, or with the [CalledProcessError] of a git call that exited with a
    non-zero status. The list accesses of the reader never raise. *)
Theorem build_message_failures (str_lower : str -> str) (w : World)
  (repo_root : str) (cached : bool) (user_hint : option str) (e : exn) :
  build_message str_lower w repo_root cached user_hint = Raise e ->
  (e = RuntimeError (lit "no changes to summarize")
   /\ read_changes w repo_root cached = Ok [])
  \/ (exists code out, code <> 0%Z /\ e = CalledProcessError code out).
Proof. apply build_message_raises. Qed.

Lemma build_message_failures_witness :
  build_message Py.ascii_lower broken_diff_world (lit "/work/repo") true None
  = Raise (CalledProcessError 129 (blit "error: unknown option"))
  /\ ((CalledProcessError 129 (blit "error: unknown option")
       = RuntimeError (lit "no changes to summarize")
       /\ read_changes broken_diff_world (lit "/work/repo") true = Ok [])
      \/ (exists code out,
            code <> 0%Z
            /\ CalledProcessError 129 (blit "error: unknown option")
               = CalledProcessError code out)).
Proof.
  assert (H : build_message Py.ascii_lower broken_diff_world (lit "/work/repo")
                true None
              = Raise (CalledProcessError 129 (blit "error: unknown option")))
    by (vm_compute; reflexivity).
  split; [exact H |].
  exact (build_message_failures _ _ _ _ _ H).
Defined.

(** ** Exit statuses and output *)

Lemma get_repo_root_cases (w : World) :
  _get_repo_root w
  = ([Stderr (Text (lit "not a git repo"))], Raise (SystemExit 2))
  \/ exists repo_root, _get_repo_root w = ([], Ok repo_root).
Proof.
  destruct (Z.eq_dec
              (fst (git w (getcwd w) [lit "rev-parse"; lit "--show-toplevel"]))
              0) as [Hcode | Hcode].
  - right. apply get_repo_root_success. assumption.
  - left. apply get_repo_root_failure. assumption.
Qed.

Lemma main_after_build (str_lower : str -> str) (encodes : printed -> bool)
  (w : World) (args : Args) (repo_root subject body : str) :
  cached args && worktree args = false ->
  _get_repo_root w = ([], Ok repo_root) ->
  build_message str_lower w repo_root (negb (worktree args)) (hint args)
  = Ok (subject, body) ->
  main str_lower encodes w args
  = (map Stdout (written encodes (message_prints (json args) subject body)),
     if forallb encodes (message_prints (json args) subject body)
     then Ok 0%Z else Raise UnicodeEncodeError).
Proof.
  intros Hargs Hroot Hbuild.
  unfold main. rewrite Hargs, Hroot. unfold iobind at 1. rewrite Hbuild.
  unfold message_prints, print.
  destruct (json args).
  { cbn [written forallb map].
    destruct (encodes (JsonDumps subject body)); reflexivity. }
  destruct (Py.is_empty body); cbn [negb written forallb map].
  { destruct (encodes (Text (lit "subject: " ++ subject))); reflexivity. }
  destruct (encodes (Text (lit "subject: " ++ subject))); [| reflexivity].
  destruct (encodes (Text (lit "body:"))); [| reflexivity].
  destruct (encodes (Text body)); reflexivity.
Qed.

Lemma main_cases (str_lower : str -> str) (encodes : printed -> bool)
  (w : World) (args : Args) :
  (cached args && worktree args = true
   /\ main str_lower encodes w args
      = ([Stderr (Text (lit "choose one of --cached or --worktree"))], Ok 2%Z))
  \/ (cached args && worktree args = false
      /\ _get_repo_root w
         = ([Stderr (Text (lit "not a git repo"))], Raise (SystemExit 2))
      /\ main str_lower encodes w args
         = ([Stderr (Text (lit "not a git repo"))], Raise (SystemExit 2)))
  \/ (cached args && worktree args = false
      /\ exists repo_root subject body,
           _get_repo_root w = ([], Ok repo_root)
           /\ build_message str_lower w repo_root (negb (worktree args))
                (hint args) = Ok (subject, body)
           /\ main str_lower encodes w args
              = (map Stdout
                   (written encodes (message_prints (json args) subject body)),
                 if forallb encodes (message_prints (json args) subject body)
                 then Ok 0%Z else Raise UnicodeEncodeError))
  \/ (cached args && worktree args = false
      /\ exists repo_root e,
           _get_repo_root w = ([], Ok repo_root)
           /\ build_message str_lower w repo_root (negb (worktree args))
                (hint args) = Raise e
           /\ main str_lower encodes w args = ([Stderr (StrOfExn e)], Ok 3%Z)).
Proof.
  destruct (cached args && worktree args) eqn:Hargs.
  { left. split; [reflexivity |]. unfold main. rewrite Hargs. reflexivity. }
  right.
  destruct (get_repo_root_cases w) as [Hroot | (repo_root & Hroot)].
  { left. split; [reflexivity |]. split; [exact Hroot |].
    unfold main. rewrite Hargs, Hroot. reflexivity. }
  right.
  destruct (build_message str_lower w repo_root (negb (worktree args))
              (hint args)) as [[subject body] | e] eqn:Hbuild.
  - left. split; [reflexivity |]. exists repo_root, subject, body.
    split; [exact Hroot |]. split; [exact Hbuild |].
    apply (@main_after_build str_lower encodes w args repo_root subject body);
      assumption.
  - right. split; [reflexivity |]. exists repo_root, e.
    split; [exact Hroot |]. split; [exact Hbuild |].
    unfold main. rewrite Hargs, Hroot. unfold iobind at 1. rewrite Hbuild.
    destruct (build_message_raises _ _ _ _ _ Hbuild)
      as [[-> _] | (code & out & _ & ->)]; reflexivity.
Qed.

(** X9. Once the arguments are parsed, [main] ends with status 0, 1, 2 or
    3. The status is 0 exactly when the flags are compatible, the repository
    root was found, [build_message] returned a message and [sys.stdout]
    could encode every print of it. When the message was built but
    [sys.stdout] cannot encode one of its prints, [UnicodeEncodeError]
    leaves [main] and the status is 1. *)
Theorem main_exit_statuses (str_lower : str -> str) (encodes : printed -> bool)
  (w : World) (args : Args) :
  let r := main str_lower encodes w args in
  let built (encoded : bool) :=
    cached args && worktree args = false
    /\ exists repo_root subject body,
         _get_repo_root w = ([], Ok repo_root)
         /\ build_message str_lower w repo_root (negb (worktree args))
              (hint args) = Ok (subject, body)
         /\ forallb encodes (message_prints (json args) subject body)
            = encoded in
  In (exit_status r) [0; 1; 2; 3]%Z
  /\ (exit_status r = 0%Z <-> built true)
  /\ (built false -> snd r = Raise UnicodeEncodeError /\ exit_status r = 1%Z).
Proof.
  cbv zeta.
  destruct (main_cases str_lower encodes w args)
    as [[Hargs ->]
       | [(Hargs & Hroot & ->)
         | [(Hargs & root & s & b & Hroot & Hbuild & ->)
           | (Hargs & root & e & Hroot & Hbuild & ->)]]];
    unfold exit_status; cbn [snd].
  - split; [right; right; left; reflexivity |].
    split; [split; [intros H; discriminate H |] |];
      intros [H _]; rewrite Hargs in H; discriminate H.
  - split; [right; right; left; reflexivity |].
    split; [split; [intros H; discriminate H |] |];
      intros (_ & root & s & b & H & _); rewrite Hroot in H; discriminate H.
  - assert (Hsame : forall encoded,
               (cached args && worktree args = false
                /\ exists repo_root subject body,
                     _get_repo_root w = ([], Ok repo_root)
                     /\ build_message str_lower w repo_root
                          (negb (worktree args)) (hint args)
                        = Ok (subject, body)
                     /\ forallb encodes
                          (message_prints (json args) subject body) = encoded)
               <-> forallb encodes (message_prints (json args) s b) = encoded).
    { intros encoded. split.
      - intros (_ & root' & s' & b' & Hr & Hb & He).
        rewrite Hroot in Hr. inversion Hr; subst root'.
        rewrite Hbuild in Hb. inversion Hb; subst s' b'. exact He.
      - intros He. split; [exact Hargs |]. exists root, s, b.
        split; [exact Hroot |]. split; [exact Hbuild | exact He]. }
    rewrite !Hsame.
    destruct (forallb encodes (message_prints (json args) s b)).
    + split; [left; reflexivity |].
      split; [split; intros _; reflexivity | intros H; discriminate H].
    + split; [right; left; reflexivity |].
      split; [split; intros H; discriminate H | intros _; split; reflexivity].
  - split; [right; right; right; left; reflexivity |].
    split; [split; [intros H; discriminate H |] |];
      intros (_ & root' & s & b & Hr & Hb & _); rewrite Hroot in Hr;
      inversion Hr; subst; rewrite Hbuild in Hb; discriminate Hb.
Qed.

Lemma main_exit_statuses_witness :
  exit_status (main Py.ascii_lower utf8_stdout broken_diff_world plain_args)
  = 3%Z
  /\ exit_status (main Py.ascii_lower utf8_stdout login_world plain_args) = 0%Z
  /\ cached plain_args && worktree plain_args = false
  /\ _get_repo_root login_world = ([], Ok (lit "/work/repo"))
  /\ build_message Py.ascii_lower login_world (lit "/work/repo")
       (negb (worktree plain_args)) (hint plain_args)
     = Ok (lit "feat: 新增登录功能",
           lit "- 统计：1 file changed, 42 insertions(+)"
           ++ [NEWLINE] ++ lit "- A mobile-app/auth/login.tsx")
  /\ snd (main Py.ascii_lower ascii_stdout login_world plain_args)
     = Raise UnicodeEncodeError
  /\ exit_status (main Py.ascii_lower ascii_stdout login_world plain_args)
     = 1%Z.
Proof.
  assert (Hargs : cached plain_args && worktree plain_args = false)
    by reflexivity.
  assert (Hroot : _get_repo_root login_world = ([], Ok (lit "/work/repo")))
    by (vm_compute; reflexivity).
  assert (Hbuild : build_message Py.ascii_lower login_world (lit "/work/repo")
                     (negb (worktree plain_args)) (hint plain_args)
                   = Ok (lit "feat: 新增登录功能",
                         lit "- 统计：1 file changed, 42 insertions(+)"
                         ++ [NEWLINE] ++ lit "- A mobile-app/auth/login.tsx"))
    by (vm_compute; reflexivity).
  split; [vm_compute; reflexivity |]. split; [vm_compute; reflexivity |].
  split; [exact Hargs |]. split; [exact Hroot |]. split; [exact Hbuild |].
  apply (proj2 (proj2 (main_exit_statuses Py.ascii_lower ascii_stdout
                         login_world plain_args))).
  split; [exact Hargs |].
  eexists _, _, _. split; [exact Hroot |]. split; [exact Hbuild |].
  vm_compute. reflexivity.
Defined.

Lemma lstrip_app_nonspace (u : str) (c : char) (v : str) :
  Py.isspace c = false ->
  exists u', Py.lstrip (u ++ c :: v) = u' ++ c :: v.
Proof.
  intros Hc. induction u as [| x u IH].
  - exists []. simpl. rewrite Hc. reflexivity.
  - simpl. destruct (Py.isspace x).
    + exact IH.
    + exists (x :: u). reflexivity.
Qed.

Lemma rstrip_keeps_prefix (a : str) (c : char) (b : str) :
  Py.isspace c = false ->
  exists t, Py.rstrip (a ++ c :: b) = a ++ c :: t.
Proof.
  intros Hc. unfold Py.rstrip. rewrite rev_app_distr. simpl.
  rewrite <- app_assoc. simpl.
  destruct (@lstrip_app_nonspace (rev b) c (rev a) Hc) as (u' & ->).
  exists (rev u'). rewrite rev_app_distr. simpl.
  rewrite rev_involutive, <- app_assoc. reflexivity.
Qed.

(** A string whose first code point is no space keeps, under [strip],
    everything up to its last code point that is no space. *)
Lemma strip_keeps_prefix (a0 : char) (a : str) (c : char) (b : str) :
  Py.isspace a0 = false -> Py.isspace c = false ->
  exists t, Py.strip (a0 :: a ++ c :: b) = a0 :: a ++ c :: t.
Proof.
  intros Ha Hc. unfold Py.strip. rewrite (@lstrip_head a0 (a ++ c :: b) Ha).
  exact (@rstrip_keeps_prefix (a0 :: a) c b Hc).
Qed.

Lemma strip_keeps_head (c : char) (s : str) :
  Py.isspace c = false -> exists t, Py.strip (c :: s) = c :: t.
Proof.
  intros Hc. unfold Py.strip. rewrite (@lstrip_head c s Hc).
  exact (@rstrip_keeps_prefix [] c s Hc).
Qed.

Lemma build_message_ok_inv (str_lower : str -> str) (w : World)
  (repo_root : str) (cached : bool) (user_hint : option str)
  (subject body : str) :
  build_message str_lower w repo_root cached user_hint = Ok (subject, body) ->
  exists changed stat,
    read_changes w repo_root cached = Ok changed
    /\ changed <> []
    /\ _shortstat w repo_root cached = Ok stat
    /\ subject
       = _compact_subject
           (_infer_type str_lower (map path changed) user_hint)
           (summary_of str_lower (map path changed) user_hint
              (_infer_type str_lower (map path changed) user_hint)
              (_dominant_area (map path changed))
              (_infer_object str_lower changed)
              (_infer_action (map status changed)))
           default_limit
    /\ body = Py.strip (Py.join [NEWLINE] (body_lines stat changed)).
Proof.
  intros H.
  destruct (read_changes w repo_root cached) as [changed | e] eqn:Hread.
  2:{ unfold build_message in H. rewrite Hread in H. discriminate H. }
  destruct changed as [| c changed].
  { rewrite (@build_message_empty str_lower w repo_root cached user_hint Hread)
      in H. discriminate H. }
  destruct (_shortstat w repo_root cached) as [stat | e] eqn:Hstat.
  2:{ unfold build_message in H. rewrite Hread in H. cbn [map Py.is_empty] in H.
      rewrite Hstat in H. discriminate H. }
  rewrite (@build_message_changes str_lower w repo_root cached user_hint
             (c :: changed) stat Hread ltac:(discriminate) Hstat) in H.
  inversion H. exists (c :: changed), stat.
  repeat split; try reflexivity. discriminate.
Qed.

Lemma body_lines_head (stat : str) (changed : list ChangedFile) :
  changed <> [] ->
  exists first rest tl, body_lines stat changed = (0x2D%N :: tl) :: rest
                        /\ first = 0x2D%N :: tl.
Proof.
  intros Hne. destruct changed as [| c changed]; [congruence |].
  unfold body_lines, max_files. destruct (Py.is_empty stat).
  - cbn [firstn map app]. unfold file_line. eval_lits. cbn [app].
    eexists _, _, _. split; reflexivity.
  - eval_lits. cbn [app]. eexists _, _, _. split; reflexivity.
Qed.

Lemma body_starts_with_dash (stat : str) (changed : list ChangedFile) :
  changed <> [] ->
  exists rest,
    Py.strip (Py.join [NEWLINE] (body_lines stat changed)) = 0x2D%N :: rest.
Proof.
  intros Hne.
  destruct (@body_lines_head stat changed Hne) as (first & rest & tl & -> & _).
  destruct (join_head [NEWLINE] (0x2D%N :: tl) rest) as (more & ->).
  cbn [app]. apply strip_keeps_head. reflexivity.
Qed.

(** X10. When [build_message] returns a message its body is never empty: it
    begins with the dash of its first line. [main] then has to print, in
    JSON mode, the one JSON object and otherwise the subject line, the line
    "body:" and the body. It writes them in this order up to the first one
    that [sys.stdout] cannot encode; if there is none it returns 0, otherwise
    [UnicodeEncodeError] leaves it. Nothing goes to the error stream. *)
Theorem message_output (str_lower : str -> str) (encodes : printed -> bool)
  (w : World) (args : Args) (repo_root subject body : str) :
  cached args && worktree args = false ->
  _get_repo_root w = ([], Ok repo_root) ->
  build_message str_lower w repo_root (negb (worktree args)) (hint args)
  = Ok (subject, body) ->
  let prints :=
    if json args
    then [JsonDumps subject body]
    else [Text (lit "subject: " ++ subject); Text (lit "body:"); Text body] in
  (exists rest, body = 0x2D%N :: rest)
  /\ main str_lower encodes w args
     = (map Stdout (written encodes prints),
        if forallb encodes prints then Ok 0%Z else Raise UnicodeEncodeError)
  /\ (forallb encodes prints = true ->
      main str_lower encodes w args = (map Stdout prints, Ok 0%Z))
  /\ stderr_of (main str_lower encodes w args) = [].
Proof.
  intros Hargs Hroot Hbuild. cbv zeta.
  assert (Hbody : exists rest, body = 0x2D%N :: rest).
  { destruct (@build_message_ok_inv _ _ _ _ _ _ _ Hbuild)
      as (changed & stat & _ & Hne & _ & _ & ->).
    apply body_starts_with_dash. assumption. }
  split; [exact Hbody |].
  rewrite (@main_after_build str_lower encodes w args repo_root subject body
             Hargs Hroot Hbuild).
  destruct Hbody as (rest & ->).
  unfold message_prints. cbn [Py.is_empty].
  set (prints := if json args
                 then [JsonDumps subject (0x2D%N :: rest)]
                 else [Text (lit "subject: " ++ subject); Text (lit "body:");
                       Text (0x2D%N :: rest)]).
  assert (Hwritten : forall ps,
             forallb encodes ps = true -> written encodes ps = ps).
  { induction ps as [| q ps IH]; [reflexivity |]. cbn [forallb written].
    intros H. apply andb_prop in H. destruct H as [Hq Hps].
    rewrite Hq, (IH Hps). reflexivity. }
  assert (Hout : forall ps (res : result Z),
             stderr_of (map Stdout (written encodes ps), res) = []).
  { intros ps res. unfold stderr_of. cbn [fst].
    induction (written encodes ps) as [| q qs IH]; [reflexivity | exact IH]. }
  split; [reflexivity |].
  split; [| apply Hout].
  intros H. rewrite H, (Hwritten prints H). reflexivity.
Qed.

Lemma message_output_witness :
  cached plain_args && worktree plain_args = false
  /\ _get_repo_root login_world = ([], Ok (lit "/work/repo"))
  /\ main Py.ascii_lower utf8_stdout login_world plain_args
     = ([ Stdout (Text (lit "subject: feat: 新增登录功能"));
          Stdout (Text (lit "body:"));
          Stdout (Text (lit "- 统计：1 file changed, 42 insertions(+)"
                        ++ [NEWLINE] ++ lit "- A mobile-app/auth/login.tsx")) ],
        Ok 0%Z)
  /\ main Py.ascii_lower ascii_stdout login_world plain_args
     = ([], Raise UnicodeEncodeError).
Proof.
  assert (Hargs : cached plain_args && worktree plain_args = false)
    by reflexivity.
  assert (Hroot : _get_repo_root login_world = ([], Ok (lit "/work/repo")))
    by (vm_compute; reflexivity).
  assert (Hbuild : build_message Py.ascii_lower login_world (lit "/work/repo")
                     (negb (worktree plain_args)) (hint plain_args)
                   = Ok (lit "feat: 新增登录功能",
                         lit "- 统计：1 file changed, 42 insertions(+)"
                         ++ [NEWLINE] ++ lit "- A mobile-app/auth/login.tsx"))
    by (vm_compute; reflexivity).
  split; [exact Hargs |]. split; [exact Hroot |].
  split.
  - rewrite (proj1 (proj2 (@message_output Py.ascii_lower utf8_stdout
                             login_world plain_args _ _ _ Hargs Hroot Hbuild))).
    vm_compute. reflexivity.
  - rewrite (proj1 (proj2 (@message_output Py.ascii_lower ascii_stdout
                             login_world plain_args _ _ _ Hargs Hroot Hbuild))).
    vm_compute. reflexivity.
Defined.

(** ** The subject, continued *)

Lemma startswith_app (x y : str) : Py.startswith N.eqb (x ++ y) x = true.
Proof.
  induction x as [| a x IH]; simpl.
  - destruct y; reflexivity.
  - rewrite N.eqb_refl, IH. reflexivity.
Qed.

Lemma compact_subject_keeps_prefix (p0 : char) (p summary : str) :
  Py.isspace p0 = false ->
  length (p0 :: p) < 50 ->
  Py.startswith N.eqb (_compact_subject (p0 :: p) summary default_limit)
    ((p0 :: p) ++ [0x3A%N]) = true.
Proof.
  intros Hp Hlen.
  assert (Hstrip : forall rest,
             exists t, Py.strip ((p0 :: p) ++ lit ": " ++ rest)
                       = ((p0 :: p) ++ [0x3A%N]) ++ t).
  { intros rest. change (lit ": ") with [0x3A%N; 0x20%N]. cbn [app].
    destruct (@strip_keeps_prefix p0 p 0x3A%N (0x20%N :: rest) Hp eq_refl)
      as (t & ->).
    exists t. rewrite <- app_assoc. reflexivity. }
  unfold _compact_subject, default_limit.
  destruct (Hstrip summary) as (t & ->).
  match goal with |- context [Py.strip ((p0 :: p) ++ lit ": " ++ ?s2)] =>
    destruct (Hstrip s2) as (t2 & ->)
  end.
  destruct (Z.leb_spec (Z.of_nat (length (((p0 :: p) ++ [0x3A%N]) ++ t))) 50);
    [apply startswith_app |].
  destruct (Z.leb_spec (Z.of_nat (length (((p0 :: p) ++ [0x3A%N]) ++ t2))) 50);
    [apply startswith_app |].
  unfold Py.slice_to. change (50 <? 0)%Z with false. cbv iota.
  change (Z.to_nat 50) with 50.
  rewrite firstn_app, firstn_all2
    by (rewrite length_app; simpl in *; lia).
  apply startswith_app.
Qed.

Lemma infer_type_in_commit_types (str_lower : str -> str) (paths : list str)
  (user_hint : option str) :
  In (_infer_type str_lower paths user_hint) commit_types.
Proof.
  unfold _infer_type, commit_types.
  destruct (hint_says_fix user_hint); [cbn [In]; auto |].
  destruct (_is_docs_only str_lower paths); [cbn [In]; auto |].
  destruct (_is_test_only paths); [cbn [In]; auto |].
  destruct (_is_chore_only paths); cbn [In]; auto 10.
Qed.

Lemma commit_type_prefix (ty summary : str) :
  In ty commit_types ->
  Py.startswith N.eqb (_compact_subject ty summary default_limit)
    (ty ++ lit ":") = true.
Proof.
  unfold commit_types. cbn [In].
  intros [<- | [<- | [<- | [<- | [<- | []]]]]]; eval_lits;
    apply compact_subject_keeps_prefix; try reflexivity; simpl; lia.
Qed.

(** X11. The subject of every message that [build_message] returns starts
    with the commit type inferred for the ChangeSet and the hint, one of
    [fix], [docs], [test], [chore], [feat], followed by a colon; neither
    compaction nor truncation removes it. *)
Theorem subject_starts_with_type (str_lower : str -> str) (w : World)
  (repo_root : str) (cached : bool) (user_hint : option str)
  (subject body : str) :
  build_message str_lower w repo_root cached user_hint = Ok (subject, body) ->
  exists changed ty,
    read_changes w repo_root cached = Ok changed
    /\ ty = _infer_type str_lower (map path changed) user_hint
    /\ In ty commit_types
    /\ Py.startswith N.eqb subject (ty ++ lit ":") = true.
Proof.
  intros H.
  destruct (@build_message_ok_inv _ _ _ _ _ _ _ H)
    as (changed & stat & Hread & _ & _ & -> & _).
  exists changed, (_infer_type str_lower (map path changed) user_hint).
  split; [exact Hread |]. split; [reflexivity |].
  split; [apply infer_type_in_commit_types |].
  apply commit_type_prefix. apply infer_type_in_commit_types.
Qed.

Lemma subject_starts_with_type_witness :
  build_message Py.ascii_lower login_world (lit "/work/repo") true None
  = Ok (lit "feat: 新增登录功能",
        lit "- 统计：1 file changed, 42 insertions(+)"
        ++ [NEWLINE] ++ lit "- A mobile-app/auth/login.tsx")
  /\ exists changed ty,
       read_changes login_world (lit "/work/repo") true = Ok changed
       /\ ty = _infer_type Py.ascii_lower (map path changed) None
       /\ In ty commit_types
       /\ Py.startswith N.eqb (lit "feat: 新增登录功能") (ty ++ lit ":") = true.
Proof.
  assert (H : build_message Py.ascii_lower login_world (lit "/work/repo") true
                None
              = Ok (lit "feat: 新增登录功能",
                    lit "- 统计：1 file changed, 42 insertions(+)"
                    ++ [NEWLINE] ++ lit "- A mobile-app/auth/login.tsx"))
    by (vm_compute; reflexivity).
  split; [exact H |].
  exact (@subject_starts_with_type _ _ _ _ _ _ _ H).
Defined.

Lemma lstrip_blank (h : str) :
  forallb Py.isspace h = true -> Py.lstrip h = [].
Proof.
  induction h as [| c h IH]; simpl; [reflexivity |].
  intros H. apply andb_prop in H. destruct H as [Hc Hh].
  rewrite Hc. apply IH. assumption.
Qed.

Lemma strip_blank (h : str) : forallb Py.isspace h = true -> Py.strip h = [].
Proof. intros H. unfold Py.strip. rewrite (lstrip_blank h H). reflexivity. Qed.

Lemma contains_head (k0 : char) (k h : str) :
  Py.contains N.eqb (k0 :: k) h = true -> In k0 h.
Proof.
  induction h as [| c h IH]; simpl; [discriminate |].
  intros H. apply orb_prop in H. destruct H as [H | H].
  - apply andb_prop in H. destruct H as [H _].
    apply N.eqb_eq in H. left. assumption.
  - right. apply IH. assumption.
Qed.

Lemma blank_contains_no_word (k0 : char) (k h : str) :
  Py.isspace k0 = false -> forallb Py.isspace h = true ->
  Py.contains N.eqb (k0 :: k) h = false.
Proof.
  intros Hk Hh. destruct (Py.contains N.eqb (k0 :: k) h) eqn:E; [| reflexivity].
  apply contains_head in E.
  rewrite forallb_forall in Hh. rewrite (Hh _ E) in Hk. discriminate Hk.
Qed.

Lemma blank_hint_is_no_fix (h : str) :
  forallb Py.isspace h = true -> hint_says_fix (Some h) = false.
Proof.
  intros Hh. unfold hint_says_fix, fix_keywords. eval_lits. cbn [existsb].
  rewrite !(fun k0 k Hk => @blank_contains_no_word k0 k h Hk Hh)
    by reflexivity.
  apply andb_false_r.
Qed.

(** X12. A hint that is not empty but consists of white space only is taken
    as the summary all the same: the summary is then empty and the subject
    is the bare commit type with its colon, e.g. ["feat:"]. Such a hint
    never selects [fix]. *)
Theorem blank_hint_gives_bare_type (str_lower : str -> str) (w : World)
  (repo_root : str) (cached : bool) (h subject body : str) :
  h <> [] ->
  forallb Py.isspace h = true ->
  build_message str_lower w repo_root cached (Some h) = Ok (subject, body) ->
  exists ty,
    In ty [lit "docs"; lit "test"; lit "chore"; lit "feat"]
    /\ subject = ty ++ lit ":".
Proof.
  intros Hne Hblank H.
  destruct (@build_message_ok_inv _ _ _ _ _ _ _ H)
    as (changed & stat & _ & _ & _ & -> & _).
  unfold summary_of, truthy.
  destruct h as [| c h']; [congruence |]. cbn [Py.is_empty negb].
  rewrite (strip_blank _ Hblank).
  unfold _infer_type. rewrite (blank_hint_is_no_fix _ Hblank).
  destruct (_is_docs_only str_lower (map path changed));
    [exists (lit "docs"); split; [cbn [In]; auto | vm_compute; reflexivity] |].
  destruct (_is_test_only (map path changed));
    [exists (lit "test"); split; [cbn [In]; auto | vm_compute; reflexivity] |].
  destruct (_is_chore_only (map path changed));
    [exists (lit "chore"); split; [cbn [In]; auto | vm_compute; reflexivity] |].
  exists (lit "feat"). split; [cbn [In]; auto 10 | vm_compute; reflexivity].
Qed.

Lemma blank_hint_gives_bare_type_witness :
  lit "   " <> []
  /\ forallb Py.isspace (lit "   ") = true
  /\ build_message Py.ascii_lower thirteen_world (lit "/work/repo") true
       (Some (lit "   "))
     = Ok (lit "feat:",
           Py.join [NEWLINE]
             (map (fun n => lit "- M " ++ Utf8.decode (backend_file n)) (seq 1 12)
              ++ [lit "- ... 以及另外 1 个文件"]))
  /\ exists ty,
       In ty [lit "docs"; lit "test"; lit "chore"; lit "feat"]
       /\ lit "feat:" = ty ++ lit ":".
Proof.
  assert (Hne : lit "   " <> []) by (vm_compute; discriminate).
  assert (Hblank : forallb Py.isspace (lit "   ") = true)
    by (vm_compute; reflexivity).
  assert (H : build_message Py.ascii_lower thirteen_world (lit "/work/repo") true
                (Some (lit "   "))
              = Ok (lit "feat:",
                    Py.join [NEWLINE]
                      (map (fun n => lit "- M " ++ Utf8.decode (backend_file n))
                           (seq 1 12)
                       ++ [lit "- ... 以及另外 1 个文件"])))
    by (vm_compute; reflexivity).
  split; [exact Hne |]. split; [exact Hblank |]. split; [exact H |].
  exact (@blank_hint_gives_bare_type _ _ _ _ _ _ _ Hne Hblank H).
Defined.

(** ** The body, continued *)

Lemma body_strip_lines (lines : list str) (x : str) (z : char) :
  (exists tl, hd [] (lines ++ [x ++ [z]]) = 0x2D%N :: tl) ->
  Py.isspace z = false ->
  Py.strip (Py.join [NEWLINE] (lines ++ [x ++ [z]]))
  = Py.join [NEWLINE] (lines ++ [x ++ [z]]).
Proof.
  intros (tl & Hhd) Hz. destruct lines as [| l lines].
  - simpl in *. apply strip_unchanged.
    + exists 0x2D%N, tl. split; [assumption | reflexivity].
    + exists x, z. split; [reflexivity | assumption].
  - apply body_strip_unchanged; [discriminate | | assumption].
    exists tl. exact Hhd.
Qed.

Lemma file_line_dash (c : ChangedFile) :
  exists tl, file_line c = 0x2D%N :: tl.
Proof. unfold file_line. eval_lits. cbn [app]. eexists. reflexivity. Qed.

Lemma stat_lines_dash (stat : str) (more : list str) (tl : str) :
  hd [] more = 0x2D%N :: tl ->
  exists tl', hd [] (stat_lines stat ++ more) = 0x2D%N :: tl'.
Proof.
  intros H. unfold stat_lines. destruct (Py.is_empty stat).
  - exists tl. exact H.
  - eval_lits. cbn [app hd]. eexists. reflexivity.
Qed.

(** X13. When the ChangeSet has more than 12 entries, the body is the
    optional statistics line, the lines of the first 12 entries in order,
    and one last line that gives the number of the remaining entries in
    decimal. *)
Theorem body_with_overflow_line (str_lower : str -> str) (w : World)
  (repo_root : str) (cached : bool) (user_hint : option str)
  (changed : list ChangedFile) (stat : str) :
  read_changes w repo_root cached = Ok changed ->
  12 < length changed ->
  _shortstat w repo_root cached = Ok stat ->
  exists subject,
    build_message str_lower w repo_root cached user_hint
    = Ok (subject,
          Py.join [NEWLINE]
            (stat_lines stat
             ++ map file_line (firstn 12 changed)
             ++ [lit "- ... 以及另外 " ++ Py.str_of_nat (length changed - 12)
                 ++ lit " 个文件"])).
Proof.
  intros Hread Hlen Hstat.
  assert (Hne : changed <> []) by (intros ->; simpl in Hlen; lia).
  rewrite (@build_message_changes str_lower w repo_root cached user_hint
             changed stat Hread Hne Hstat).
  eexists. f_equal. f_equal. unfold body_lines, max_files. fold (stat_lines stat).
  replace (12 <? length changed) with true by (symmetry; apply Nat.ltb_lt; lia).
  change (lit " 个文件") with (lit " 个文" ++ [0x4EF6%N]).
  rewrite !app_assoc.
  apply body_strip_lines; [| reflexivity].
  rewrite <- app_assoc.
  destruct changed as [| c changed']; [congruence |]. cbn [firstn map].
  destruct (file_line_dash c) as (tl & Hc).
  apply (@stat_lines_dash stat _ tl). cbn [app hd]. exact Hc.
Qed.

Lemma body_with_overflow_line_witness :
  read_changes thirteen_world (lit "/work/repo") true
  = Ok (map (fun n => {| status := lit "M";
                         path := Utf8.decode (backend_file n) |}) (seq 1 13))
  /\ 12 < length (map (fun n => {| status := lit "M";
                                   path := Utf8.decode (backend_file n) |})
                      (seq 1 13))
  /\ exists subject,
       build_message Py.ascii_lower thirteen_world (lit "/work/repo") true None
       = Ok (subject,
             Py.join [NEWLINE]
               (map (fun n => lit "- M " ++ Utf8.decode (backend_file n))
                    (seq 1 12)
                ++ [lit "- ... 以及另外 1 个文件"])).
Proof.
  assert (Hread : read_changes thirteen_world (lit "/work/repo") true
                  = Ok (map (fun n => {| status := lit "M";
                                         path := Utf8.decode (backend_file n) |})
                            (seq 1 13))) by (vm_compute; reflexivity).
  assert (Hlen : 12 < length (map (fun n => {| status := lit "M";
                                               path := Utf8.decode (backend_file n) |})
                                  (seq 1 13))) by (vm_compute; lia).
  assert (Hstat : _shortstat thirteen_world (lit "/work/repo") true = Ok [])
    by (vm_compute; reflexivity).
  split; [exact Hread |]. split; [exact Hlen |].
  destruct (@body_with_overflow_line Py.ascii_lower thirteen_world
              (lit "/work/repo") true None _ _ Hread Hlen Hstat)
    as (subject & Hbuild).
  exists subject. rewrite Hbuild. vm_compute. reflexivity.
Defined.

(** X14. When the ChangeSet has at most 12 entries and the path of the last
    one does not end in white space, the body is the optional statistics
    line followed by the line of every entry, in order, and nothing else. *)
Theorem body_without_overflow_line (str_lower : str -> str) (w : World)
  (repo_root : str) (cached : bool) (user_hint : option str)
  (init : list ChangedFile) (c : ChangedFile) (x : str) (z : char)
  (stat : str) :
  read_changes w repo_root cached = Ok (init ++ [c]) ->
  length (init ++ [c]) <= 12 ->
  path c = x ++ [z] ->
  Py.isspace z = false ->
  _shortstat w repo_root cached = Ok stat ->
  exists subject,
    build_message str_lower w repo_root cached user_hint
    = Ok (subject,
          Py.join [NEWLINE] (stat_lines stat ++ map file_line (init ++ [c]))).
Proof.
  intros Hread Hlen Hpath Hz Hstat.
  assert (Hne : init ++ [c] <> []) by (destruct init; discriminate).
  rewrite (@build_message_changes str_lower w repo_root cached user_hint
             (init ++ [c]) stat Hread Hne Hstat).
  eexists. f_equal. f_equal. unfold body_lines, max_files. fold (stat_lines stat).
  replace (12 <? length (init ++ [c])) with false
    by (symmetry; apply Nat.ltb_ge; lia).
  rewrite firstn_all2 by assumption. rewrite app_nil_r.
  rewrite map_app. cbn [map]. unfold file_line at 2 4. rewrite Hpath.
  replace (lit "- " ++ status c ++ lit " " ++ x ++ [z])
    with ((lit "- " ++ status c ++ lit " " ++ x) ++ [z])
    by (rewrite <- !app_assoc; reflexivity).
  rewrite app_assoc.
  apply body_strip_lines; [| assumption].
  rewrite <- app_assoc.
  destruct init as [| c0 init'].
  - eapply stat_lines_dash. cbn [map app hd]. eval_lits. cbn [app]. reflexivity.
  - destruct (file_line_dash c0) as (tl & Hc0).
    apply (@stat_lines_dash stat _ tl). cbn [map app hd]. exact Hc0.
Qed.

Lemma body_without_overflow_line_witness :
  read_changes login_world (lit "/work/repo") true = Ok ([] ++ login_added)
  /\ length ([] ++ login_added) <= 12
  /\ login_path = lit "mobile-app/auth/login.ts" ++ [0x78%N]
  /\ Py.isspace 0x78%N = false
  /\ exists subject,
       build_message Py.ascii_lower login_world (lit "/work/repo") true None
       = Ok (subject,
             lit "- 统计：1 file changed, 42 insertions(+)"
             ++ [NEWLINE] ++ lit "- A mobile-app/auth/login.tsx").
Proof.
  assert (Hread : read_changes login_world (lit "/work/repo") true
                  = Ok ([] ++ login_added)) by (vm_compute; reflexivity).
  assert (Hlen : length ([] ++ login_added) <= 12) by (vm_compute; lia).
  assert (Hpath : login_path = lit "mobile-app/auth/login.ts" ++ [0x78%N])
    by (vm_compute; reflexivity).
  assert (Hstat : _shortstat login_world (lit "/work/repo") true
                  = Ok (lit "1 file changed, 42 insertions(+)"))
    by (vm_compute; reflexivity).
  split; [exact Hread |]. split; [exact Hlen |]. split; [exact Hpath |].
  split; [reflexivity |].
  destruct (@body_without_overflow_line Py.ascii_lower login_world
              (lit "/work/repo") true None []
              {| status := lit "A"; path := login_path |}
              (lit "mobile-app/auth/login.ts") 0x78%N _
              Hread Hlen Hpath eq_refl Hstat) as (subject & Hbuild).
  exists subject. rewrite Hbuild. vm_compute. reflexivity.
Defined.

(** ** The object *)

Lemma keyword_scores_eq (str_lower : str -> str) (changed : list ChangedFile) :
  keyword_scores str_lower changed
  = score_keywords object_keywords
      (map (fun c => (str_lower (path c), status c)) changed) [].
Proof. reflexivity. Qed.

Lemma set_not_nil {V} (d : list (str * V)) (k : str) (v : V) :
  Dict.set d k v <> [].
Proof.
  destruct d as [| [k' v'] d]; simpl; [discriminate |].
  destruct (str_eqb k' k); discriminate.
Qed.

Lemma set_keys {V} (d : list (str * V)) (k : str) (v : V) :
  incl (map fst (Dict.set d k v)) (k :: map fst d).
Proof.
  induction d as [| [k' v'] d IH]; simpl.
  - intros x H. exact H.
  - destruct (str_eqb k' k); simpl.
    + intros x [<- | H]; [right; left; reflexivity | right; right; exact H].
    + intros x [<- | H]; [right; left; reflexivity |].
      destruct (IH x H) as [<- | H']; [left; reflexivity | right; right; exact H'].
Qed.

Lemma score_items_keeps (needle zh : str) (items : list (str * str)) :
  forall score, score <> [] -> score_items needle zh items score <> [].
Proof.
  unfold score_items.
  induction items as [| [p st] items IH]; intros score Hne; simpl; [exact Hne |].
  apply IH. destruct (Py.contains N.eqb needle p); [apply set_not_nil | exact Hne].
Qed.

Lemma score_items_miss (needle zh : str) (items : list (str * str)) :
  forall score,
  (forall it, In it items -> Py.contains N.eqb needle (fst it) = false) ->
  score_items needle zh items score = score.
Proof.
  unfold score_items.
  induction items as [| [p st] items IH]; intros score Hmiss; simpl;
    [reflexivity |].
  pose proof (Hmiss (p, st) (or_introl eq_refl)) as E. simpl in E. rewrite E.
  apply IH. intros it Hit. apply Hmiss. right. exact Hit.
Qed.

Lemma score_items_hit (needle zh : str) (items : list (str * str)) :
  forall score,
  (exists it, In it items /\ Py.contains N.eqb needle (fst it) = true) ->
  score_items needle zh items score <> [].
Proof.
  induction items as [| [p st] items IH]; intros score (it & Hin & Hit);
    [destruct Hin |].
  change (score_items needle zh ((p, st) :: items) score)
    with (score_items needle zh items
            (if Py.contains N.eqb needle p
             then Dict.set score zh (Dict.get score zh 0 + weight st)%Z
             else score)).
  destruct (Py.contains N.eqb needle p) eqn:Ep.
  - apply score_items_keeps, set_not_nil.
  - apply IH. destruct Hin as [<- | Hin].
    + simpl in Hit. congruence.
    + exists it. split; assumption.
Qed.

Lemma score_items_keys (needle zh : str) (items : list (str * str)) :
  forall score,
  incl (map fst (score_items needle zh items score)) (zh :: map fst score).
Proof.
  unfold score_items.
  induction items as [| [p st] items IH]; intros score; simpl.
  - intros x H. right. exact H.
  - destruct (Py.contains N.eqb needle p); [| apply IH].
    intros x H. apply IH in H. destruct H as [<- | H]; [left; reflexivity |].
    apply set_keys in H. exact H.
Qed.

Lemma score_keywords_keeps (kws : list (str * str)) (items : list (str * str)) :
  forall score, score <> [] -> score_keywords kws items score <> [].
Proof.
  unfold score_keywords.
  induction kws as [| [needle zh] kws IH]; intros score Hne; simpl;
    [exact Hne |].
  apply IH, score_items_keeps, Hne.
Qed.

Lemma score_keywords_nil (kws : list (str * str)) (items : list (str * str)) :
  score_keywords kws items [] = [] <->
  forall kw it, In kw kws -> In it items ->
                Py.contains N.eqb (fst kw) (fst it) = false.
Proof.
  induction kws as [| [needle zh] kws IH].
  - split; [intros _ kw it [] | reflexivity].
  - change (score_keywords ((needle, zh) :: kws) items [])
      with (score_keywords kws items (score_items needle zh items [])).
    split.
    + intros E kw it Hkw Hit.
      destruct (score_items needle zh items []) as [| x l] eqn:Es.
      * destruct Hkw as [<- | Hkw]; [| apply (proj1 IH E); assumption].
        simpl. destruct (Py.contains N.eqb needle (fst it)) eqn:Ec;
          [| reflexivity].
        exfalso. apply (@score_items_hit needle zh items []); [| exact Es].
        exists it. split; assumption.
      * exfalso. apply (@score_keywords_keeps kws items (x :: l));
          [discriminate | exact E].
    + intros Hmiss.
      rewrite score_items_miss
        by (intros it Hit; apply (Hmiss (needle, zh) it); [left; reflexivity | exact Hit]).
      apply IH. intros kw it Hkw Hit. apply Hmiss; [right; exact Hkw | exact Hit].
Qed.

Lemma score_keywords_keys (kws : list (str * str)) (items : list (str * str)) :
  forall score,
  incl (map fst (score_keywords kws items score))
       (map snd kws ++ map fst score).
Proof.
  unfold score_keywords.
  induction kws as [| [needle zh] kws IH]; intros score; simpl.
  - intros x H. exact H.
  - intros x H. apply IH in H. apply in_app_or in H.
    destruct H as [H | H]; [right; apply in_or_app; left; exact H |].
    apply score_items_keys in H.
    destruct H as [<- | H]; [left; reflexivity |].
    right. apply in_or_app. right. exact H.
Qed.

Lemma priority_scan_some (str_lower : str -> str) (changed : list ChangedFile)
  (label : str) :
  priority_scan str_lower changed = Some label ->
  exists c needle,
    In c changed /\ In (needle, label) object_keywords
    /\ Py.contains N.eqb needle (str_lower (path c)) = true.
Proof.
  induction changed as [| c changed IH]; simpl; [discriminate |].
  destruct (str_eqb (status c) (lit "A")
            && Py.contains N.eqb (lit "about") (str_lower (path c))) eqn:Ea.
  { intros E. inversion E; subst. apply andb_prop in Ea. destruct Ea as [_ Ea].
    exists c, (lit "about"). split; [left; reflexivity |].
    split; [left; reflexivity | exact Ea]. }
  destruct (str_eqb (status c) (lit "A")
            && Py.contains N.eqb (lit "privacy") (str_lower (path c))) eqn:Ep.
  { intros E. inversion E; subst. apply andb_prop in Ep. destruct Ep as [_ Ep].
    exists c, (lit "privacy"). split; [left; reflexivity |].
    split; [right; left; reflexivity | exact Ep]. }
  intros E. destruct (IH E) as (c' & needle & Hin & Hkw & Hc).
  exists c', needle. split; [right; exact Hin | split; assumption].
Qed.

(** X15. [_infer_object] returns no object exactly when none of the 18
    keywords occurs in the lower-cased path of any changed file, and every
    object it returns is a label of the keyword table. *)
Theorem infer_object_none_iff_no_keyword (str_lower : str -> str)
  (changed : list ChangedFile) :
  (_infer_object str_lower changed = None <->
   forall c kw, In c changed -> In kw object_keywords ->
                Py.contains N.eqb (fst kw) (str_lower (path c)) = false)
  /\ (forall label,
        _infer_object str_lower changed = Some label ->
        In label (map snd object_keywords)).
Proof.
  unfold _infer_object. rewrite keyword_scores_eq. split; [split |].
  - intros E.
    destruct (priority_scan str_lower changed); [discriminate |].
    destruct (score_keywords object_keywords _ []) as [| first rest] eqn:Es;
      [| discriminate].
    intros c kw Hc Hkw.
    apply (proj1 (score_keywords_nil _ _) Es kw
             (str_lower (path c), status c) Hkw).
    apply in_map_iff. exists c. split; [reflexivity | exact Hc].
  - intros Hmiss.
    destruct (priority_scan str_lower changed) as [label |] eqn:Ep.
    { exfalso. destruct (priority_scan_some _ _ Ep) as (c & needle & Hc & Hkw & E).
      pose proof (Hmiss c (needle, label) Hc Hkw) as E'. simpl in E'.
      rewrite E' in E. discriminate E. }
    rewrite (proj2 (score_keywords_nil object_keywords
                      (map (fun c => (str_lower (path c), status c)) changed)));
      [reflexivity |].
    intros kw it Hkw Hit. apply in_map_iff in Hit.
    destruct Hit as (c & <- & Hc). simpl. apply Hmiss; assumption.
  - intros label.
    destruct (priority_scan str_lower changed) as [l |] eqn:Ep.
    { intros E. inversion E; subst.
      destruct (priority_scan_some _ _ Ep) as (c & needle & _ & Hkw & _).
      apply in_map_iff. exists (needle, label). split; [reflexivity | exact Hkw]. }
    destruct (score_keywords object_keywords _ []) as [| first rest] eqn:Es;
      [discriminate |].
    intros E. inversion E; subst.
    destruct (max_scan_split first rest) as (a & b & Esplit & _ & _).
    pose proof (@score_keywords_keys object_keywords
                  (map (fun c => (str_lower (path c), status c)) changed) [])
      as Hkeys.
    rewrite Es, app_nil_r in Hkeys. apply Hkeys.
    rewrite Esplit, map_app. apply in_or_app. right. left. reflexivity.
Qed.

Lemma infer_object_none_iff_no_keyword_witness :
  _infer_object Py.ascii_lower
    [{| status := lit "M"; path := lit "src/main.go" |}] = None
  /\ (forall c kw,
        In c [{| status := lit "M"; path := lit "src/main.go" |}] ->
        In kw object_keywords ->
        Py.contains N.eqb (fst kw) (Py.ascii_lower (path c)) = false).
Proof.
  assert (H : _infer_object Py.ascii_lower
                [{| status := lit "M"; path := lit "src/main.go" |}] = None)
    by (vm_compute; reflexivity).
  split; [exact H |].
  exact (proj1 (proj1 (infer_object_none_iff_no_keyword Py.ascii_lower
                         [{| status := lit "M"; path := lit "src/main.go" |}]))
           H).
Defined.

(** X16. A newly added file whose lower-cased path contains [about] decides
    the object, whatever the other files score: unless an added file
    mentions [privacy], the object is the "about us" label. *)
Theorem new_about_page_has_priority (str_lower : str -> str)
  (changed : list ChangedFile) :
  (exists c, In c changed /\ status c = lit "A"
             /\ Py.contains N.eqb (lit "about") (str_lower (path c)) = true) ->
  (forall c, In c changed -> status c = lit "A" ->
             Py.contains N.eqb (lit "privacy") (str_lower (path c)) = false) ->
  _infer_object str_lower changed = Some (lit "关于我们").
Proof.
  intros Habout Hpriv. unfold _infer_object.
  assert (H : priority_scan str_lower changed = Some (lit "关于我们")).
  { induction changed as [| c changed IH]; [destruct Habout as (c & [] & _) |].
    simpl.
    destruct (str_eqb (status c) (lit "A")
              && Py.contains N.eqb (lit "about") (str_lower (path c))) eqn:Ea;
      [reflexivity |].
    destruct (str_eqb (status c) (lit "A")) eqn:Es.
    - apply str_eqb_eq in Es.
      rewrite (Hpriv c (or_introl eq_refl) Es). simpl.
      apply IH.
      + destruct Habout as (c' & [<- | Hin] & Hst & Hc).
        * simpl in Ea. rewrite Hc in Ea. discriminate Ea.
        * exists c'. auto.
      + intros c' Hin. apply Hpriv. right. exact Hin.
    - simpl. apply IH.
      + destruct Habout as (c' & [<- | Hin] & Hst & Hc).
        * apply str_eqb_eq in Hst. congruence.
        * exists c'. auto.
      + intros c' Hin. apply Hpriv. right. exact Hin. }
  rewrite H. reflexivity.
Qed.

Lemma new_about_page_has_priority_witness :
  (exists c, In c about_changes /\ status c = lit "A"
             /\ Py.contains N.eqb (lit "about") (Py.ascii_lower (path c)) = true)
  /\ keyword_scores Py.ascii_lower about_changes
     = [(lit "关于我们", 3%Z); (lit "播放器", 3%Z)]
  /\ _infer_object Py.ascii_lower about_changes = Some (lit "关于我们").
Proof.
  assert (Ha : exists c, In c about_changes /\ status c = lit "A"
                         /\ Py.contains N.eqb (lit "about")
                              (Py.ascii_lower (path c)) = true).
  { exists {| status := lit "A"; path := lit "app/pages/About.tsx" |}.
    split; [right; right; left; reflexivity |].
    split; [reflexivity | vm_compute; reflexivity]. }
  assert (Hp : forall c, In c about_changes -> status c = lit "A" ->
                         Py.contains N.eqb (lit "privacy")
                           (Py.ascii_lower (path c)) = false).
  { intros c [<- | [<- | [<- | [<- | []]]]] _; vm_compute; reflexivity. }
  split; [exact Ha |]. split; [vm_compute; reflexivity |].
  exact (new_about_page_has_priority Py.ascii_lower about_changes Ha Hp).
Defined.

(** ** The area, continued *)

(** X17. A top-level segment that occurs strictly more often than every
    other one is the dominant area, wherever it first occurs; in particular
    when all paths share their top-level segment. *)
Theorem strict_plurality_wins (paths : list str) (segment : str) :
  paths <> [] ->
  (forall s, s <> segment ->
             (count s (map top_segment paths)
              < count segment (map top_segment paths))%Z) ->
  _dominant_area paths = display_name segment.
Proof.
  intros Hne Hmost. unfold _dominant_area. rewrite tally_tops_bump.
  destruct (fold_left bump (map top_segment paths) []) as [| first rest] eqn:E.
  - exfalso. rewrite tally_tabulate in E. unfold tabulate in E.
    apply map_eq_nil in E.
    destruct paths as [| p paths]; [congruence |].
    assert (H : In (top_segment p) (firsts (map top_segment (p :: paths))))
      by (apply firsts_in; left; reflexivity).
    rewrite E in H. destruct H.
  - destruct (tally_max_is_plurality _ E) as (pre & post & _ & _ & _ & Hmax).
    unfold display_name.
    destruct (str_eq_dec (fst (Dict.max_scan first rest)) segment) as [-> | Hd];
      [reflexivity |].
    exfalso. specialize (Hmost _ Hd). specialize (Hmax segment). lia.
Qed.

Lemma strict_plurality_wins_witness :
  [lit "docs/a.md"; lit "backend/x.go"; lit "backend/y.go"] <> []
  /\ _dominant_area [lit "docs/a.md"; lit "backend/x.go"; lit "backend/y.go"]
     = display_name (lit "backend").
Proof.
  assert (Hne : [lit "docs/a.md"; lit "backend/x.go"; lit "backend/y.go"] <> [])
    by discriminate.
  split; [exact Hne |].
  apply (@strict_plurality_wins _ (lit "backend") Hne).
  intros s Hs.
  assert (Hb : count (lit "backend")
                 (map top_segment
                    [lit "docs/a.md"; lit "backend/x.go"; lit "backend/y.go"])
               = 2%Z) by (vm_compute; reflexivity).
  assert (Hm : map top_segment
                 [lit "docs/a.md"; lit "backend/x.go"; lit "backend/y.go"]
               = [lit "docs"; lit "backend"; lit "backend"])
    by (vm_compute; reflexivity).
  rewrite Hb, Hm. unfold count. cbn [count_occ].
  destruct (str_eq_dec (lit "docs") s) as [E1 | E1];
    destruct (str_eq_dec (lit "backend") s) as [E2 | E2];
    try congruence; lia.
Defined.

(** ** The commit type, continued *)

Lemma infer_type_docs (str_lower : str -> str) (paths : list str)
  (user_hint : option str) :
  _is_docs_only str_lower paths = false ->
  _infer_type str_lower paths user_hint <> lit "docs".
Proof.
  intros H. unfold _infer_type. rewrite H.
  destruct (hint_says_fix user_hint); [vm_compute; discriminate |].
  destruct (_is_test_only paths); [vm_compute; discriminate |].
  destruct (_is_chore_only paths); vm_compute; discriminate.
Qed.

(** X18. For ASCII paths and no hint, [_infer_type] returns [docs] when
    every path lies under [docs/] or ends in [.md] in any letter case; one
    path that does neither prevents [docs], with or without a hint. *)
Theorem docs_only_type (str_lower : str -> str) (paths : list str) :
  lower_on_ascii str_lower ->
  paths <> [] ->
  (forall p, In p paths -> Py.is_ascii p = true) ->
  ((forall p, In p paths ->
              Py.startswith N.eqb p (lit "docs/") = true
              \/ Py.endswith N.eqb (Py.ascii_lower p) (lit ".md") = true) ->
   _infer_type str_lower paths None = lit "docs")
  /\ ((exists p, In p paths
                 /\ Py.startswith N.eqb p (lit "docs/") = false
                 /\ Py.endswith N.eqb (Py.ascii_lower p) (lit ".md") = false) ->
      forall user_hint, _infer_type str_lower paths user_hint <> lit "docs").
Proof.
  intros Hlower Hne Hascii. split.
  - intros Hall.
    assert (H : _is_docs_only str_lower paths = true).
    { unfold _is_docs_only. destruct paths as [| p0 paths]; [congruence |].
      cbn [Py.is_empty]. apply forallb_forall. intros p Hp.
      rewrite (Hlower p (Hascii p Hp)).
      destruct (Hall p Hp) as [-> | ->]; [reflexivity | apply orb_true_r]. }
    unfold _infer_type. cbn [hint_says_fix]. rewrite H. reflexivity.
  - intros (p & Hp & Hdir & Hext) user_hint. apply infer_type_docs.
    unfold _is_docs_only. destruct paths as [| p0 paths]; [reflexivity |].
    cbn [Py.is_empty].
    destruct (forallb _ (p0 :: paths)) eqn:E; [| reflexivity].
    rewrite forallb_forall in E. specialize (E p Hp).
    rewrite (Hlower p (Hascii p Hp)), Hdir, Hext in E. discriminate E.
Qed.

Lemma docs_only_type_witness :
  lower_on_ascii Py.ascii_lower
  /\ _infer_type Py.ascii_lower [lit "docs/img/logo.png"; lit "README.MD"] None
     = lit "docs"
  /\ _infer_type Py.ascii_lower [lit "docs/img/logo.png"; lit "src/README.txt"]
       None <> lit "docs".
Proof.
  assert (Hl : lower_on_ascii Py.ascii_lower) by (intros s _; reflexivity).
  split; [exact Hl |]. split.
  - apply (proj1 (@docs_only_type Py.ascii_lower
                    [lit "docs/img/logo.png"; lit "README.MD"] Hl
                    ltac:(discriminate)
                    ltac:(intros p [<- | [<- | []]]; vm_compute; reflexivity))).
    intros p [<- | [<- | []]]; [left | right]; vm_compute; reflexivity.
  - apply (proj2 (@docs_only_type Py.ascii_lower
                    [lit "docs/img/logo.png"; lit "src/README.txt"] Hl
                    ltac:(discriminate)
                    ltac:(intros p [<- | [<- | []]]; vm_compute; reflexivity))).
    exists (lit "src/README.txt"). split; [right; left; reflexivity |].
    split; vm_compute; reflexivity.
Defined.

(** ** Test files and configuration files *)

Lemma split_not_nil (p : str) : Py.split N.eqb SLASH p <> [].
Proof.
  induction p as [| c p IH]; simpl; [discriminate |].
  destruct (c =? SLASH)%N; [discriminate |].
  destruct (Py.split N.eqb SLASH p); [congruence | discriminate].
Qed.

(** The first piece of [split] is a prefix that ends the string or stops
    before a slash. *)
Lemma split_head (p : str) :
  forall h t, Py.split N.eqb SLASH p = h :: t ->
  exists post, p = h ++ post /\ (post = [] \/ exists post', post = SLASH :: post').
Proof.
  induction p as [| c p IH]; intros h t E; simpl in E.
  - inversion E; subst. exists []. split; [reflexivity | left; reflexivity].
  - destruct (N.eqb_spec c SLASH) as [-> | Hc].
    + inversion E; subst. exists (SLASH :: p).
      split; [reflexivity | right; eexists; reflexivity].
    + destruct (Py.split N.eqb SLASH p) as [| h' t'] eqn:Es;
        [exfalso; exact (split_not_nil p Es) |].
      inversion E; subst.
      destruct (IH h' t eq_refl) as (post & -> & Hpost).
      exists post. split; [reflexivity | exact Hpost].
Qed.

(** Every later piece of [split] stands right after a slash. *)
Lemma split_tail (p : str) :
  forall h t name, Py.split N.eqb SLASH p = h :: t -> In name t ->
  exists pre post,
    p = pre ++ SLASH :: name ++ post
    /\ (post = [] \/ exists post', post = SLASH :: post').
Proof.
  induction p as [| c p IH]; intros h t name E Hin; simpl in E.
  - inversion E; subst. destruct Hin.
  - destruct (Py.split N.eqb SLASH p) as [| h' t'] eqn:Es;
      [exfalso; exact (split_not_nil p Es) |].
    destruct (N.eqb_spec c SLASH) as [-> | Hc].
    + inversion E; subst. destruct Hin as [<- | Hin].
      * destruct (split_head p Es) as (post & -> & Hpost).
        exists [], post. split; [reflexivity | exact Hpost].
      * destruct (IH h' t' name eq_refl Hin) as (pre & post & -> & Hpost).
        exists (SLASH :: pre), post. split; [reflexivity | exact Hpost].
    + inversion E; subst.
      destruct (IH h' t name eq_refl Hin) as (pre & post & -> & Hpost).
      exists (c :: pre), post. split; [reflexivity | exact Hpost].
Qed.

Lemma search_from_here (m : bool -> str -> bool) (b : bool) (s : str) :
  m b s = true -> Re.search_from m b s = true.
Proof. intros H. destruct s; simpl; rewrite H; reflexivity. Qed.

Lemma search_from_later (m : bool -> str -> bool) (pre s : str) :
  (forall b, m b s = true) ->
  forall b, Re.search_from m b (pre ++ s) = true.
Proof.
  intros Hm. induction pre as [| c pre IH]; intros b.
  - apply search_from_here, Hm.
  - simpl. rewrite IH. apply orb_true_r.
Qed.

Lemma skipn_own_length (x y : str) : skipn (length x) (x ++ y) = y.
Proof. induction x; simpl; auto. Qed.

Lemma word_sep_at (name post : str) :
  post = [] \/ (exists post', post = SLASH :: post') ->
  Re.word_sep name (name ++ post) = true.
Proof.
  intros Hpost. unfold Re.word_sep.
  rewrite startswith_app, skipn_own_length. cbn [andb].
  destruct Hpost as [-> | (post' & ->)]; [reflexivity |].
  change (lit "/") with [SLASH]. cbn [Py.startswith].
  rewrite N.eqb_refl. destruct post'; reflexivity.
Qed.

Lemma startswith_inv (s x : str) :
  Py.startswith N.eqb s x = true -> exists r, s = x ++ r.
Proof.
  revert s. induction x as [| a x IH]; intros s H.
  - exists s. reflexivity.
  - destruct s as [| c s]; [discriminate |]. simpl in H.
    apply andb_prop in H. destruct H as [Hc Hs].
    apply N.eqb_eq in Hc. subst c.
    destruct (IH s Hs) as (r & ->). exists r. reflexivity.
Qed.

Lemma endswith_inv (s x : str) :
  Py.endswith N.eqb s x = true -> exists pre, s = pre ++ x.
Proof.
  unfold Py.endswith. intros H. apply startswith_inv in H.
  destruct H as (r & H). exists (rev r).
  rewrite <- (rev_involutive s), H, rev_app_distr, rev_involutive. reflexivity.
Qed.

Lemma test_dir_found (name : str) (p : str) :
  In name test_dir_names -> In name (Py.split N.eqb SLASH p) ->
  existsb (fun r => Re.search r p) test_patterns = true.
Proof.
  intros Hname Hin.
  assert (Hm : forall post,
             post = [] \/ (exists post', post = SLASH :: post') ->
             Re.word_sep (lit "__tests__") (name ++ post) = true
             \/ (Re.word_sep (lit "tests") (name ++ post)
                 || Re.word_sep (lit "test") (name ++ post)) = true).
  { intros post Hpost. unfold test_dir_names in Hname. cbn [In] in Hname.
    destruct Hname as [<- | [<- | [<- | []]]].
    - right. rewrite (word_sep_at _ Hpost). apply orb_true_r.
    - right. rewrite (word_sep_at _ Hpost). reflexivity.
    - left. apply word_sep_at, Hpost. }
  assert (Hfound : Re.search Re.dunder_tests_dir p = true
                   \/ Re.search Re.tests_dir p = true).
  { destruct (Py.split N.eqb SLASH p) as [| h t] eqn:Es; [destruct Hin |].
    destruct Hin as [-> | Hin].
    - destruct (split_head p Es) as (post & -> & Hpost).
      destruct (Hm post Hpost) as [H | H]; [left | right];
        apply search_from_here; unfold Re.dunder_tests_dir, Re.tests_dir,
          Re.after_sep; rewrite H; reflexivity.
    - destruct (@split_tail p h t name Es Hin) as (pre & post & -> & Hpost).
      destruct (Hm post Hpost) as [H | H]; [left | right];
        apply search_from_later; intros b;
        unfold Re.dunder_tests_dir, Re.tests_dir, Re.after_sep;
        rewrite N.eqb_refl, H; apply orb_true_r. }
  unfold test_patterns. cbn [existsb].
  destruct Hfound as [-> | ->]; rewrite ?orb_true_r; reflexivity.
Qed.

Lemma test_suffix_found (m : bool -> str -> bool) (suffix p : str) :
  (forall b, m b suffix = true) ->
  Py.endswith N.eqb p suffix = true ->
  Re.search m p = true.
Proof.
  intros Hm H. destruct (@endswith_inv _ _ H) as (pre & ->).
  apply search_from_later, Hm.
Qed.

(** X19. A list of paths, not empty, is test-only when every path has a
    directory or file [test], [tests] or [__tests__] among its segments, or
    ends in [_test.go], or ends in [.spec] or [.test] followed by [.ts],
    [.tsx], [.js] or [.jsx]. *)
Theorem test_paths_are_test_only (paths : list str) :
  paths <> [] ->
  (forall p, In p paths -> looks_like_test p) ->
  _is_test_only paths = true.
Proof.
  intros Hne Hall. unfold _is_test_only.
  destruct paths as [| p0 paths]; [congruence |]. cbn [Py.is_empty].
  apply forallb_forall. intros p Hp.
  destruct (Hall p Hp) as [(name & Hname & Hin) | [Hgo | (suffix & Hs & Hend)]].
  - exact (@test_dir_found name p Hname Hin).
  - unfold test_patterns. cbn [existsb].
    rewrite (@test_suffix_found Re.go_test (lit "_test.go") p
               ltac:(intros b; vm_compute; reflexivity) Hgo).
    reflexivity.
  - unfold test_patterns. cbn [existsb].
    rewrite (@test_suffix_found Re.js_test suffix p).
    + apply orb_true_r.
    + intros b. unfold js_test_suffixes in Hs. cbn [In] in Hs.
      repeat (destruct Hs as [<- | Hs]; [vm_compute; reflexivity |]).
      destruct Hs.
    + exact Hend.
Qed.

Lemma test_paths_are_test_only_witness :
  [lit "pkg/db/tests/fixtures/users.sql"; lit "ui/Button.spec.tsx"] <> []
  /\ (forall p,
        In p [lit "pkg/db/tests/fixtures/users.sql"; lit "ui/Button.spec.tsx"] ->
        looks_like_test p)
  /\ _is_test_only
       [lit "pkg/db/tests/fixtures/users.sql"; lit "ui/Button.spec.tsx"] = true.
Proof.
  assert (Hne : [lit "pkg/db/tests/fixtures/users.sql"; lit "ui/Button.spec.tsx"]
                <> []) by discriminate.
  assert (Hall : forall p,
             In p [lit "pkg/db/tests/fixtures/users.sql";
                   lit "ui/Button.spec.tsx"] ->
             looks_like_test p).
  { intros p [<- | [<- | []]].
    - left. exists (lit "tests"). split; [right; left; reflexivity |].
      vm_compute. right; right; left; reflexivity.
    - right. right. exists (lit ".spec.tsx").
      split; [right; left; reflexivity | vm_compute; reflexivity]. }
  split; [exact Hne |]. split; [exact Hall |].
  exact (@test_paths_are_test_only _ Hne Hall).
Defined.

Lemma split_no_slash (name : str) :
  forallb (fun c => negb (c =? SLASH)%N) name = true ->
  Py.split N.eqb SLASH name = [name].
Proof.
  induction name as [| c name IH]; simpl; intros H; [reflexivity |].
  apply andb_prop in H. destruct H as [Hc Hn].
  apply negb_true_iff in Hc. rewrite Hc, (IH Hn). reflexivity.
Qed.

Lemma split_after_slash (dir rest : str) :
  exists f front,
    Py.split N.eqb SLASH (dir ++ SLASH :: rest)
    = (f :: front) ++ Py.split N.eqb SLASH rest.
Proof.
  induction dir as [| c dir IH]; simpl.
  - exists [], []. reflexivity.
  - destruct IH as (f & front & ->).
    destruct (c =? SLASH)%N.
    + exists [], (f :: front). reflexivity.
    + exists (c :: f), front. reflexivity.
Qed.

Lemma last_app_nonempty {A} (l1 l2 : list A) (d : A) :
  l2 <> [] -> last (l1 ++ l2) d = last l2 d.
Proof.
  intros Hne. induction l1 as [| a l1 IH]; [reflexivity |].
  simpl. destruct (l1 ++ l2) eqn:E; [| exact IH].
  apply app_eq_nil in E. destruct E as [_ E]. congruence.
Qed.

(** The last piece of [split] is the file name after the last slash. *)
Lemma basename_after_slash (dir name : str) :
  forallb (fun c => negb (c =? SLASH)%N) name = true ->
  last (Py.split N.eqb SLASH (dir ++ SLASH :: name)) [] = name
  /\ last (Py.split N.eqb SLASH name) [] = name.
Proof.
  intros Hname.
  destruct (split_after_slash dir name) as (f & front & ->).
  rewrite last_app_nonempty by apply split_not_nil.
  rewrite (@split_no_slash name Hname). split; reflexivity.
Qed.

Lemma chore_allow_no_slash (name : str) :
  In name chore_allow ->
  forallb (fun c => negb (c =? SLASH)%N) name = true.
Proof.
  assert (H : forallb (fun n => forallb (fun c => negb (c =? SLASH)%N) n)
                chore_allow = true) by (vm_compute; reflexivity).
  rewrite forallb_forall in H. exact (H name).
Qed.

(** X20. A list of paths, not empty, is chore-only when every path is a file
    of the allow-list (lock files, manifests, [.gitignore], ...) at the top
    level or in any directory, or lies under [.github/] or [.vscode/]. *)
Theorem chore_paths_are_chore_only (paths : list str) :
  paths <> [] ->
  (forall p, In p paths -> looks_like_chore p) ->
  _is_chore_only paths = true.
Proof.
  intros Hne Hall. unfold _is_chore_only.
  destruct paths as [| p0 paths]; [congruence |]. cbn [Py.is_empty].
  apply forallb_forall. intros p Hp. cbv zeta.
  destruct (Hall p Hp) as [(name & Hname & Hp') | [Hgh | Hvs]].
  - assert (Hbase : last (Py.split N.eqb SLASH p) [] = name).
    { pose proof (@chore_allow_no_slash name Hname) as Hns.
      destruct Hp' as [-> | (dir & ->)].
      - exact (proj2 (@basename_after_slash [] name Hns)).
      - exact (proj1 (@basename_after_slash dir name Hns)). }
    rewrite Hbase.
    assert (Hallow : existsb (str_eqb name) chore_allow = true).
    { apply existsb_exists. exists name.
      split; [exact Hname | apply str_eqb_eq; reflexivity]. }
    rewrite Hallow. reflexivity.
  - rewrite Hgh. rewrite orb_true_r. reflexivity.
  - rewrite Hvs. rewrite !orb_true_r. reflexivity.
Qed.

Lemma chore_paths_are_chore_only_witness :
  [lit "web/admin/package-lock.json"; lit ".gitignore";
   lit ".github/workflows/ci.yml"] <> []
  /\ (forall p,
        In p [lit "web/admin/package-lock.json"; lit ".gitignore";
              lit ".github/workflows/ci.yml"] ->
        looks_like_chore p)
  /\ _is_chore_only [lit "web/admin/package-lock.json"; lit ".gitignore";
                     lit ".github/workflows/ci.yml"] = true.
Proof.
  assert (Hne : [lit "web/admin/package-lock.json"; lit ".gitignore";
                 lit ".github/workflows/ci.yml"] <> []) by discriminate.
  assert (Hall : forall p,
             In p [lit "web/admin/package-lock.json"; lit ".gitignore";
                   lit ".github/workflows/ci.yml"] ->
             looks_like_chore p).
  { intros p [<- | [<- | [<- | []]]].
    - left. exists (lit "package-lock.json").
      split; [right; left; reflexivity |].
      right. exists (lit "web/admin"). vm_compute. reflexivity.
    - left. exists (lit ".gitignore"). split; [| left; reflexivity].
      unfold chore_allow. do 10 right. left. reflexivity.
    - right. left. vm_compute. reflexivity. }
  split; [exact Hne |]. split; [exact Hall |].
  exact (@chore_paths_are_chore_only _ Hne Hall).
Defined.

(** * auto_commit.py *)

Module AutoCommitFacts.
Import AutoCommit.

Example run_with_yes :
  let '(o, r) := script repo_exec (fun _ => lit "/work/repo/src")
                   (lit "/skills/suggest_commit_message.py") repo_suggestion
                   utf8_stdout
                   {| stage := StageAuto; hint := None; dry_run := false;
                      yes := true |} dirty_repo in
  o = Done 0%Z
  /\ commits (sys r)
     = [[lit "git"; lit "-C"; lit "/work/repo"; lit "commit";
         lit "-m"; lit "feat: update app"; lit "-m"; lit "- M src/app.py"]]
  /\ length (trace r) = 6.
Proof. vm_compute. repeat split. Qed.

Section Runs.

Variable Sys : Type.
Variable exec : Sys -> option str -> list str -> Z * bytes * Sys.
Variable getcwd : Sys -> str.
Variable script_path : str.
Variable json_suggestion : str -> option (str * str).
Variable stdout_encodes : printed -> bool.

Local Abbreviation script' :=
  (script exec getcwd script_path json_suggestion stdout_encodes).
Local Abbreviation shape' := (shape script_path json_suggestion stdout_encodes).
Local Abbreviation print' := (print (Sys:=Sys) stdout_encodes).

Lemma check_output_cases (cwd : option str) (argv : list str) (r : Run Sys) :
  (exists out s', check_output exec cwd argv r = (Done out, ran r s' argv))
  \/ (exists code s',
        code <> 0%Z
        /\ check_output exec cwd argv r
           = (Raised (CalledProcess code argv), ran r s' argv)).
Proof.
  unfold check_output, bind, spawn, ran.
  destruct (exec (sys r) cwd argv) as [[code out] s'].
  cbn [fst snd]. destruct (Z.eqb_spec code 0) as [-> | Hc].
  - left. exists out, s'. reflexivity.
  - right. exists code, s'. split; [assumption | reflexivity].
Qed.

Lemma check_call_cases (argv : list str) (r : Run Sys) :
  (exists s', check_call exec argv r = (Done tt, ran r s' argv))
  \/ (exists code s',
        code <> 0%Z
        /\ check_call exec argv r
           = (Raised (CalledProcess code argv), ran r s' argv)).
Proof.
  unfold check_call, bind, spawn, ran.
  destruct (exec (sys r) None argv) as [[code out] s'].
  cbn [fst snd]. destruct (Z.eqb_spec code 0) as [-> | Hc].
  - left. exists s'. reflexivity.
  - right. exists code, s'. split; [assumption | reflexivity].
Qed.

Lemma git_cases (repo_root : str) (args : list str) (r : Run Sys) :
  (exists text s',
     _git exec repo_root args r
     = (Done text, ran r s' ([lit "git"; lit "-C"; repo_root] ++ args)))
  \/ (exists code s',
        code <> 0%Z
        /\ _git exec repo_root args r
           = (Raised (CalledProcess code ([lit "git"; lit "-C"; repo_root] ++ args)),
              ran r s' ([lit "git"; lit "-C"; repo_root] ++ args))).
Proof.
  unfold _git, bind.
  destruct (check_output_cases None ([lit "git"; lit "-C"; repo_root] ++ args) r)
    as [(out & s' & ->) | (code & s' & Hc & ->)].
  - left. eexists _, s'. reflexivity.
  - right. exists code, s'. split; [assumption | reflexivity].
Qed.

Lemma repo_root_cases (r : Run Sys) :
  (exists root s',
     _repo_root exec getcwd r
     = (Done root, ran r s' (rev_parse_cmd (getcwd (sys r)))))
  \/ (exists s',
        _repo_root exec getcwd r
        = (Raised (Exit 2),
           said (ran r s' (rev_parse_cmd (getcwd (sys r))))
                (Stderr (Text (lit "not a git repo"))))).
Proof.
  unfold _repo_root.
  destruct (git_cases (getcwd (sys r)) [lit "rev-parse"; lit "--show-toplevel"] r)
    as [(text & s' & ->) | (code & s' & Hc & ->)].
  - left. exists text, s'. reflexivity.
  - right. exists s'. reflexivity.
Qed.

Lemma has_staged_cases (repo_root : str) (r : Run Sys) :
  (exists staged s',
     _has_staged exec repo_root r = (Done staged, ran r s' (diff_cmd repo_root)))
  \/ (exists code s',
        code <> 0%Z
        /\ _has_staged exec repo_root r
           = (Raised (CalledProcess code (diff_cmd repo_root)),
              ran r s' (diff_cmd repo_root))).
Proof.
  unfold _has_staged, bind.
  destruct (git_cases repo_root [lit "diff"; lit "--cached"; lit "--name-only"] r)
    as [(text & s' & ->) | (code & s' & Hc & ->)].
  - left. eexists _, s'. reflexivity.
  - right. exists code, s'. split; [assumption | reflexivity].
Qed.

Lemma suggest_cases (repo_root : str) (hint : option str) (r : Run Sys) :
  (exists text subject body s',
     json_suggestion text = Some (subject, body)
     /\ _suggest exec script_path json_suggestion repo_root hint r
        = (Done (subject, body), ran r s' (suggest_cmd script_path hint)))
  \/ (exists text s',
        json_suggestion text = None
        /\ _suggest exec script_path json_suggestion repo_root hint r
           = (Raised (BadSuggestion text), ran r s' (suggest_cmd script_path hint)))
  \/ (exists code s',
        code <> 0%Z
        /\ _suggest exec script_path json_suggestion repo_root hint r
           = (Raised (CalledProcess code (suggest_cmd script_path hint)),
              ran r s' (suggest_cmd script_path hint))).
Proof.
  unfold _suggest, bind.
  destruct (check_output_cases (Some repo_root) (suggest_cmd script_path hint) r)
    as [(out & s' & ->) | (code & s' & Hc & ->)].
  - destruct (json_suggestion (Utf8.decode out)) as [[subject body] |] eqn:E.
    + left. exists (Utf8.decode out), subject, body, s'.
      split; [exact E | reflexivity].
    + right. left. exists (Utf8.decode out), s'. split; [exact E | reflexivity].
  - right. right. exists code, s'. split; [assumption | reflexivity].
Qed.

(** From the second look at the index on. *)
Lemma finish_shape (args : Args) (cwd repo_root : str) (pre : list (list str))
  (r : Run Sys) (o : outcome Z) (r' : Run Sys) :
  staging args cwd repo_root pre ->
  trace r = pre -> output r = [] ->
  bind (_has_staged exec repo_root) (fun staged' =>
      if negb staged' then
        bind (eprint (lit "nothing to commit")) (fun _ => ret 4%Z)
      else
        bind (_suggest exec script_path json_suggestion repo_root (hint args))
          (fun suggestion =>
        let (subject, body) := suggestion in
        bind (print' (lit "subject: " ++ subject)) (fun _ =>
        bind (if Py.is_empty body then ret tt
              else bind (print' (lit "body:")) (fun _ => print' body)) (fun _ =>
        if dry_run args then ret 0%Z
        else if negb (yes args) then
          bind (eprint ([NEWLINE] ++ lit "pass --yes to execute git commit"))
               (fun _ => ret 5%Z)
        else
          bind (check_call exec (commit_cmd repo_root subject body))
               (fun _ => ret 0%Z))))) r = (o, r') ->
  shape' args o (trace r') (output r').
Proof.
  intros Hpre Htr Hout H. unfold bind at 1 in H.
  destruct (has_staged_cases repo_root r)
    as [(staged' & s1 & E1) | (code & s1 & Hc & E1)]; rewrite E1 in H.
  2:{ inversion H; subst. cbn [ran trace output]. rewrite Hout.
      eapply SecondDiffFails; eassumption. }
  destruct staged'; cbn [negb] in H.
  2:{ inversion H; subst. cbn [ran said trace output app]. rewrite Hout.
      eapply NothingToCommit; eassumption. }
  unfold bind at 1 in H.
  destruct (suggest_cases repo_root (hint args) (ran r s1 (diff_cmd repo_root)))
    as [(text & subject & body & s2 & Hj & E2)
       | [(text & s2 & Hj & E2) | (code & s2 & Hc & E2)]]; rewrite E2 in H.
  2:{ inversion H; subst. cbn [ran trace output]. rewrite Hout, <- app_assoc.
      eapply SuggestionUnreadable; eassumption. }
  2:{ inversion H; subst. cbn [ran trace output]. rewrite Hout, <- app_assoc.
      eapply SuggestFails; eassumption. }
  set (r2 := ran (ran r s1 (diff_cmd repo_root)) s2
               (suggest_cmd script_path (hint args))) in *.
  assert (Hshown : forall k : unit -> M Sys Z,
             bind (print' (lit "subject: " ++ subject)) (fun _ =>
               bind (if Py.is_empty body then ret tt
                     else bind (print' (lit "body:")) (fun _ => print' body)) k) r2
             = if forallb stdout_encodes (to_print subject body)
               then k tt {| sys := s2;
                            trace := pre ++ [diff_cmd repo_root;
                                             suggest_cmd script_path (hint args)];
                            output := shown subject body |}
               else (Raised UnicodeEncode,
                     {| sys := s2;
                        trace := pre ++ [diff_cmd repo_root;
                                         suggest_cmd script_path (hint args)];
                        output := map Stdout
                                    (written stdout_encodes
                                       (to_print subject body)) |})).
  { intros k. unfold shown, to_print, r2, ran, bind, print, emit, ret, throw.
    cbn [sys trace output forallb written]. rewrite Htr, Hout, <- app_assoc.
    destruct (stdout_encodes (Text (lit "subject: " ++ subject)));
      [| reflexivity].
    destruct (Py.is_empty body); [reflexivity |].
    cbn [sys trace output forallb written].
    destruct (stdout_encodes (Text (lit "body:"))); [| reflexivity].
    cbn [sys trace output forallb written].
    destruct (stdout_encodes (Text body)); reflexivity. }
  rewrite Hshown in H. clear Hshown.
  destruct (forallb stdout_encodes (to_print subject body)) eqn:Henc.
  2:{ inversion H; subst. cbn [trace output].
      eapply PrintFails; eassumption. }
  destruct (dry_run args) eqn:Hdry.
  { inversion H; subst. cbn [trace output]. eapply DryRun; eassumption. }
  destruct (yes args) eqn:Hyes; cbn [negb] in H.
  2:{ inversion H; subst. cbn [trace output].
      eapply Unconfirmed; eassumption. }
  unfold bind at 1 in H.
  match type of H with context [check_call exec ?argv ?run] =>
    destruct (check_call_cases argv run) as [(s3 & E3) | (code & s3 & Hc & E3)];
    rewrite E3 in H
  end.
  - inversion H; subst. cbn [ran trace output]. rewrite <- app_assoc.
    eapply Committed; eassumption.
  - inversion H; subst. cbn [ran trace output]. rewrite <- app_assoc.
    eapply CommitFails; eassumption.
Qed.

(** Every run of the script has one of the thirteen shapes. *)
Lemma script_shape (args : Args) (s : Sys) (o : outcome Z) (r : Run Sys) :
  script' args s = (o, r) -> shape' args o (trace r) (output r).
Proof.
  unfold script, main. intros H. unfold bind at 1 in H.
  destruct (repo_root_cases {| sys := s; trace := []; output := [] |})
    as [(root & s1 & E1) | (s1 & E1)]; rewrite E1 in H.
  2:{ inversion H; subst. apply NotARepo. }
  unfold bind at 1 in H.
  match type of H with context [_has_staged exec root ?run] =>
    destruct (has_staged_cases root run)
      as [(staged & s2 & E2) | (code & s2 & Hc & E2)]; rewrite E2 in H
  end.
  2:{ inversion H; subst. apply FirstDiffFails. assumption. }
  remember (ran (ran {| sys := s; trace := []; output := [] |} s1
                   (rev_parse_cmd (getcwd (sys {| sys := s; trace := [];
                                                  output := [] |}))))
                s2 (diff_cmd root)) as r1 eqn:Er1.
  assert (Ht1 : trace r1 = [rev_parse_cmd (getcwd s); diff_cmd root])
    by (rewrite Er1; reflexivity).
  assert (Ho1 : output r1 = []) by (rewrite Er1; reflexivity).
  clear Er1 E1 E2.
  destruct staged.
  - apply (@finish_shape args (getcwd s) root
             [rev_parse_cmd (getcwd s); diff_cmd root] r1 o r);
      [apply AlreadyStaged | exact Ht1 | exact Ho1 |].
    destruct (stage args); exact H.
  - destruct (stage args) eqn:Hst.
    3:{ inversion H; subst. cbn [said trace output]. rewrite Ht1, Ho1.
        apply NothingStaged. assumption. }
    all: unfold bind at 1 in H;
      destruct (check_call_cases (add_cmd root) r1)
        as [(s3 & E3) | (code & s3 & Hc & E3)];
      rewrite E3 in H;
      [ apply (@finish_shape args (getcwd s) root
                 [rev_parse_cmd (getcwd s); diff_cmd root; add_cmd root]
                 (ran r1 s3 (add_cmd root)) o r);
        [ apply StagedNow; congruence
        | cbn [ran trace]; rewrite Ht1; reflexivity
        | exact Ho1
        | exact H ]
      | inversion H; subst; cbn [ran trace output]; rewrite Ht1, Ho1;
        apply AddFails; [congruence | assumption] ].
Qed.

Lemma is_commit_commands (cwd root subject body : str) (h : option str) :
  is_commit (rev_parse_cmd cwd) = false
  /\ is_commit (diff_cmd root) = false
  /\ is_commit (add_cmd root) = false
  /\ is_commit (suggest_cmd script_path h) = false
  /\ is_commit (commit_cmd root subject body) = true.
Proof. repeat (split; [vm_compute; reflexivity |]). vm_compute. reflexivity. Qed.

Lemma is_add_commands (cwd root subject body : str) (h : option str) :
  is_add (rev_parse_cmd cwd) = false
  /\ is_add (diff_cmd root) = false
  /\ is_add (add_cmd root) = true
  /\ is_add (suggest_cmd script_path h) = false
  /\ is_add (commit_cmd root subject body) = false.
Proof. repeat (split; [vm_compute; reflexivity |]). vm_compute. reflexivity. Qed.

Lemma staging_no_commit (args : Args) (cwd root : str) (pre : list (list str)) :
  staging args cwd root pre -> existsb is_commit pre = false.
Proof.
  destruct (is_commit_commands cwd root [] [] None) as (H1 & H2 & H3 & _).
  intros [|]; cbn [existsb]; rewrite ?H1, ?H2, ?H3; reflexivity.
Qed.

Lemma staging_add (args : Args) (cwd root : str) (pre : list (list str)) :
  staging args cwd root pre ->
  existsb is_add pre = true -> stage args <> StageNone.
Proof.
  destruct (is_add_commands cwd root [] [] None) as (H1 & H2 & H3 & _).
  intros [| Hst]; cbn [existsb]; rewrite ?H1, ?H2, ?H3;
    [discriminate | intros _; exact Hst].
Qed.

Ltac scan_trace :=
  rewrite ?existsb_app; cbn [existsb];
  repeat match goal with
         | H : staging _ _ _ _ |- _ =>
             rewrite (staging_no_commit H)
         end;
  repeat match goal with
         | |- context [is_commit (rev_parse_cmd ?c)] =>
             rewrite (proj1 (is_commit_commands c [] [] [] None))
         | |- context [is_commit (diff_cmd ?r)] =>
             rewrite (proj1 (proj2 (is_commit_commands [] r [] [] None)))
         | |- context [is_commit (add_cmd ?r)] =>
             rewrite (proj1 (proj2 (proj2 (is_commit_commands [] r [] [] None))))
         | |- context [is_commit (suggest_cmd script_path ?h)] =>
             rewrite (proj1 (proj2 (proj2 (proj2
                        (is_commit_commands [] [] [] [] h)))))
         | |- context [is_commit (commit_cmd ?r ?s ?b)] =>
             rewrite (proj2 (proj2 (proj2 (proj2
                        (is_commit_commands [] r s b None)))))
         end;
  cbn [orb].


(** X22. Once [parse_args] has returned, the script ends with status 0, 1,
    2, 3, 4 or 5. Status 0 then means a dry run or an executed commit;
    status 5 means that [--yes] was missing and nothing was committed;
    status 3 means [--stage none] with nothing staged, after the two
    read-only git calls and nothing else; status 4 means nothing was
    committed either. *)
Theorem exit_status_meaning (args : Args) (s : Sys) (o : outcome Z)
  (r : Run Sys) :
  script' args s = (o, r) ->
  In (exit_status o) [0; 1; 2; 3; 4; 5]%Z
  /\ (exit_status o = 0%Z ->
      (dry_run args = true /\ existsb is_commit (trace r) = false)
      \/ (dry_run args = false /\ yes args = true
          /\ existsb is_commit (trace r) = true))
  /\ (exit_status o = 5%Z ->
      dry_run args = false /\ yes args = false
      /\ existsb is_commit (trace r) = false)
  /\ (exit_status o = 3%Z ->
      stage args = StageNone
      /\ exists cwd root, trace r = [rev_parse_cmd cwd; diff_cmd root])
  /\ (exit_status o = 4%Z -> existsb is_commit (trace r) = false).
Proof.
  intros H. apply script_shape in H.
  destruct H; cbn [exit_status];
    (split; [cbn [In]; auto 10 |]);
    (split; [try (intros E; discriminate E) |]);
    [ .. ].
  all: try (split; [try (intros E; discriminate E) |]).
  all: try (split; [try (intros E; discriminate E) |]).
  all: try (intros E; discriminate E).
  all: try (intros _).
  all: scan_trace.
  - split; [assumption |]. exists cwd, root. reflexivity.
  - reflexivity.
  - left. split; [assumption | reflexivity].
  - assumption.
  - split; [assumption | reflexivity].
  - right. split; [assumption |]. split; [assumption | reflexivity].
Qed.

(** X23. [git add -A] is run only when [--stage] is not [none]; with
    [--stage none] the script stages nothing, whatever the index holds and
    whatever the child processes answer. *)
Theorem stage_none_never_adds (args : Args) (s : Sys) (o : outcome Z)
  (r : Run Sys) :
  script' args s = (o, r) ->
  stage args = StageNone ->
  existsb is_add (trace r) = false.
Proof.
  intros H Hnone. apply script_shape in H.
  assert (Hpre : forall cwd root pre,
             staging args cwd root pre -> existsb is_add pre = false).
  { intros cwd root pre Hs.
    destruct (existsb is_add pre) eqn:E; [| reflexivity].
    destruct (staging_add Hs E Hnone). }
  destruct (is_add_commands [] [] [] [] None) as (_ & _ & _ & _ & _).
  destruct H; rewrite ?existsb_app; cbn [existsb];
    repeat match goal with
           | Hs : staging _ _ _ _ |- _ => rewrite (Hpre _ _ _ Hs)
           | Hs : stage args <> StageNone |- _ => destruct (Hs Hnone)
           | |- context [is_add (rev_parse_cmd ?c)] =>
               rewrite (proj1 (is_add_commands c [] [] [] None))
           | |- context [is_add (diff_cmd ?r)] =>
               rewrite (proj1 (proj2 (is_add_commands [] r [] [] None)))
           | |- context [is_add (suggest_cmd script_path ?h)] =>
               rewrite (proj1 (proj2 (proj2 (proj2
                          (is_add_commands [] [] [] [] h)))))
           | |- context [is_add (commit_cmd ?r ?s ?b)] =>
               rewrite (proj2 (proj2 (proj2 (proj2
                          (is_add_commands [] r s b None)))))
           end;
    reflexivity.
Qed.

(** X24. When [git rev-parse --show-toplevel] fails in the current
    directory, with whatever status, the script prints [not a git repo] on
    standard error and raises [SystemExit(2)]; it has run no other command,
    whatever its arguments. *)
Theorem outside_a_repository (args : Args) (s : Sys) :
  fst (fst (exec s None (rev_parse_cmd (getcwd s)))) <> 0%Z ->
  fst (script' args s) = Raised (Exit 2)
  /\ exit_status (fst (script' args s)) = 2%Z
  /\ trace (snd (script' args s)) = [rev_parse_cmd (getcwd s)]
  /\ output (snd (script' args s)) = [Stderr (Text (lit "not a git repo"))].
Proof.
  intros Hcode.
  unfold script, main, bind at 1.
  unfold _repo_root, _git, bind, check_output, bind, spawn. cbn [sys trace output].
  change ([lit "git"; lit "-C"; getcwd s]
          ++ [lit "rev-parse"; lit "--show-toplevel"])
    with (rev_parse_cmd (getcwd s)).
  destruct (exec s None (rev_parse_cmd (getcwd s))) as [[code out] s'].
  cbn [fst snd] in *.
  destruct (Z.eqb_spec code 0) as [E | _]; [contradiction |].
  unfold throw, eprint, emit. cbn [fst snd sys trace output exit_status app].
  repeat split.
Qed.

End Runs.


Lemma exit_status_meaning_witness :
  exit_status (fst (demo stage_none_args)) = 3%Z
  /\ stage stage_none_args = StageNone
  /\ exists cwd root,
       trace (snd (demo stage_none_args)) = [rev_parse_cmd cwd; diff_cmd root].
Proof.
  assert (H3 : exit_status (fst (demo stage_none_args)) = 3%Z)
    by (vm_compute; reflexivity).
  split; [exact H3 |].
  apply (@exit_status_meaning Repo repo_exec (fun _ => lit "/work/repo/src")
           (lit "/skills/suggest_commit_message.py") repo_suggestion
           utf8_stdout stage_none_args dirty_repo (fst (demo stage_none_args))
           (snd (demo stage_none_args))).
  - vm_compute. reflexivity.
  - exact H3.
Defined.

Lemma stage_none_never_adds_witness :
  stage stage_none_args = StageNone
  /\ existsb is_add (trace (snd (demo stage_none_args))) = false.
Proof.
  split; [reflexivity |].
  apply (@stage_none_never_adds Repo repo_exec (fun _ => lit "/work/repo/src")
           (lit "/skills/suggest_commit_message.py") repo_suggestion
           utf8_stdout stage_none_args dirty_repo (fst (demo stage_none_args))
           (snd (demo stage_none_args))).
  - vm_compute. reflexivity.
  - reflexivity.
Defined.

Lemma outside_a_repository_witness :
  fst (script (fun (s : unit) _ _ => (128%Z, [], s)) (fun _ => lit "/tmp")
         (lit "/skills/suggest_commit_message.py") repo_suggestion
         utf8_stdout confirmed_args tt)
  = Raised (Exit 2).
Proof.
  apply (@outside_a_repository unit (fun (s : unit) _ _ => (128%Z, [], s))
           (fun _ => lit "/tmp") (lit "/skills/suggest_commit_message.py")
           repo_suggestion utf8_stdout confirmed_args tt).
  cbn [fst]. lia.
Defined.

End AutoCommitFacts.
